(** * A shallow embedding of the TUI file manager (src/main.py)

    The development follows the Python source top-down: string and path
    helpers, the exception hierarchy, the operating-system interface,
    the application state, the effect monad, [refresh_table], the
    reactive watchers and finally the key-bound actions together with
    the callbacks they hand to the modal dialogs.

    Conventions.
    - [str] values are byte strings holding UTF-8; ordering is bytewise,
      which agrees with Python's code-point ordering.  [str.strip] is
      spelled out on the encodings of the 29 characters [str.isspace]
      holds of; [str.lower] is a function of the interpreter, taken
      through the interface and known on ASCII text.
    - [Path] is the POSIX flavour of [pathlib.PurePath]: an anchor flag
      and the list of components (the special root [//] is not kept
      apart from [/]).
    - Calls into [os], [pathlib] and [shutil] are taken at their call
      contract through the class [FileSystem]; every such call the
      application makes is recorded in the ghost field [log] of the
      state.  Every call can raise, [Path.is_dir] and [Path.exists]
      included (they swallow "not found" but let [EACCES] or
      [ENAMETOOLONG] out).  What [InfoModal] and [EditModal] read to
      compose their screens is not part of the model.
    - Textual is taken at its documented behaviour: a watcher runs
      synchronously when its reactive attribute is assigned a different
      value, [DataTable.clear] removes the rows and resets the cursor. *)

From Stdlib Require Import List String Ascii Bool Arith ZArith Lia.
From Stdlib Require Import Permutation Sorted DecimalString.
Import ListNotations.
Local Open Scope string_scope.
Local Open Scope list_scope.

Set Implicit Arguments.

(* ================================================================= *)
(** ** Strings *)

Module Str.

Definition is_upper (c : ascii) : bool :=
  let n := nat_of_ascii c in Nat.leb 65 n && Nat.leb n 90.

Definition lower_char (c : ascii) : ascii :=
  if is_upper c then ascii_of_nat (nat_of_ascii c + 32) else c.

(** [str.lower()] on ASCII text: the letters A-Z are lowered. *)
Fixpoint ascii_lower (s : string) : string :=
  match s with
  | EmptyString => EmptyString
  | String c r => String (lower_char c) (ascii_lower r)
  end.

(** [str.isascii()] *)
Fixpoint is_ascii (s : string) : bool :=
  match s with
  | EmptyString => true
  | String c r => Nat.ltb (nat_of_ascii c) 128 && is_ascii r
  end.

(** [str.startswith(p)] *)
Definition startswith (s p : string) : bool := String.prefix p s.

(** The characters [str.isspace] holds of, by their UTF-8 encoding.
    One byte: TAB, LF, VT, FF, CR, the separators FS..US and the blank. *)
Definition space1 (a : ascii) : bool :=
  let n := nat_of_ascii a in
  (Nat.leb 9 n && Nat.leb n 13) || (Nat.leb 28 n && Nat.leb n 32).

(** Two bytes: U+0085 (C2 85) and U+00A0 (C2 A0). *)
Definition space2 (a b : ascii) : bool :=
  Nat.eqb (nat_of_ascii a) 194
  && (Nat.eqb (nat_of_ascii b) 133 || Nat.eqb (nat_of_ascii b) 160).

(** Three bytes: U+1680 (E1 9A 80), U+2000..U+200A (E2 80 80..8A),
    U+2028, U+2029, U+202F (E2 80 A8, A9, AF), U+205F (E2 81 9F) and
    U+3000 (E3 80 80). *)
Definition space3 (a b c : ascii) : bool :=
  let x := nat_of_ascii a in
  let y := nat_of_ascii b in
  let z := nat_of_ascii c in
  (Nat.eqb x 225 && Nat.eqb y 154 && Nat.eqb z 128)
  || (Nat.eqb x 226 && Nat.eqb y 128
      && ((Nat.leb 128 z && Nat.leb z 138)
          || Nat.eqb z 168 || Nat.eqb z 169 || Nat.eqb z 175))
  || (Nat.eqb x 226 && Nat.eqb y 129 && Nat.eqb z 159)
  || (Nat.eqb x 227 && Nat.eqb y 128 && Nat.eqb z 128).

(** What follows the white-space character [s] starts with, if it
    starts with one. *)
Definition after_space (s : string) : option string :=
  match s with
  | EmptyString => None
  | String a r =>
      if space1 a then Some r
      else match r with
           | EmptyString => None
           | String b r2 =>
               if space2 a b then Some r2
               else match r2 with
                    | EmptyString => None
                    | String c r3 => if space3 a b c then Some r3 else None
                    end
           end
  end.

(** [str.lstrip()] *)
Fixpoint lstrip (s : string) : string :=
  match s with
  | EmptyString => EmptyString
  | String a r =>
      if space1 a then lstrip r
      else match r with
           | EmptyString => s
           | String b r2 =>
               if space2 a b then lstrip r2
               else match r2 with
                    | EmptyString => s
                    | String c r3 => if space3 a b c then lstrip r3 else s
                    end
           end
  end.

(** [s] is made of white-space characters only (the empty string is). *)
Fixpoint all_space (s : string) : bool :=
  match s with
  | EmptyString => true
  | String a r =>
      if space1 a then all_space r
      else match r with
           | EmptyString => false
           | String b r2 =>
               if space2 a b then all_space r2
               else match r2 with
                    | EmptyString => false
                    | String c r3 => if space3 a b c then all_space r3 else false
                    end
           end
  end.

(** [str.rstrip()]: cut where the rest is white space only. *)
Fixpoint rstrip (s : string) : string :=
  match s with
  | EmptyString => EmptyString
  | String a r => if all_space s then EmptyString else String a (rstrip r)
  end.

(** [str.strip()] *)
Definition strip (s : string) : string := rstrip (lstrip s).

(** One white-space character, encoded. *)
Definition space_char (w : string) : Prop := after_space w = Some EmptyString.

(** No white-space character at the front. *)
Definition starts_clean (s : string) : Prop := after_space s = None.

(** No white-space character at the end. *)
Definition ends_clean (s : string) : Prop :=
  forall body w, space_char w -> s <> (body ++ w)%string.

(** Truthiness of a [str]: non-empty. *)
Definition truthy (s : string) : bool :=
  match s with EmptyString => false | _ => true end.

(** [s.split(sep)] for a one-character separator. *)
Fixpoint split_on (sep : ascii) (s : string) : list string :=
  match s with
  | EmptyString => [EmptyString]
  | String c r =>
      if Ascii.eqb c sep then EmptyString :: split_on sep r
      else match split_on sep r with
           | [] => [String c EmptyString]
           | h :: t => String c h :: t
           end
  end.

(** [s.rfind(ch)]: index of the last occurrence, [None] for [-1]. *)
Fixpoint rfind (ch : ascii) (s : string) : option nat :=
  match s with
  | EmptyString => None
  | String c r =>
      match rfind ch r with
      | Some i => Some (S i)
      | None => if Ascii.eqb c ch then Some 0 else None
      end
  end.

(** [s[i:]] *)
Fixpoint drop (i : nat) (s : string) : string :=
  match i, s with
  | 0, _ => s
  | S i', String _ r => drop i' r
  | S _, EmptyString => EmptyString
  end.

Definition of_nat (n : nat) : string := NilEmpty.string_of_uint (Nat.to_uint n).

Definition of_Z (z : Z) : string := NilEmpty.string_of_int (Z.to_int z).

End Str.

(* ================================================================= *)
(** ** Paths ([pathlib.Path], POSIX flavour) *)

Record Path : Type := mkPath { anchored : bool; parts : list string }.

Module PathOps.

Definition keep_part (c : string) : bool :=
  negb (String.eqb c "") && negb (String.eqb c ".").

(** [Path(s)] *)
Definition of_str (s : string) : Path :=
  mkPath (Str.startswith s "/") (filter keep_part (Str.split_on "/"%char s)).

(** [p / s] : an anchored right operand replaces the left one. *)
Definition joinpath (p : Path) (s : string) : Path :=
  let q := of_str s in
  if anchored q then q else mkPath (anchored p) (parts p ++ parts q).

(** [p.name] *)
Definition name (p : Path) : string := last (parts p) "".

(** [p.parent] *)
Definition parent (p : Path) : Path := mkPath (anchored p) (removelast (parts p)).

(** [str(p)] *)
Definition str (p : Path) : string :=
  if anchored p then "/" ++ String.concat "/" (parts p)
  else match parts p with
       | [] => "."
       | ps => String.concat "/" ps
       end.

(** [p == q] *)
Definition eqb (p q : Path) : bool :=
  Bool.eqb (anchored p) (anchored q)
  && (if list_eq_dec string_dec (parts p) (parts q) then true else false).

(** [p.suffix] *)
Definition suffix (p : Path) : string :=
  let n := name p in
  match Str.rfind "."%char n with
  | Some i => if Nat.ltb 0 i && Nat.ltb i (String.length n - 1) then Str.drop i n else ""
  | None => ""
  end.

(** A component as the operating system returns it from a listing. *)
Definition plain_name (c : string) : Prop :=
  c <> "" /\ c <> "." /\ Str.rfind "/"%char c = None.

End PathOps.

(* ================================================================= *)
(** ** Exceptions *)

(** The classes of Python's hierarchy that the source names or that the
    calls it makes can raise. *)
Inductive exn_class : Type :=
| Exception | OSError | PermissionError | FileExistsError | FileNotFoundError
| NotADirectoryError | IsADirectoryError | ShutilError | RuntimeError | ValueError
| AttributeError.

(** A raised exception: its class and [str(e)]. *)
Record exn : Type := Exn { exn_cls : exn_class; exn_text : string }.

Definition is_os_error (c : exn_class) : bool :=
  match c with
  | OSError | PermissionError | FileExistsError | FileNotFoundError
  | NotADirectoryError | IsADirectoryError | ShutilError => true
  | Exception | RuntimeError | ValueError | AttributeError => false
  end.

Definition class_eqb (c d : exn_class) : bool :=
  match c, d with
  | Exception, Exception | OSError, OSError | PermissionError, PermissionError
  | FileExistsError, FileExistsError | FileNotFoundError, FileNotFoundError
  | NotADirectoryError, NotADirectoryError | IsADirectoryError, IsADirectoryError
  | ShutilError, ShutilError | RuntimeError, RuntimeError | ValueError, ValueError
  | AttributeError, AttributeError => true
  | _, _ => false
  end.

(** [isinstance(e, d)]: what an [except d] clause catches. *)
Definition isinstance (e : exn) (d : exn_class) : bool :=
  match d with
  | Exception => true
  | OSError => is_os_error (exn_cls e)
  | _ => class_eqb (exn_cls e) d
  end.

(* ================================================================= *)
(** ** The operating-system interface *)

(** The fields of [os.stat_result] the source reads. *)
Record stat_result : Type := mkStat { st_size : Z; st_mode : Z; st_mtime : Z }.

(** One call into [os] / [pathlib] / [shutil]. *)
Inductive FsCall : Type :=
| Call_iterdir (p : Path)
| Call_is_dir (p : Path)
| Call_exists (p : Path)
| Call_stat (p : Path)
| Call_touch (p : Path)
| Call_mkdir (p : Path)
| Call_rename (src dst : Path)
| Call_unlink (p : Path)
| Call_rmtree (p : Path)
| Call_move (src dst : string)
| Call_copytree (src dst : string)
| Call_copy2 (src dst : string)
| Call_write_text (p : Path) (content : string).

(** A call together with its outcome. *)
Inductive FsEvent : Type :=
| Returned (c : FsCall)
| Failed (c : FsCall) (e : exn).

Definition event_failed (ev : FsEvent) : bool :=
  match ev with Returned _ => false | Failed _ _ => true end.

(** The call contract of the host: [FS] is the state of the file system.
    A call that reads answers or raises; a call that writes returns the
    new state, or raises and leaves a state of its own choosing (a
    recursive copy or delete may stop half-way).  [str_lower] is
    [str.lower], which the interpreter computes from its Unicode tables;
    on ASCII text it lowers the letters A-Z. *)
Class FileSystem (FS : Type) : Type := {
  fs_iterdir  : FS -> Path -> exn + list Path;      (* Path.iterdir *)
  fs_is_dir   : FS -> Path -> exn + bool;           (* Path.is_dir *)
  fs_exists   : FS -> Path -> exn + bool;           (* Path.exists *)
  fs_stat     : FS -> Path -> exn + stat_result;    (* Path.stat *)
  fs_touch    : FS -> Path -> exn * FS + FS;             (* Path.touch(exist_ok=False) *)
  fs_mkdir    : FS -> Path -> exn * FS + FS;             (* Path.mkdir(parents=False, exist_ok=False) *)
  fs_rename   : FS -> Path -> Path -> exn * FS + FS;     (* Path.rename *)
  fs_unlink   : FS -> Path -> exn * FS + FS;             (* Path.unlink *)
  fs_rmtree   : FS -> Path -> exn * FS + FS;             (* shutil.rmtree *)
  fs_move     : FS -> string -> string -> exn * FS + FS; (* shutil.move *)
  fs_copytree : FS -> string -> string -> exn * FS + FS; (* shutil.copytree *)
  fs_copy2    : FS -> string -> string -> exn * FS + FS; (* shutil.copy2 *)
  fs_write_text : FS -> Path -> string -> exn * FS + FS; (* Path.write_text *)
  os_path_expanduser : string -> string;            (* os.path.expanduser *)
  stat_filemode : Z -> string;                      (* stat.filemode *)
  strftime_minutes : Z -> exn + string;             (* fromtimestamp(ts).strftime("%Y-%m-%d %H:%M") *)
  str_lower : string -> string;                     (* str.lower *)
  str_lower_ascii :
    forall s, Str.is_ascii s = true -> str_lower s = Str.ascii_lower s
}.

(* ================================================================= *)
(** ** Application state *)

(** One row of the [DataTable]: icon, name, size, modified, permissions. *)
Record Row : Type := mkRow {
  row_icon : string; row_name : string; row_size : string;
  row_modified : string; row_perms : string }.

(** The outcome of a computation: a value, or a raised exception. *)
Inductive result (A : Type) : Type :=
| Val (a : A)
| Exc (e : exn).
Arguments Exc {A} e.

Section Model.

Context {FS : Type} `{FileSystem FS}.

(** The attributes of [FileManagerApp] and of the widgets it queries. *)
Record App : Type := mkApp {
  fs : FS;                              (* the host file system *)
  log : list FsEvent;                   (* ghost: calls made so far, oldest first *)
  current_dir : Path;                   (* reactive *)
  show_hidden : bool;                   (* reactive *)
  clipboard : option Path;              (* reactive *)
  clipboard_op : string;                (* reactive, "copy" or "cut" *)
  path_bar : string;                    (* #path_bar *)
  tree_path : string;                   (* #dir_tree .path *)
  table : list Row;                     (* #file_table rows *)
  cursor_row : Z;                       (* #file_table .cursor_row *)
  _row_entries : option (list Path);    (* None: attribute not yet assigned *)
  status : string                       (* #status_bar .message *)
}.

Definition with_fs (f : FS) (s : App) : App :=
  mkApp f (log s) (current_dir s) (show_hidden s) (clipboard s) (clipboard_op s)
        (path_bar s) (tree_path s) (table s) (cursor_row s) (_row_entries s) (status s).

Definition with_log (l : list FsEvent) (s : App) : App :=
  mkApp (fs s) l (current_dir s) (show_hidden s) (clipboard s) (clipboard_op s)
        (path_bar s) (tree_path s) (table s) (cursor_row s) (_row_entries s) (status s).

(** Append one event to the ghost log. *)
Definition record (ev : FsEvent) (s : App) : App := with_log (log s ++ [ev]) s.

Definition with_current_dir (p : Path) (s : App) : App :=
  mkApp (fs s) (log s) p (show_hidden s) (clipboard s) (clipboard_op s)
        (path_bar s) (tree_path s) (table s) (cursor_row s) (_row_entries s) (status s).

Definition with_show_hidden (b : bool) (s : App) : App :=
  mkApp (fs s) (log s) (current_dir s) b (clipboard s) (clipboard_op s)
        (path_bar s) (tree_path s) (table s) (cursor_row s) (_row_entries s) (status s).

Definition with_clipboard (c : option Path) (s : App) : App :=
  mkApp (fs s) (log s) (current_dir s) (show_hidden s) c (clipboard_op s)
        (path_bar s) (tree_path s) (table s) (cursor_row s) (_row_entries s) (status s).

Definition with_clipboard_op (o : string) (s : App) : App :=
  mkApp (fs s) (log s) (current_dir s) (show_hidden s) (clipboard s) o
        (path_bar s) (tree_path s) (table s) (cursor_row s) (_row_entries s) (status s).

Definition with_path_bar (t : string) (s : App) : App :=
  mkApp (fs s) (log s) (current_dir s) (show_hidden s) (clipboard s) (clipboard_op s)
        t (tree_path s) (table s) (cursor_row s) (_row_entries s) (status s).

Definition with_tree_path (t : string) (s : App) : App :=
  mkApp (fs s) (log s) (current_dir s) (show_hidden s) (clipboard s) (clipboard_op s)
        (path_bar s) t (table s) (cursor_row s) (_row_entries s) (status s).

Definition with_table (rows : list Row) (cur : Z) (s : App) : App :=
  mkApp (fs s) (log s) (current_dir s) (show_hidden s) (clipboard s) (clipboard_op s)
        (path_bar s) (tree_path s) rows cur (_row_entries s) (status s).

Definition with_row_entries (l : option (list Path)) (s : App) : App :=
  mkApp (fs s) (log s) (current_dir s) (show_hidden s) (clipboard s) (clipboard_op s)
        (path_bar s) (tree_path s) (table s) (cursor_row s) l (status s).

Definition with_status (m : string) (s : App) : App :=
  mkApp (fs s) (log s) (current_dir s) (show_hidden s) (clipboard s) (clipboard_op s)
        (path_bar s) (tree_path s) (table s) (cursor_row s) (_row_entries s) m.

(* ================================================================= *)
(** ** The effect monad: state that survives a raised exception *)

Definition M (A : Type) : Type := App -> result A * App.

Definition ret {A} (a : A) : M A := fun s => (Val a, s).

Definition bind {A B} (m : M A) (k : A -> M B) : M B :=
  fun s => match m s with
           | (Val a, s') => k a s'
           | (Exc e, s') => (Exc e, s')
           end.

Definition raise {A} (e : exn) : M A := fun s => (Exc e, s).

Definition gets {A} (f : App -> A) : M A := fun s => (Val (f s), s).

Definition modify (f : App -> App) : M unit := fun s => (Val tt, f s).

(** [try: body except C1: h1 except C2: h2 ...]: the first clause whose
    classes match handles the exception; one matching no clause
    propagates, and so does one raised inside a handler. *)
Fixpoint find_clause {A} (e : exn) (clauses : list (list exn_class * (exn -> M A)))
  : option (exn -> M A) :=
  match clauses with
  | [] => None
  | (classes, handler) :: rest =>
      if existsb (isinstance e) classes then Some handler else find_clause e rest
  end.

Definition try_except {A} (body : M A)
    (clauses : list (list exn_class * (exn -> M A))) : M A :=
  fun s => match body s with
           | (Val a, s') => (Val a, s')
           | (Exc e, s') =>
               match find_clause e clauses with
               | Some handler => handler e s'
               | None => (Exc e, s')
               end
           end.

(** The state a command leaves behind, returned or raised. *)
Definition final {A} (m : M A) (s : App) : App := snd (m s).

Definition raised {A} (m : M A) (s : App) : option exn :=
  match fst (m s) with Val _ => None | Exc e => Some e end.

Local Notation "x <- m ;; k" := (bind m (fun x => k))
  (at level 61, m at next level, right associativity).
Local Notation "m ;; k" := (bind m (fun _ => k))
  (at level 61, right associativity).

Fixpoint mapM {A B} (f : A -> M B) (l : list A) : M (list B) :=
  match l with
  | [] => ret []
  | x :: xs => y <- f x ;; ys <- mapM f xs ;; ret (y :: ys)
  end.

(* ================================================================= *)
(** ** Calls into the host, each recorded in [log] *)

Definition query {A} (c : FsCall) (f : FS -> exn + A) : M A :=
  fun s => match f (fs s) with
           | inl e => (Exc e, record (Failed c e) s)
           | inr a => (Val a, record (Returned c) s)
           end.

Definition mutate (c : FsCall) (f : FS -> exn * FS + FS) : M unit :=
  fun s => match f (fs s) with
           | inl (e, rest) => (Exc e, with_fs rest (record (Failed c e) s))
           | inr f' => (Val tt, with_fs f' (record (Returned c) s))
           end.

Definition Path_iterdir (p : Path) : M (list Path) :=
  query (Call_iterdir p) (fun f => fs_iterdir f p).
Definition Path_is_dir (p : Path) : M bool :=
  query (Call_is_dir p) (fun f => fs_is_dir f p).
Definition Path_exists (p : Path) : M bool :=
  query (Call_exists p) (fun f => fs_exists f p).
Definition Path_stat (p : Path) : M stat_result :=
  query (Call_stat p) (fun f => fs_stat f p).
Definition Path_touch (p : Path) : M unit :=
  mutate (Call_touch p) (fun f => fs_touch f p).
Definition Path_mkdir (p : Path) : M unit :=
  mutate (Call_mkdir p) (fun f => fs_mkdir f p).
Definition Path_rename (src dst : Path) : M unit :=
  mutate (Call_rename src dst) (fun f => fs_rename f src dst).
Definition Path_unlink (p : Path) : M unit :=
  mutate (Call_unlink p) (fun f => fs_unlink f p).
Definition shutil_rmtree (p : Path) : M unit :=
  mutate (Call_rmtree p) (fun f => fs_rmtree f p).
Definition shutil_move (src dst : string) : M unit :=
  mutate (Call_move src dst) (fun f => fs_move f src dst).
Definition shutil_copytree (src dst : string) : M unit :=
  mutate (Call_copytree src dst) (fun f => fs_copytree f src dst).
Definition shutil_copy2 (src dst : string) : M unit :=
  mutate (Call_copy2 src dst) (fun f => fs_copy2 f src dst).
Definition Path_write_text (p : Path) (content : string) : M unit :=
  mutate (Call_write_text p content) (fun f => fs_write_text f p content).

(** [Path.expanduser]: only a relative path whose first component starts
    with a tilde is rewritten; an unresolved home raises [RuntimeError].
    The call reads the environment, not the file system. *)
Definition expanduser (p : Path) : exn + Path :=
  if anchored p then inr p
  else match parts p with
       | first :: rest =>
           if Str.startswith first "~" then
             let homedir := os_path_expanduser first in
             if Str.startswith homedir "~"
             then inl (Exn RuntimeError "Could not determine home directory.")
             else let q := PathOps.of_str homedir in
                  inr (mkPath (anchored q) (parts q ++ rest))
           else inr p
       | [] => inr p
       end.

Definition Path_expanduser (p : Path) : M Path :=
  match expanduser p with
  | inl e => raise e
  | inr q => ret q
  end.

(* ================================================================= *)
(** ** Helpers (source lines 42-63) *)

(** [f"{num/den:.1f}"] for a non-negative quotient: one decimal, ties to
    even.  With [den] a power of 1024 and [num < 2^53] the float quotient
    of the source is exact, so this is the digit string Python prints. *)
Definition format_1f (num den : Z) : string :=
  let q := (10 * num / den)%Z in
  let r := ((10 * num) mod den)%Z in
  let t := if (den <? 2 * r)%Z || ((2 * r =? den)%Z && Z.odd q) then (q + 1)%Z else q in
  Str.of_Z (t / 10) ++ "." ++ Str.of_Z (t mod 10).

Fixpoint human_size_loop (units : list string) (num den : Z) : string :=
  match units with
  | [] => format_1f num den ++ " PB"
  | unit :: rest =>
      if (num <? 1024 * den)%Z then format_1f num den ++ " " ++ unit
      else human_size_loop rest num (den * 1024)
  end.

Definition human_size (size : Z) : string :=
  human_size_loop ["B"; "KB"; "MB"; "GB"; "TB"] size 1.

Definition file_permissions (path : Path) : M string :=
  try_except
    (st <- Path_stat path ;; ret (stat_filemode (st_mode st)))
    [([Exception], fun _ => ret "----------")].

Definition file_modified (path : Path) : M string :=
  try_except
    (st <- Path_stat path ;;
     match strftime_minutes (st_mtime st) with
     | inl e => raise e
     | inr text => ret text
     end)
    [([Exception], fun _ => ret "-")].

(* ================================================================= *)
(** ** [sorted(iterable, key=...)] *)

(** Python's [<] on the key tuples [(not p.is_dir(), p.name.lower())]:
    the first unequal component decides. *)
Definition key_lt (k1 k2 : bool * string) : bool :=
  if Bool.eqb (fst k1) (fst k2) then String.ltb (snd k1) (snd k2)
  else negb (fst k1) && fst k2.

(** [not (k2 < k1)], the order the sorted listing is in. *)
Definition key_le (k1 k2 : bool * string) : bool := negb (key_lt k2 k1).

(** [x] may stand before [y] in a list sorted by [lt] on the keys. *)
Definition may_precede {K A} (lt : K -> K -> bool) (x y : K * A) : Prop :=
  lt (fst y) (fst x) = false.

(** Stable insertion: [x] stood before every element of [l] and stays
    before those it is not greater than. *)
Fixpoint insert_keyed {K A} (lt : K -> K -> bool) (x : K * A) (l : list (K * A))
  : list (K * A) :=
  match l with
  | [] => [x]
  | y :: ys => if lt (fst y) (fst x) then y :: insert_keyed lt x ys else x :: y :: ys
  end.

Fixpoint sort_keyed {K A} (lt : K -> K -> bool) (l : list (K * A)) : list (K * A) :=
  match l with
  | [] => []
  | x :: xs => insert_keyed lt x (sort_keyed lt xs)
  end.

(** [sorted(l, key=key)]: the keys are computed once per element, in
    order, then the decorated list is sorted stably. *)
Definition sorted {K A} (lt : K -> K -> bool) (key : A -> M K) (l : list A)
  : M (list A) :=
  keys <- mapM key l ;;
  ret (map snd (sort_keyed lt (combine keys l))).

(* ================================================================= *)
(** ** UI helpers (source lines 472-529) *)

Definition set_status (msg : string) : M unit := modify (with_status msg).

(** [DataTable.clear()]: no rows, cursor back on the first row. *)
Definition table_clear : M unit := modify (with_table [] 0%Z).

(** [DataTable.add_row(...)] *)
Definition table_add_row (r : Row) : M unit :=
  modify (fun s => with_table (table s ++ [r]) (cursor_row s) s).

(** [self._row_entries.append(entry)] *)
Definition row_entries_append (entry : Path) : M unit :=
  l <- gets _row_entries ;;
  match l with
  | Some es => modify (with_row_entries (Some (es ++ [entry])))
  | None => raise (Exn AttributeError "_row_entries")
  end.

Definition icons : list (string * string) :=
  [ (".py", "🐍"); (".js", "🟨"); (".ts", "🔷"); (".html", "🌐"); (".css", "🎨");
    (".json", "📋"); (".md", "📝"); (".txt", "📄"); (".pdf", "📕");
    (".png", "🖼"); (".jpg", "🖼"); (".jpeg", "🖼"); (".gif", "🖼"); (".svg", "🖼");
    (".mp3", "🎵"); (".wav", "🎵"); (".flac", "🎵");
    (".mp4", "🎬"); (".mkv", "🎬"); (".avi", "🎬");
    (".zip", "🗜"); (".tar", "🗜"); (".gz", "🗜"); (".rar", "🗜");
    (".exe", "⚙"); (".sh", "⚙"); (".bat", "⚙");
    (".db", "🗄"); (".sqlite", "🗄");
    (".rs", "🦀"); (".go", "🐹"); (".c", "🔧"); (".cpp", "🔧") ].

Fixpoint dict_get (d : list (string * string)) (k default : string) : string :=
  match d with
  | [] => default
  | (k', v) :: rest => if String.eqb k k' then v else dict_get rest k default
  end.

Definition _file_icon (path : Path) : string :=
  let suffix := str_lower (PathOps.suffix path) in
  dict_get icons suffix "📄".

(** The key of the listing order, line 481. *)
Definition entry_key (p : Path) : M (bool * string) :=
  d <- Path_is_dir p ;; ret (negb d, str_lower (PathOps.name p)).

(** The size column, lines 493-496. *)
Definition entry_size (entry : Path) : M string :=
  try_except
    (d <- Path_is_dir entry ;;
     if d then ret "-"
     else e <- Path_exists entry ;;
          if e then st <- Path_stat entry ;; ret (human_size (st_size st))
          else ret "?")
    [([OSError; PermissionError], fun _ => ret "?")].

(** The body of the loop for an entry that is shown, lines 492-500. *)
Definition add_entry_row (entry : Path) : M unit :=
  d <- Path_is_dir entry ;;
  let icon := if d then "📁" else _file_icon entry in
  size <- entry_size entry ;;
  modified <- file_modified entry ;;
  perms <- file_permissions entry ;;
  table_add_row (mkRow icon (PathOps.name entry) size modified perms) ;;
  row_entries_append entry.

(** The loop, lines 489-501; the result is the running [count]. *)
Fixpoint refresh_rows (entries : list Path) (count : nat) : M nat :=
  match entries with
  | [] => ret count
  | entry :: rest =>
      hidden <- gets show_hidden ;;
      if negb hidden && Str.startswith (PathOps.name entry) "." then
        refresh_rows rest count
      else
        add_entry_row entry ;;
        refresh_rows rest (S count)
  end.

Definition refresh_table : M unit :=
  table_clear ;;
  listed <- try_except
              (cur <- gets current_dir ;;
               it <- Path_iterdir cur ;;
               entries <- sorted key_lt entry_key it ;;
               ret (Some entries))
              [([PermissionError],
                fun _ => set_status "⚠  Permission denied" ;; ret None)] ;;
  match listed with
  | None => ret tt
  | Some entries =>
      modify (with_row_entries (Some [])) ;;
      count <- refresh_rows entries 0 ;;
      hidden <- gets show_hidden ;;
      let hidden_note := if hidden then "" else "  (hidden files excluded)" in
      cur <- gets current_dir ;;
      set_status (Str.of_nat count ++ " items in " ++ PathOps.str cur ++ hidden_note)
  end.

Definition selected_entry (s : App) : option Path :=
  let row_idx := cursor_row s in
  if (row_idx <? 0)%Z || Nat.eqb (List.length (table s)) 0 then None
  else match _row_entries s with
       | Some es => nth_error es (Z.to_nat row_idx)
       | None => None
       end.

(* ================================================================= *)
(** ** Reactive attributes and their watchers (source lines 453-468) *)

Definition watch_current_dir (new_dir : Path) : M unit :=
  modify (with_path_bar (" 📂  " ++ PathOps.str new_dir)) ;;
  refresh_table ;;
  modify (with_tree_path (PathOps.str new_dir)).

Definition watch_clipboard (path : option Path) : M unit :=
  match path with
  | Some p =>
      cop <- gets clipboard_op ;;
      let op := if String.eqb cop "cut" then "✂ Cut" else "📋 Copied" in
      set_status (op ++ ": " ++ PathOps.name p ++ "  — press [V] to paste")
  | None => set_status ""
  end.

(** Assignment to a reactive attribute: the watcher runs, synchronously,
    only when the value changes. *)
Definition set_current_dir (p : Path) : M unit :=
  old <- gets current_dir ;;
  if PathOps.eqb old p then ret tt
  else modify (with_current_dir p) ;; watch_current_dir p.

Definition option_path_eqb (a b : option Path) : bool :=
  match a, b with
  | Some p, Some q => PathOps.eqb p q
  | None, None => true
  | _, _ => false
  end.

Definition set_clipboard (c : option Path) : M unit :=
  old <- gets clipboard ;;
  if option_path_eqb old c then ret tt
  else modify (with_clipboard c) ;; watch_clipboard c.

Definition set_clipboard_op (o : string) : M unit := modify (with_clipboard_op o).

Definition set_show_hidden (b : bool) : M unit := modify (with_show_hidden b).

(* ================================================================= *)
(** ** Modal screens (source lines 68-347) *)

(** What the user does with an [InputModal] holding [value]. *)
Inductive InputGesture : Type :=
| PressOk (value : string)
| PressCancel
| PressEnter (value : string).

Definition InputModal_confirm (value : string) : option string :=
  Some (Str.strip value).

Definition InputModal_cancel : option string := None.

Definition InputModal_submit (value : string) : option string :=
  InputModal_confirm value.

(** The value the modal is dismissed with. *)
Definition InputModal_dismiss (g : InputGesture) : option string :=
  match g with
  | PressOk value => InputModal_confirm value
  | PressCancel => InputModal_cancel
  | PressEnter value => InputModal_submit value
  end.

Inductive EditGesture : Type :=
| EditSave (content : string)
| EditClose.

(** [EditModal._do_save] and [action_save] / [action_close_editor]. *)
Definition EditModal_dismiss (path : Path) (g : EditGesture) : M (option string) :=
  match g with
  | EditSave content =>
      try_except
        (Path_write_text path content ;;
         ret (Some ("✔  Saved: " ++ PathOps.name path)%string))
        [([Exception], fun e => ret (Some ("⚠  Save error: " ++ exn_text e)%string))]
  | EditClose => ret None
  end.

(** What an action leaves on the screen stack: nothing, or a modal with
    the callback given to [push_screen]. *)
Inductive Pending : Type :=
| NoScreen
| PushInput (title placeholder default : string) (handle : option string -> M unit)
| PushConfirm (message : string) (handle : bool -> M unit)
| PushInfo (path : Path)
| PushEdit (path : Path) (handle : option string -> M unit).

(** Truthiness of [str | None]. *)
Definition truthy (result : option string) : bool :=
  match result with
  | Some r => Str.truthy r
  | None => false
  end.

Definition text_of (result : option string) : string :=
  match result with Some r => r | None => "" end.

(* ================================================================= *)
(** ** Navigation events and actions (source lines 533-698) *)

Definition on_dir_selected (event_path : Path) : M unit :=
  set_current_dir (PathOps.of_str (PathOps.str event_path)).

Definition on_row_selected : M unit :=
  entry <- gets selected_entry ;;
  match entry with
  | Some e => d <- Path_is_dir e ;; if d then set_current_dir e else ret tt
  | None => ret tt
  end.

Definition action_go_up : M Pending :=
  cur <- gets current_dir ;;
  let parent := PathOps.parent cur in
  (if negb (PathOps.eqb parent cur) then set_current_dir parent else ret tt) ;;
  ret NoScreen.

Definition action_refresh : M Pending :=
  refresh_table ;;
  set_status "Refreshed." ;;
  ret NoScreen.

Definition action_toggle_hidden : M Pending :=
  hidden <- gets show_hidden ;;
  set_show_hidden (negb hidden) ;;
  refresh_table ;;
  ret NoScreen.

Definition goto_handle (result : option string) : M unit :=
  if truthy result then
    p <- Path_expanduser (PathOps.of_str (text_of result)) ;;
    d <- Path_is_dir p ;;
    if d then set_current_dir p
    else set_status ("⚠  Not a directory: " ++ text_of result)
  else ret tt.

Definition action_goto : M Pending :=
  cur <- gets current_dir ;;
  ret (PushInput "Go to Path:" "/path/to/dir" (PathOps.str cur) goto_handle).

Definition new_file_handle (result : option string) : M unit :=
  if truthy result then
    cur <- gets current_dir ;;
    let target := PathOps.joinpath cur (text_of result) in
    try_except
      (Path_touch target ;;
       refresh_table ;;
       set_status ("✔  Created file: " ++ text_of result))
      [([FileExistsError],
         fun _ => set_status ("⚠  File already exists: " ++ text_of result));
       ([Exception], fun e => set_status ("⚠  Error: " ++ exn_text e))]
  else ret tt.

Definition action_new_file : M Pending :=
  ret (PushInput "New File Name:" "" "" new_file_handle).

Definition new_dir_handle (result : option string) : M unit :=
  if truthy result then
    cur <- gets current_dir ;;
    let target := PathOps.joinpath cur (text_of result) in
    try_except
      (Path_mkdir target ;;
       refresh_table ;;
       set_status ("✔  Created directory: " ++ text_of result))
      [([FileExistsError],
         fun _ => set_status ("⚠  Directory already exists: " ++ text_of result));
       ([Exception], fun e => set_status ("⚠  Error: " ++ exn_text e))]
  else ret tt.

Definition action_new_dir : M Pending :=
  ret (PushInput "New Directory Name:" "" "" new_dir_handle).

Definition rename_handle (entry : Path) (result : option string) : M unit :=
  if truthy result && negb (String.eqb (text_of result) (PathOps.name entry)) then
    cur <- gets current_dir ;;
    let target := PathOps.joinpath cur (text_of result) in
    try_except
      (Path_rename entry target ;;
       refresh_table ;;
       set_status ("✔  Renamed to: " ++ text_of result))
      [([Exception], fun e => set_status ("⚠  Error: " ++ exn_text e))]
  else ret tt.

Definition action_rename : M Pending :=
  entry <- gets selected_entry ;;
  match entry with
  | None => set_status "⚠  No item selected." ;; ret NoScreen
  | Some e => ret (PushInput "Rename to:" "" (PathOps.name e) (rename_handle e))
  end.

Definition delete_handle (entry : Path) (confirmed : bool) : M unit :=
  if confirmed then
    try_except
      (d <- Path_is_dir entry ;;
       (if d then shutil_rmtree entry else Path_unlink entry) ;;
       refresh_table ;;
       set_status ("✔  Deleted: " ++ PathOps.name entry))
      [([Exception], fun e => set_status ("⚠  Error: " ++ exn_text e))]
  else ret tt.

Definition newline : string := String (ascii_of_nat 10) EmptyString.

Definition action_delete : M Pending :=
  entry <- gets selected_entry ;;
  match entry with
  | None => set_status "⚠  No item selected." ;; ret NoScreen
  | Some e =>
      ret (PushConfirm
             ("Delete '" ++ PathOps.name e ++ "'?" ++ newline ++ "This cannot be undone.")
             (delete_handle e))
  end.

Definition action_copy_item : M Pending :=
  entry <- gets selected_entry ;;
  match entry with
  | None => set_status "⚠  No item selected." ;; ret NoScreen
  | Some e => set_clipboard (Some e) ;; set_clipboard_op "copy" ;; ret NoScreen
  end.

Definition action_paste_item : M Pending :=
  clip <- gets clipboard ;;
  match clip with
  | None => set_status "⚠  Clipboard is empty. Use [C] to copy first." ;; ret NoScreen
  | Some src =>
      cur <- gets current_dir ;;
      let dst := PathOps.joinpath cur (PathOps.name src) in
      if PathOps.eqb dst src then
        set_status "⚠  Source and destination are the same." ;; ret NoScreen
      else
        try_except
          (cop <- gets clipboard_op ;;
           (if String.eqb cop "cut" then
              shutil_move (PathOps.str src) (PathOps.str dst) ;;
              set_clipboard None ;;
              set_status ("✔  Moved: " ++ PathOps.name src)
            else
              d <- Path_is_dir src ;;
              (if d then shutil_copytree (PathOps.str src) (PathOps.str dst)
               else shutil_copy2 (PathOps.str src) (PathOps.str dst)) ;;
              set_status ("✔  Copied: " ++ PathOps.name src)) ;;
           refresh_table)
          [([Exception], fun e => set_status ("⚠  Error: " ++ exn_text e))] ;;
        ret NoScreen
  end.

Definition action_file_info : M Pending :=
  entry <- gets selected_entry ;;
  match entry with
  | None => set_status "⚠  No item selected." ;; ret NoScreen
  | Some e => ret (PushInfo e)
  end.

Definition edit_handle (result : option string) : M unit :=
  if truthy result then set_status (text_of result) ;; refresh_table
  else ret tt.

Definition action_edit_file : M Pending :=
  entry <- gets selected_entry ;;
  match entry with
  | None => set_status "⚠  No item selected." ;; ret NoScreen
  | Some e =>
      d <- Path_is_dir e ;;
      if d then set_status "⚠  Cannot edit a directory." ;; ret NoScreen
      else ret (PushEdit e edit_handle)
  end.

(* ================================================================= *)
(** ** Running a command: the action, then the user's reply to the modal
    it pushed *)

Inductive Reply : Type :=
| ReplyInput (g : InputGesture)
| ReplyConfirm (yes : bool)
| ReplyEdit (g : EditGesture)
| ReplyClose.

Definition respond (pending : Pending) (r : Reply) : M unit :=
  match pending, r with
  | PushInput _ _ _ handle, ReplyInput g => handle (InputModal_dismiss g)
  | PushConfirm _ handle, ReplyConfirm yes => handle yes
  | PushEdit path handle, ReplyEdit g => res <- EditModal_dismiss path g ;; handle res
  | _, _ => ret tt
  end.

Definition command (action : M Pending) (r : Reply) : M unit :=
  pending <- action ;; respond pending r.
(** Key bindings (source lines 413-427, [quit] apart). *)
Inductive Binding : Type :=
| new_file | new_dir | rename | delete | copy_item | paste_item | edit_file
| file_info | toggle_hidden | refresh | goto | go_up.

Definition action_of (b : Binding) : M Pending :=
  match b with
  | new_file => action_new_file
  | new_dir => action_new_dir
  | rename => action_rename
  | delete => action_delete
  | copy_item => action_copy_item
  | paste_item => action_paste_item
  | edit_file => action_edit_file
  | file_info => action_file_info
  | toggle_hidden => action_toggle_hidden
  | refresh => action_refresh
  | goto => action_goto
  | go_up => action_go_up
  end.

(** What reaches the application: a key with the reply to its modal, a
    click in the directory tree, Enter on a table row, a cursor move. *)
Inductive Event : Type :=
| Key (b : Binding) (r : Reply)
| TreeSelect (p : Path)
| RowSelect
| CursorTo (i : nat).

(** The table keeps its cursor on an existing row. *)
Definition move_cursor (i : nat) : M unit :=
  modify (fun s => with_table (table s) (Z.of_nat (Nat.min i (List.length (table s) - 1))) s).

Definition dispatch (ev : Event) : M unit :=
  match ev with
  | Key b r => command (action_of b) r
  | TreeSelect p => on_dir_selected p
  | RowSelect => on_row_selected
  | CursorTo i => move_cursor i
  end.

(** Events are handled one at a time; an exception that leaves a handler
    ends the run. *)
Fixpoint run (evs : list Event) : M unit :=
  match evs with
  | [] => ret tt
  | ev :: rest => dispatch ev ;; run rest
  end.

(* ================================================================= *)
(** ** The listing as a function of the host

    These definitions restate, without the state and the log, what
    [refresh_table] computes; [refresh_table_run] below proves that the
    code computes exactly this. *)

(** The key of an entry, or what [is_dir] raises. *)
Definition key_of (f : FS) (p : Path) : exn + bool * string :=
  match fs_is_dir f p with
  | inl e => inl e
  | inr d => inr (negb d, str_lower (PathOps.name p))
  end.

(** The keys of the entries in order, or what the first failing one
    raises. *)
Fixpoint keys_of (f : FS) (it : list Path) : exn + list (bool * string) :=
  match it with
  | [] => inr []
  | p :: rest =>
      match key_of f p with
      | inl e => inl e
      | inr k => match keys_of f rest with
                 | inl e => inl e
                 | inr ks => inr (k :: ks)
                 end
      end
  end.

Definition sorted_entries (f : FS) (it : list Path) : exn + list Path :=
  match keys_of f it with
  | inl e => inl e
  | inr keys => inr (map snd (sort_keyed key_lt (combine keys it)))
  end.

(** What the [try] of lines 478-482 yields: the sorted entries of the
    directory, or the exception of [iterdir] or of the first key. *)
Definition listed (f : FS) (dir : Path) : exn + list Path :=
  match fs_iterdir f dir with
  | inl e => inl e
  | inr it => sorted_entries f it
  end.

(** Two entries whose keys were computed, the first not after the
    second. *)
Definition in_order (f : FS) (a b : Path) : Prop :=
  exists ka kb, key_of f a = inr ka /\ key_of f b = inr kb /\ key_le ka kb = true.

(** [is_dir] answers for [p]. *)
Definition is_dir_answers (f : FS) (p : Path) : bool :=
  match fs_is_dir f p with inr _ => true | inl _ => false end.

Definition is_hidden (p : Path) : bool := Str.startswith (PathOps.name p) ".".

Definition visible (hidden_shown : bool) (p : Path) : bool :=
  negb (negb hidden_shown && is_hidden p).

(** The clause [except (OSError, PermissionError)] of line 495. *)
Definition unknown_size (e : exn) : exn + string :=
  if is_os_error (exn_cls e) then inr "?" else inl e.

Definition size_of (f : FS) (entry : Path) : exn + string :=
  match fs_is_dir f entry with
  | inl e => unknown_size e
  | inr true => inr "-"
  | inr false =>
      match fs_exists f entry with
      | inl e => unknown_size e
      | inr true =>
          match fs_stat f entry with
          | inr st => inr (human_size (st_size st))
          | inl e => unknown_size e
          end
      | inr false => inr "?"
      end
  end.

Definition modified_of (f : FS) (entry : Path) : string :=
  match fs_stat f entry with
  | inr st => match strftime_minutes (st_mtime st) with
              | inr text => text
              | inl _ => "-"
              end
  | inl _ => "-"
  end.

Definition perms_of (f : FS) (entry : Path) : string :=
  match fs_stat f entry with
  | inr st => stat_filemode (st_mode st)
  | inl _ => "----------"
  end.

Definition icon_of (f : FS) (entry : Path) : exn + string :=
  match fs_is_dir f entry with
  | inl e => inl e
  | inr d => inr (if d then "📁" else _file_icon entry)
  end.

Definition row_of (f : FS) (entry : Path) : exn + Row :=
  match icon_of f entry with
  | inl e => inl e
  | inr icon =>
      match size_of f entry with
      | inr size => inr (mkRow icon (PathOps.name entry) size
                               (modified_of f entry) (perms_of f entry))
      | inl e => inl e
      end
  end.

(** The row of an entry when building it raises nothing. *)
Definition row_or_blank (f : FS) (p : Path) : Row :=
  match row_of f p with
  | inr row => row
  | inl _ => mkRow "" "" "" "" ""
  end.

(** The rows of the entries up to the first one whose row raises. *)
Fixpoint rows_of (f : FS) (entries : list Path) : list (Path * Row) * option exn :=
  match entries with
  | [] => ([], None)
  | entry :: rest =>
      match row_of f entry with
      | inl e => ([], Some e)
      | inr row => let (l, o) := rows_of f rest in ((entry, row) :: l, o)
      end
  end.

(** Calls that change the host. *)
Definition is_mutation (c : FsCall) : bool :=
  match c with
  | Call_iterdir _ | Call_is_dir _ | Call_exists _ | Call_stat _ => false
  | _ => true
  end.

Definition event_call (ev : FsEvent) : FsCall :=
  match ev with Returned c => c | Failed c _ => c end.

Definition read_only (ev : FsEvent) : Prop := is_mutation (event_call ev) = false.

(** The events a command appended to the log. *)
Definition new_events (s s' : App) : list FsEvent := skipn (List.length (log s)) (log s').

(** The state [refresh_table] leaves: only the table, the cursor, the
    row entries, the status and the log differ from [s]. *)
Definition refreshed (s : App) (rows : list Row) (entries : option (list Path))
    (msg : string) (l : list FsEvent) : App :=
  mkApp (fs s) l (current_dir s) (show_hidden s) (clipboard s) (clipboard_op s)
        (path_bar s) (tree_path s) rows 0%Z entries msg.

Definition items_status (s : App) (count : nat) : string :=
  Str.of_nat count ++ " items in " ++ PathOps.str (current_dir s)
  ++ (if show_hidden s then "" else "  (hidden files excluded)").

(** A mutating call of the command failed. *)
Definition mutation_failed (s s' : App) : Prop :=
  exists c e, In (Failed c e) (new_events s s') /\ is_mutation c = true.

(** A mutating call of the command returned. *)
Definition mutation_returned (s s' : App) : Prop :=
  exists c, In (Returned c) (new_events s s') /\ is_mutation c = true.

(** Everything the user sees or navigates by, the status line apart. *)
Definition same_view (s s' : App) : Prop :=
  current_dir s' = current_dir s /\ show_hidden s' = show_hidden s
  /\ clipboard s' = clipboard s /\ clipboard_op s' = clipboard_op s
  /\ path_bar s' = path_bar s /\ tree_path s' = tree_path s
  /\ table s' = table s /\ cursor_row s' = cursor_row s
  /\ _row_entries s' = _row_entries s.

(** What no refresh touches. *)
Definition kept (s s' : App) : Prop :=
  fs s' = fs s /\ current_dir s' = current_dir s /\ show_hidden s' = show_hidden s
  /\ clipboard s' = clipboard s /\ clipboard_op s' = clipboard_op s
  /\ path_bar s' = path_bar s /\ tree_path s' = tree_path s.

(** The commands that change the host, each from the point where its
    modal (if any) has been answered. *)
Inductive MutatingCommand : Type :=
| NewFile (result : option string)
| NewDir (result : option string)
| Rename (entry : Path) (result : option string)
| Delete (entry : Path) (confirmed : bool)
| Paste.

Definition mutating (c : MutatingCommand) : M unit :=
  match c with
  | NewFile result => new_file_handle result
  | NewDir result => new_dir_handle result
  | Rename entry result => rename_handle entry result
  | Delete entry confirmed => delete_handle entry confirmed
  | Paste => action_paste_item ;; ret tt
  end.

(** Calls whose failure is more than a placeholder in a row. *)
Definition fatal_call (c : FsCall) : bool :=
  match c with
  | Call_stat _ => false
  | _ => true
  end.

(** "A command whose file-system call fails leaves the navigation state,
    the clipboard and the listing as they were", for one command and one
    state. *)
Definition all_or_nothing (m : M unit) (s : App) : Prop :=
  (exists c e, In (Failed c e) (new_events s (final m s)) /\ fatal_call c = true) ->
  current_dir (final m s) = current_dir s
  /\ show_hidden (final m s) = show_hidden s
  /\ clipboard (final m s) = clipboard s
  /\ clipboard_op (final m s) = clipboard_op s
  /\ table (final m s) = table s.


(** "An enumeration failure gives an empty listing and a warning, and no
    exception leaves the listing builder", for one state. *)
Definition enumeration_failure_contained (s : App) : Prop :=
  forall e, fs_iterdir (fs s) (current_dir s) = inl e ->
    raised refresh_table s = None
    /\ table (final refresh_table s) = []
    /\ Str.startswith (status (final refresh_table s)) "⚠" = true.

(** [n] paste commands in a row. *)
Fixpoint pastes (n : nat) : M unit :=
  match n with
  | 0 => ret tt
  | S k => action_paste_item ;; pastes k
  end.
End Model.

Arguments App FS : clear implicits.
Arguments M FS A : clear implicits.

(* ================================================================= *)
(** ** A small host: an instance of the interface to run the model on *)

Module Disk.

(** A file, a directory with all permissions ([Dir true]) or with none
    ([Dir false]), or a directory that can be listed but not searched
    ([ListOnly], mode [r--]). *)
Inductive Node : Type :=
| File (size : Z)
| Dir (readable : bool)
| ListOnly.

(** The entries of the host in creation order. *)
Definition t : Type := list (Path * Node).

Fixpoint lookup (d : t) (p : Path) : option Node :=
  match d with
  | [] => None
  | (q, n) :: rest => if PathOps.eqb q p then Some n else lookup rest p
  end.

Definition is_child (dir q : Path) : bool :=
  match parts q with
  | [] => false
  | _ => PathOps.eqb (PathOps.parent q) dir
  end.

Fixpoint is_prefix (a q : list string) : option (list string) :=
  match a, q with
  | [], rest => Some rest
  | x :: a', y :: q' => if String.eqb x y then is_prefix a' q' else None
  | _ :: _, [] => None
  end.

(** [q] is [a] or lies below it. *)
Definition below (a q : Path) : bool :=
  Bool.eqb (anchored a) (anchored q)
  && match is_prefix (parts a) (parts q) with Some _ => true | None => false end.

(** Replace the prefix [a] of [q] by [b]. *)
Definition reprefix (a b q : Path) : Path :=
  match is_prefix (parts a) (parts q) with
  | Some rest => mkPath (anchored b) (parts b ++ rest)
  | None => q
  end.

Definition remove_tree (d : t) (p : Path) : t :=
  filter (fun e => negb (below p (fst e))) d.

Definition copy_tree (d : t) (a b : Path) : t :=
  map (fun e => (reprefix a b (fst e), snd e)) (filter (fun e => below a (fst e)) d).

Definition err {A} (c : exn_class) (text : string) : exn + A := inl (Exn c text).

Definition has_dir (d : t) (p : Path) : bool :=
  match lookup d p with Some (Dir _) | Some ListOnly => true | _ => false end.

Definition has (d : t) (p : Path) : bool :=
  match lookup d p with Some _ => true | None => false end.

(** [p] lies strictly below a directory that cannot be searched: the
    host refuses to look at it. *)
Definition blocked (d : t) (p : Path) : bool :=
  existsb (fun e => match snd e with
                    | Dir false | ListOnly =>
                        below (fst e) p && negb (PathOps.eqb (fst e) p)
                    | _ => false
                    end) d.

Definition denied {A} : exn + A := err PermissionError "[Errno 13] Permission denied".

Definition is_dir (d : t) (p : Path) : exn + bool :=
  if blocked d p then denied else inr (has_dir d p).

Definition exists_ (d : t) (p : Path) : exn + bool :=
  if blocked d p then denied else inr (has d p).

Definition iterdir (d : t) (p : Path) : exn + list Path :=
  if blocked d p then denied
  else match lookup d p with
       | None => err FileNotFoundError "[Errno 2] No such file or directory"
       | Some (File _) => err NotADirectoryError "[Errno 20] Not a directory"
       | Some (Dir false) => denied
       | Some (Dir true) | Some ListOnly =>
           inr (map fst (filter (fun e => is_child p (fst e)) d))
       end.

Definition stat (d : t) (p : Path) : exn + stat_result :=
  if blocked d p then denied
  else match lookup d p with
       | None => err FileNotFoundError "[Errno 2] No such file or directory"
       | Some (File size) => inr (mkStat size 33188 0)
       | Some (Dir _) => inr (mkStat 4096 16877 0)
       | Some ListOnly => inr (mkStat 4096 16676 0)
       end.

(** A refused write: the host stays as it is. *)
Definition refuse (d : t) (c : exn_class) (text : string) : exn * t + t :=
  inl (Exn c text, d).

Definition create (n : Node) (d : t) (p : Path) : exn * t + t :=
  if has d p then refuse d FileExistsError "[Errno 17] File exists"
  else if has_dir d (PathOps.parent p) then inr (d ++ [(p, n)])
  else refuse d FileNotFoundError "[Errno 2] No such file or directory".

Definition rename (d : t) (a b : Path) : exn * t + t :=
  if has d a then
    if has_dir d (PathOps.parent b)
    then inr (map (fun e => (reprefix a b (fst e), snd e)) (remove_tree d b))
    else refuse d FileNotFoundError "[Errno 2] No such file or directory"
  else refuse d FileNotFoundError "[Errno 2] No such file or directory".

Definition unlink (d : t) (p : Path) : exn * t + t :=
  match lookup d p with
  | None => refuse d FileNotFoundError "[Errno 2] No such file or directory"
  | Some (Dir _) | Some ListOnly => refuse d IsADirectoryError "[Errno 21] Is a directory"
  | Some (File _) => inr (remove_tree d p)
  end.

Definition rmtree (d : t) (p : Path) : exn * t + t :=
  if has d p then inr (remove_tree d p)
  else refuse d FileNotFoundError "[Errno 2] No such file or directory".

(** [shutil.move] and [shutil.copy2] place the source inside an existing
    destination directory. *)
Definition into (d : t) (src dst : Path) : Path :=
  if has_dir d dst then PathOps.joinpath dst (PathOps.name src) else dst.

Definition move (d : t) (src dst : string) : exn * t + t :=
  let a := PathOps.of_str src in
  let b := into d a (PathOps.of_str dst) in
  if negb (has d a) then refuse d FileNotFoundError "[Errno 2] No such file or directory"
  else if has_dir d (PathOps.of_str dst) && has d b
       then refuse d ShutilError "Destination path already exists"
  else if below a b then refuse d ShutilError "Cannot move a directory into itself"
  else rename d a b.

Definition copytree (d : t) (src dst : string) : exn * t + t :=
  let a := PathOps.of_str src in
  let b := PathOps.of_str dst in
  if has d b then refuse d FileExistsError "[Errno 17] File exists"
  else if has_dir d a then inr (d ++ copy_tree d a b)
  else refuse d NotADirectoryError "[Errno 20] Not a directory".

Definition copy2 (d : t) (src dst : string) : exn * t + t :=
  let a := PathOps.of_str src in
  let b := into d a (PathOps.of_str dst) in
  match lookup d a with
  | Some (File size) =>
      if has_dir d (PathOps.parent b)
      then inr (remove_tree d b ++ [(b, File size)])
      else refuse d FileNotFoundError "[Errno 2] No such file or directory"
  | Some (Dir _) | Some ListOnly => refuse d IsADirectoryError "[Errno 21] Is a directory"
  | None => refuse d FileNotFoundError "[Errno 2] No such file or directory"
  end.

Definition write_text (d : t) (p : Path) (content : string) : exn * t + t :=
  match lookup d p with
  | Some (Dir _) | Some ListOnly => refuse d IsADirectoryError "[Errno 21] Is a directory"
  | _ => if has_dir d (PathOps.parent p)
         then inr (remove_tree d p ++ [(p, File (Z.of_nat (String.length content)))])
         else refuse d FileNotFoundError "[Errno 2] No such file or directory"
  end.

Definition expanduser (first : string) : string :=
  if String.eqb first "~" then "/home/u" else first.

Definition filemode (mode : Z) : string :=
  if (mode =? 16877)%Z then "drwxr-xr-x" else "-rw-r--r--".

#[export] Instance host : FileSystem t := {
  fs_iterdir := iterdir;
  fs_is_dir := is_dir;
  fs_exists := exists_;
  fs_stat := stat;
  fs_touch := create (File 0);
  fs_mkdir := create (Dir true);
  fs_rename := rename;
  fs_unlink := unlink;
  fs_rmtree := rmtree;
  fs_move := move;
  fs_copytree := copytree;
  fs_copy2 := copy2;
  fs_write_text := write_text;
  os_path_expanduser := expanduser;
  stat_filemode := filemode;
  strftime_minutes := fun _ => inr "1970-01-01 00:00";
  str_lower := Str.ascii_lower;
  str_lower_ascii := fun s _ => eq_refl
}.

Definition abs (components : list string) : Path := mkPath true components.

(** [/], [/home], [/home/u] holding [a.txt], [.hidden], [Docs/] and
    [b.md], a directory [/locked] without permissions (it cannot be
    listed, and nothing below it can be looked at) and a directory
    [/veiled] that can be listed but not searched, holding [inner/]. *)
Definition sample : t :=
  [ (abs [], Dir true);
    (abs ["home"], Dir true);
    (abs ["home"; "u"], Dir true);
    (abs ["home"; "u"; "b.md"], File 1536);
    (abs ["home"; "u"; ".hidden"], File 3);
    (abs ["home"; "u"; "a.txt"], File 12);
    (abs ["home"; "u"; "Docs"], Dir true);
    (abs ["home"; "u"; "Docs"; "notes.txt"], File 40);
    (abs ["locked"], Dir false);
    (abs ["veiled"], ListOnly);
    (abs ["veiled"; "inner"], Dir true) ].

(** The application in [dir]: nothing listed yet, nothing copied. *)
Definition start (d : t) (dir : Path) : App t :=
  mkApp d [] dir false None "copy" "" "" [] 0%Z None "".

Definition home : Path := abs ["home"; "u"].

(** In [/home/u] with the listing on screen. *)
Definition in_home : App t := final (run [Key refresh ReplyClose]) (start sample home).

(** From there, go-to-path [/locked]. *)
Definition in_locked : App t :=
  final (run [Key goto (ReplyInput (PressOk "/locked"))]) in_home.

(** From [in_home]: delete the directory [Docs] (first row), then click
    its stale node in the directory tree. *)
Definition stale_tree_click : list Event :=
  [ CursorTo 0; Key delete (ReplyConfirm true);
    TreeSelect (abs ["home"; "u"; "Docs"]) ].

(** The state in which that click reaches [refresh_table]: [Docs] is
    deleted and has just been made the current directory. *)
Definition docs_gone : App t :=
  with_current_dir (abs ["home"; "u"; "Docs"])
    (final (run [CursorTo 0; Key delete (ReplyConfirm true)]) in_home).

Definition a_txt : Path := abs ["home"; "u"; "a.txt"].

(** What listing a missing directory raises. *)
Definition not_found : exn := Exn FileNotFoundError "[Errno 2] No such file or directory".

(** From [in_home]: the cursor on [a.txt] (second row). *)
Definition on_a_txt : App t := final (run [CursorTo 1]) in_home.

(** From there: [a.txt] copied, still in [/home/u]. *)
Definition copied_here : App t := final (run [Key copy_item ReplyClose]) on_a_txt.

(** From there: [Docs] (first row) entered. *)
Definition in_docs : App t := final (run [CursorTo 0; RowSelect]) copied_here.

(** From there: a directory named [a.txt] made in [Docs]. *)
Definition name_taken : App t :=
  final (run [Key new_dir (ReplyInput (PressOk "a.txt"))]) in_docs.

(** The application in [/veiled], nothing listed yet. *)
Definition in_veiled : App t := start sample (abs ["veiled"]).

(** What looking below [/locked] or [/veiled] raises. *)
Definition permission_denied : exn := Exn PermissionError "[Errno 13] Permission denied".

(** [p] is on the host [after] and was not on [before]. *)
Definition created (before after : t) (p : Path) : Prop :=
  In p (map fst after) /\ ~ In p (map fst before).

(** "Paste never renames the pasted entry and never places it anywhere
    other than the current directory", for one state of the sample
    host: whatever the paste creates is an entry of the current
    directory with the source's name, or lies below another path the
    paste creates. *)
Definition paste_stays_in_current_dir (s : App t) : Prop :=
  forall src p,
    clipboard s = Some src ->
    created (fs s) (fs (final action_paste_item s)) p ->
    (PathOps.parent p = current_dir s /\ PathOps.name p = PathOps.name src)
    \/ exists q, created (fs s) (fs (final action_paste_item s)) q
                 /\ q <> p /\ below q p = true.

End Disk.

(* ================================================================= *)
(** ** What a computation does to the host and to the log *)

(** A path whose components are all plain names. *)
Definition well_formed (p : Path) : Prop := Forall PathOps.plain_name (parts p).

Section Effects.

Context {FS : Type} `{FileSystem FS}.

(** [m] leaves the host as it found it and makes read-only calls only. *)
Definition quiet {A} (m : M FS A) : Prop :=
  forall s, fs (snd (m s)) = fs s
            /\ exists evs, log (snd (m s)) = log s ++ evs /\ Forall read_only evs.

(** From [s], [m] makes exactly one writing call, [c], among reads. *)
Definition writes_once {A} (c : FsCall) (m : M FS A) (s : App FS) : Prop :=
  exists before ev after,
    log (snd (m s)) = log s ++ before ++ ev :: after
    /\ Forall read_only before /\ event_call ev = c /\ Forall read_only after.

(** The units of [human_size] below the last. *)
Definition size_units : list string := ["B"; "KB"; "MB"; "GB"; "TB"].

(** The events that can reach a writing call: paste, a text command
    answered with a non-empty text, a confirmed delete, a save in the
    editor. *)
Definition may_write (ev : Event) : bool :=
  match ev with
  | Key paste_item _ => true
  | Key new_file (ReplyInput g) | Key new_dir (ReplyInput g)
  | Key rename (ReplyInput g) => truthy (InputModal_dismiss g)
  | Key delete (ReplyConfirm yes) => yes
  | Key edit_file (ReplyEdit (EditSave _)) => true
  | _ => false
  end.

(** [m] returns, whatever the state: no exception leaves it. *)
Definition returns {A} (m : M FS A) : Prop := forall s, exists a, fst (m s) = Val a.

(** [m] keeps the property [I] of the state. *)
Definition preserves {A} (I : App FS -> Prop) (m : M FS A) : Prop :=
  forall s, I s -> I (snd (m s)).

(** The table shows, row for row, the names of the first row entries
    (all of them after a listing that was built, none after one that was
    refused). *)
Definition aligned (s : App FS) : Prop :=
  match _row_entries s with
  | Some entries =>
      map row_name (table s)
      = map PathOps.name (firstn (List.length (table s)) entries)
  | None => table s = []
  end.

(** The cursor is on a row of the table (on row 0 of an empty one). *)
Definition cursor_in_table (s : App FS) : Prop :=
  (0 <= cursor_row s)%Z
  /\ Z.to_nat (cursor_row s) < Nat.max 1 (List.length (table s)).

(** The event is not a call of [shutil.move]. *)
Definition no_move (ev : FsEvent) : Prop :=
  match event_call ev with
  | Call_move _ _ => False
  | _ => True
  end.

(** The action pushes no modal that calls back. *)
Definition pushes_no_callback (action : M FS (Pending (FS := FS))) : Prop :=
  forall s, match fst (action s) with
            | Val (PushInput _ _ _ _) | Val (PushConfirm _ _) | Val (PushEdit _ _) => False
            | _ => True
            end.

(** The success messages start with a check mark. *)
Definition is_success_status (msg : string) : bool := Str.startswith msg "✔".

End Effects.


(* ================================================================= *)
(** * The order of strings and keys *)

Lemma ascii_compare_refl (a : ascii) : Ascii.compare a a = Eq.
Proof. unfold Ascii.compare. apply N.compare_refl. Qed.

Lemma ascii_compare_lt_trans (a b c : ascii) :
  Ascii.compare a b = Lt -> Ascii.compare b c = Lt -> Ascii.compare a c = Lt.
Proof. unfold Ascii.compare. rewrite !N.compare_lt_iff. lia. Qed.

Lemma string_compare_refl (s : string) : String.compare s s = Eq.
Proof. induction s as [| c s IH]; simpl; [| rewrite ascii_compare_refl]; auto. Qed.

Lemma string_compare_lt_trans (a : string) :
  forall b c, String.compare a b = Lt -> String.compare b c = Lt ->
              String.compare a c = Lt.
Proof.
  induction a as [| x a IH]; intros [| y b] [| z c]; simpl; try discriminate; auto.
  destruct (Ascii.compare x y) eqn:Exy; try discriminate;
    destruct (Ascii.compare y z) eqn:Eyz; try discriminate; intros Hab Hbc.
  - apply Ascii.compare_eq_iff in Exy, Eyz. subst.
    rewrite ascii_compare_refl. eauto.
  - apply Ascii.compare_eq_iff in Exy. subst. rewrite Eyz. reflexivity.
  - apply Ascii.compare_eq_iff in Eyz. subst. rewrite Exy. reflexivity.
  - rewrite (ascii_compare_lt_trans _ _ _ Exy Eyz). reflexivity.
Qed.

Lemma string_leb_trans (a b c : string) :
  String.leb a b = true -> String.leb b c = true -> String.leb a c = true.
Proof.
  unfold String.leb.
  destruct (String.compare a b) eqn:Eab; try discriminate;
    destruct (String.compare b c) eqn:Ebc; try discriminate; intros _ _.
  - apply String.compare_eq_iff in Eab, Ebc. subst.
    rewrite string_compare_refl. reflexivity.
  - apply String.compare_eq_iff in Eab. subst. rewrite Ebc. reflexivity.
  - apply String.compare_eq_iff in Ebc. subst. rewrite Eab. reflexivity.
  - rewrite (string_compare_lt_trans _ _ _ Eab Ebc). reflexivity.
Qed.

Lemma string_ltb_leb (a b : string) : negb (String.ltb b a) = String.leb a b.
Proof.
  unfold String.ltb, String.leb. rewrite (String.compare_antisym a b).
  destruct (String.compare b a); reflexivity.
Qed.

(** [key_le] spelled out: a directory before a file, or the same kind
    and the lower-cased names in order. *)
Lemma key_le_spec (d1 d2 : bool) (n1 n2 : string) :
  key_le (d1, n1) (d2, n2) = true <->
  (d1 = false /\ d2 = true) \/ (d1 = d2 /\ String.leb n1 n2 = true).
Proof.
  unfold key_le, key_lt; simpl.
  destruct d1, d2; simpl; rewrite ?string_ltb_leb; intuition congruence.
Qed.

Lemma key_le_trans (a b c : bool * string) :
  key_le a b = true -> key_le b c = true -> key_le a c = true.
Proof.
  destruct a as [d1 n1], b as [d2 n2], c as [d3 n3].
  rewrite !key_le_spec. intros [[? ?] | [? ?]] [[? ?] | [? ?]]; subst;
    try discriminate; auto.
  right. split; [reflexivity | eapply string_leb_trans; eassumption].
Qed.

Lemma key_lt_le (a b : bool * string) : key_lt a b = true -> key_le a b = true.
Proof.
  destruct a as [d1 n1], b as [d2 n2]. rewrite key_le_spec.
  unfold key_lt; simpl. destruct d1, d2; simpl; try discriminate; auto.
  - intros Hlt. right. split; [reflexivity |].
    rewrite <- string_ltb_leb. unfold String.ltb in *.
    rewrite String.compare_antisym. destruct (String.compare n1 n2); simpl; congruence.
  - intros Hlt. right. split; [reflexivity |].
    rewrite <- string_ltb_leb. unfold String.ltb in *.
    rewrite String.compare_antisym. destruct (String.compare n1 n2); simpl; congruence.
Qed.

(* ================================================================= *)
(** * Stripping *)

Lemma string_append_assoc (a b c : string) : ((a ++ b) ++ c = a ++ b ++ c)%string.
Proof. induction a as [| x a IH]; simpl; congruence. Qed.

Lemma string_append_nil (a : string) : (a ++ "")%string = a.
Proof. induction a as [| x a IH]; simpl; congruence. Qed.

Lemma string_length_app (a b : string) :
  String.length (a ++ b) = String.length a + String.length b.
Proof. induction a as [| x a IH]; simpl; congruence. Qed.

Lemma string_length_ind (P : string -> Prop) :
  (forall s, (forall r, String.length r < String.length s -> P r) -> P s) ->
  forall s, P s.
Proof.
  intros Hstep s. remember (String.length s) as n eqn:Hn. revert s Hn.
  induction n as [n IH] using lt_wf_ind. intros s ->.
  apply Hstep. intros r Hr. apply (IH (String.length r) Hr r eq_refl).
Qed.

(** The white-space character a string starts with, split off. *)
Lemma after_space_split (s r : string) :
  Str.after_space s = Some r -> exists w, Str.space_char w /\ s = (w ++ r)%string.
Proof.
  unfold Str.space_char. destruct s as [| a s]; [discriminate |].
  cbn [Str.after_space]. destruct (Str.space1 a) eqn:E1.
  { intros [= <-]. exists (String a ""). cbn [Str.after_space]. rewrite E1. auto. }
  destruct s as [| b s]; [discriminate |]. destruct (Str.space2 a b) eqn:E2.
  { intros [= <-]. exists (String a (String b "")). cbn [Str.after_space].
    rewrite E1, E2. auto. }
  destruct s as [| c s]; [discriminate |]. destruct (Str.space3 a b c) eqn:E3;
    [| discriminate].
  intros [= <-]. exists (String a (String b (String c ""))). cbn [Str.after_space].
  rewrite E1, E2, E3. auto.
Qed.

Lemma after_space_app (s r t : string) :
  Str.after_space s = Some r -> Str.after_space (s ++ t) = Some (r ++ t)%string.
Proof.
  destruct s as [| a s]; [discriminate |].
  cbn [Str.after_space String.append]. destruct (Str.space1 a).
  { intros [= <-]. reflexivity. }
  destruct s as [| b s]; [discriminate |]. cbn [String.append].
  destruct (Str.space2 a b). { intros [= <-]. reflexivity. }
  destruct s as [| c s]; [discriminate |]. cbn [String.append].
  destruct (Str.space3 a b c); [intros [= <-]; reflexivity | discriminate].
Qed.

Lemma space_char_nonempty (w : string) : Str.space_char w -> 0 < String.length w.
Proof. destruct w; [discriminate | simpl; lia]. Qed.

Lemma after_space_shorter (s r : string) :
  Str.after_space s = Some r -> String.length r < String.length s.
Proof.
  intros E. destruct (@after_space_split _ _ E) as (w & Hw & ->).
  rewrite string_length_app. pose proof (@space_char_nonempty w Hw). lia.
Qed.

Lemma lstrip_step (s : string) :
  Str.lstrip s = match Str.after_space s with
                 | Some r => Str.lstrip r
                 | None => s
                 end.
Proof.
  destruct s as [| a s]; [reflexivity |].
  cbn [Str.lstrip Str.after_space]. destruct (Str.space1 a); [reflexivity |].
  destruct s as [| b s]; [reflexivity |]. destruct (Str.space2 a b); [reflexivity |].
  destruct s as [| c s]; [reflexivity |]. destruct (Str.space3 a b c); reflexivity.
Qed.

Lemma all_space_step (s : string) :
  Str.all_space s = match s with
                    | EmptyString => true
                    | _ => match Str.after_space s with
                           | Some r => Str.all_space r
                           | None => false
                           end
                    end.
Proof.
  destruct s as [| a s]; [reflexivity |].
  cbn [Str.all_space Str.after_space]. destruct (Str.space1 a); [reflexivity |].
  destruct s as [| b s]; [reflexivity |]. destruct (Str.space2 a b); [reflexivity |].
  destruct s as [| c s]; [reflexivity |]. destruct (Str.space3 a b c); reflexivity.
Qed.

Lemma all_space_after_char (w t : string) :
  Str.space_char w -> Str.all_space (w ++ t) = Str.all_space t.
Proof.
  intros Hw. rewrite all_space_step.
  rewrite (@after_space_app _ _ t Hw). destruct w; [discriminate | reflexivity].
Qed.

(** What [lstrip] takes off is white space, and what it leaves does not
    start with any. *)
Lemma lstrip_spec (s : string) :
  exists pre, s = (pre ++ Str.lstrip s)%string
              /\ Str.all_space pre = true /\ Str.starts_clean (Str.lstrip s).
Proof.
  induction s as [s IH] using string_length_ind.
  rewrite lstrip_step. destruct (Str.after_space s) as [r |] eqn:E.
  - destruct (IH r (@after_space_shorter _ _ E)) as (pre & Hr & Hpre & Hclean).
    destruct (@after_space_split _ _ E) as (w & Hw & Hs).
    exists (w ++ pre)%string. split; [| split; [| exact Hclean]].
    + rewrite string_append_assoc, <- Hr. exact Hs.
    + rewrite (@all_space_after_char w pre Hw). exact Hpre.
  - exists ""%string. split; [reflexivity | split; [reflexivity | exact E]].
Qed.

Lemma lstrip_all_space (s : string) : Str.all_space s = true -> Str.lstrip s = "".
Proof.
  induction s as [s IH] using string_length_ind.
  rewrite all_space_step, lstrip_step. destruct s as [| a s]; [reflexivity |].
  destruct (Str.after_space (String a s)) as [r |] eqn:E; [| discriminate].
  apply IH. apply (@after_space_shorter _ _ E).
Qed.

(** What [rstrip] takes off is white space. *)
Lemma rstrip_spec (s : string) :
  exists post, s = (Str.rstrip s ++ post)%string /\ Str.all_space post = true.
Proof.
  induction s as [| a s (post & Hs & Hpost)]; [exists ""%string; auto |].
  cbn [Str.rstrip]. destruct (Str.all_space (String a s)) eqn:E.
  - exists (String a s). auto.
  - exists post. split; [simpl; congruence | exact Hpost].
Qed.

(** [rstrip] cuts at the first place from which on there is white space
    only. *)
Lemma rstrip_cuts_early (body t : string) :
  Str.all_space t = true -> exists rest, body = (Str.rstrip (body ++ t) ++ rest)%string.
Proof.
  intros Ht. induction body as [| a body (rest & IH)].
  - exists ""%string. destruct t as [| c t]; [reflexivity |].
    cbn [String.append Str.rstrip]. rewrite Ht. reflexivity.
  - cbn [String.append Str.rstrip].
    destruct (Str.all_space (String a (body ++ t))).
    + exists (String a body). reflexivity.
    + exists rest. simpl. congruence.
Qed.

Lemma rstrip_ends_clean (s : string) : Str.ends_clean (Str.rstrip s).
Proof.
  intros body w Hw E. destruct (rstrip_spec s) as (post & Hs & Hpost).
  rewrite E, string_append_assoc in Hs.
  assert (Hrest : Str.all_space (w ++ post) = true)
    by (rewrite (@all_space_after_char w post Hw); exact Hpost).
  destruct (@rstrip_cuts_early body _ Hrest) as (rest & Hbody).
  rewrite <- Hs, E in Hbody. apply (f_equal String.length) in Hbody.
  rewrite !string_length_app in Hbody. pose proof (@space_char_nonempty w Hw). lia.
Qed.

Lemma rstrip_starts_clean (s : string) :
  Str.starts_clean s -> Str.starts_clean (Str.rstrip s).
Proof.
  unfold Str.starts_clean. intros Hs.
  destruct (Str.after_space (Str.rstrip s)) as [r |] eqn:E; [| reflexivity].
  destruct (rstrip_spec s) as (post & Hpost & _).
  rewrite Hpost, (@after_space_app _ _ post E) in Hs. discriminate.
Qed.

Lemma strip_all_space (s : string) : Str.all_space s = true -> Str.strip s = "".
Proof. intros Hs. unfold Str.strip. rewrite (@lstrip_all_space s Hs). reflexivity. Qed.

(** [strip] takes white space off both ends, and all of it. *)
Lemma strip_spec (raw : string) :
  exists pre post,
    raw = (pre ++ Str.strip raw ++ post)%string
    /\ Str.all_space pre = true /\ Str.all_space post = true
    /\ Str.starts_clean (Str.strip raw) /\ Str.ends_clean (Str.strip raw).
Proof.
  destruct (lstrip_spec raw) as (pre & Hraw & Hpre & Hclean).
  destruct (rstrip_spec (Str.lstrip raw)) as (post & Hl & Hpost).
  exists pre, post. unfold Str.strip.
  split; [rewrite <- Hl; exact Hraw |]. split; [exact Hpre |]. split; [exact Hpost |].
  split; [apply rstrip_starts_clean; exact Hclean | apply rstrip_ends_clean].
Qed.

(* ================================================================= *)
(** * Stable insertion sort *)

Section Sorting.

Variables (K A : Type) (lt : K -> K -> bool).

Hypothesis lt_asym : forall a b, lt a b = true -> lt b a = false.
Hypothesis before_trans :
  forall a b c, lt b a = false -> lt c b = false -> lt c a = false.

Lemma insert_keyed_perm (x : K * A) (l : list (K * A)) :
  Permutation (insert_keyed lt x l) (x :: l).
Proof.
  induction l as [| y ys IH]; simpl; [reflexivity |].
  destruct (lt (fst y) (fst x)); [| reflexivity].
  rewrite IH. apply perm_swap.
Qed.

Lemma sort_keyed_perm (l : list (K * A)) : Permutation (sort_keyed lt l) l.
Proof.
  induction l as [| x xs IH]; simpl; [reflexivity |].
  rewrite insert_keyed_perm. constructor. exact IH.
Qed.

Lemma insert_keyed_sorted (x : K * A) (l : list (K * A)) :
  StronglySorted (may_precede lt) l -> StronglySorted (may_precede lt) (insert_keyed lt x l).
Proof.
  induction l as [| y ys IH]; simpl; intros Hs.
  - repeat constructor.
  - inversion Hs as [| ? ? Hys Hall]; subst.
    destruct (lt (fst y) (fst x)) eqn:E.
    + constructor; [apply IH; assumption |].
      apply Forall_forall. intros z Hz.
      apply (Permutation_in _ (insert_keyed_perm x ys)) in Hz.
      destruct Hz as [<- | Hz].
      * unfold may_precede. apply lt_asym. assumption.
      * rewrite Forall_forall in Hall. apply Hall. assumption.
    + constructor; [assumption |]. constructor; [exact E |].
      rewrite Forall_forall in *. intros z Hz.
      unfold may_precede. eapply before_trans; [exact E | apply Hall; assumption].
Qed.

Lemma sort_keyed_sorted (l : list (K * A)) : StronglySorted (may_precede lt) (sort_keyed lt l).
Proof.
  induction l as [| x xs IH]; simpl; [constructor | apply insert_keyed_sorted; exact IH].
Qed.

End Sorting.

Lemma map_snd_combine (K A : Type) (R : K -> A -> Prop) (keys : list K) (l : list A) :
  Forall2 R keys l -> map snd (combine keys l) = l.
Proof. induction 1 as [| k x keys l _ _ IH]; simpl; congruence. Qed.

Lemma combine_tagged (K A : Type) (R : K -> A -> Prop) (keys : list K) (l : list A) :
  Forall2 R keys l -> Forall (fun kp => R (fst kp) (snd kp)) (combine keys l).
Proof. induction 1 as [| k x keys l Hk _ IH]; simpl; constructor; auto. Qed.

Lemma StronglySorted_map_tagged (X Y : Type) (R : X -> X -> Prop) (R' : Y -> Y -> Prop)
    (P : X -> Prop) (g : X -> Y) (l : list X) :
  (forall x y, P x -> P y -> R x y -> R' (g x) (g y)) ->
  Forall P l -> StronglySorted R l -> StronglySorted R' (map g l).
Proof.
  intros Hg HP Hs. induction Hs as [| x l Hs IH Hall]; simpl; [constructor |].
  inversion HP; subst. constructor; [auto |].
  rewrite Forall_forall in *. intros y Hy. apply in_map_iff in Hy.
  destruct Hy as (z & <- & Hz). auto.
Qed.

Lemma StronglySorted_filter_keep (X : Type) (R : X -> X -> Prop) (p : X -> bool)
    (l : list X) :
  StronglySorted R l -> StronglySorted R (filter p l).
Proof.
  induction 1 as [| x l Hs IH Hall]; simpl; [constructor |].
  destruct (p x); [| assumption]. constructor; [assumption |].
  rewrite Forall_forall in *. intros y Hy. apply filter_In in Hy. apply Hall, Hy.
Qed.

Lemma StronglySorted_prefix (X : Type) (R : X -> X -> Prop) (l1 l2 : list X) :
  StronglySorted R (l1 ++ l2) -> StronglySorted R l1.
Proof.
  induction l1 as [| x l1 IH]; simpl; intros Hs; [constructor |].
  inversion Hs as [| ? ? Hs' Hall]; subst. constructor; [auto |].
  apply Forall_app in Hall. apply Hall.
Qed.

Lemma StronglySorted_nth (X : Type) (R : X -> X -> Prop) (l : list X) :
  StronglySorted R l ->
  forall i j a b, i < j -> nth_error l i = Some a -> nth_error l j = Some b -> R a b.
Proof.
  induction 1 as [| x l Hs IH Hall]; intros i j a b Hij Ha Hb.
  - destruct i; discriminate.
  - destruct j as [| j]; [lia |]. simpl in Hb.
    destruct i as [| i]; simpl in Ha.
    + inversion Ha; subst. rewrite Forall_forall in Hall.
      apply Hall. eapply nth_error_In; eassumption.
    + eapply IH; [| eassumption | eassumption]. lia.
Qed.

(* ================================================================= *)
(** * Properties *)

Section Properties.

Context {FS : Type} `{FileSystem FS}.

(* ----------------------------------------------------------------- *)
(** *** Records and paths *)

(** Close a goal that equates two outcomes once the state is split into
    its fields and the log is re-associated. *)
Ltac same_state s :=
  destruct s; unfold record, with_log, with_fs, with_status, with_table,
    with_row_entries; simpl in *; subst;
  repeat rewrite <- app_assoc; simpl; try reflexivity.

(** Unfold the plumbing of the monad and of the recorded calls, leaving
    the host's answers and [refresh_table] to case analysis. *)
Ltac run :=
  cbv beta iota zeta delta
    [bind ret raise gets modify try_except find_clause existsb isinstance
     set_status set_clipboard set_clipboard_op set_show_hidden watch_clipboard
     option_path_eqb query mutate Path_is_dir Path_exists Path_stat
     Path_touch Path_mkdir Path_rename Path_unlink shutil_rmtree shutil_move
     shutil_copytree shutil_copy2 Path_write_text Path_expanduser orb].

Lemma fs_record (ev : FsEvent) (s : App FS) : fs (record ev s) = fs s.
Proof. reflexivity. Qed.

Lemma clipboard_with_fs (f : FS) (ev : FsEvent) (s : App FS) :
  clipboard (with_fs f (record ev s)) = clipboard s.
Proof. reflexivity. Qed.

Lemma with_log_same (s : App FS) : with_log (log s) s = s.
Proof. destruct s; reflexivity. Qed.

Lemma bool_eqb_iff (a b : bool) : Bool.eqb a b = true <-> a = b.
Proof. destruct a, b; simpl; split; congruence. Qed.

Lemma path_eqb_eq (p q : Path) : PathOps.eqb p q = true <-> p = q.
Proof.
  unfold PathOps.eqb. destruct p as [a ps], q as [b qs]; simpl.
  destruct (list_eq_dec string_dec ps qs) as [E | N].
  - rewrite andb_true_r, bool_eqb_iff. split; intros; subst; congruence.
  - rewrite andb_false_r. split; [discriminate | intros E; inversion E; contradiction].
Qed.

Lemma path_eqb_refl (p : Path) : PathOps.eqb p p = true.
Proof. apply path_eqb_eq; reflexivity. Qed.

(* ----------------------------------------------------------------- *)
(** *** The loop of [refresh_table] *)

Lemma mapM_entry_key_run (it : list Path) :
  forall s : App FS,
  exists evs, Forall read_only evs /\
    mapM entry_key it s =
    (match keys_of (fs s) it with inr keys => Val keys | inl e => Exc e end,
     with_log (log s ++ evs) s).
Proof.
  induction it as [| p it IH]; intros s.
  - exists []. split; [constructor |]. simpl. unfold ret.
    rewrite app_nil_r, with_log_same. reflexivity.
  - simpl mapM. simpl keys_of. unfold key_of.
    unfold bind at 1. unfold entry_key at 1. unfold bind at 1.
    unfold Path_is_dir, query.
    destruct (fs_is_dir (fs s) p) as [e | d].
    + exists [Failed (Call_is_dir p) e]. split; [repeat constructor | reflexivity].
    + unfold ret at 1. unfold bind at 1.
      destruct (IH (record (Returned (Call_is_dir p)) s)) as (evs & Hro & E).
      rewrite E. clear E. rewrite fs_record.
      exists (Returned (Call_is_dir p) :: evs).
      split; [constructor; [reflexivity | exact Hro] |].
      destruct (keys_of (fs s) it) as [e | keys]; unfold ret; same_state s.
Qed.

Lemma file_modified_run (entry : Path) (s : App FS) :
  exists ev, read_only ev /\
    file_modified entry s = (Val (modified_of (fs s) entry), record ev s).
Proof.
  unfold file_modified, modified_of, try_except, bind, Path_stat, query.
  destruct (fs_stat (fs s) entry) as [e | st]; simpl.
  - exists (Failed (Call_stat entry) e). split; reflexivity.
  - exists (Returned (Call_stat entry)). split; [reflexivity |].
    destruct (strftime_minutes (st_mtime st)); reflexivity.
Qed.

Lemma file_permissions_run (entry : Path) (s : App FS) :
  exists ev, read_only ev /\
    file_permissions entry s = (Val (perms_of (fs s) entry), record ev s).
Proof.
  unfold file_permissions, perms_of, try_except, bind, Path_stat, query.
  destruct (fs_stat (fs s) entry) as [e | st]; simpl.
  - exists (Failed (Call_stat entry) e). split; reflexivity.
  - exists (Returned (Call_stat entry)). split; reflexivity.
Qed.

Lemma caught_by_size_clause (e : exn) :
  is_os_error (exn_cls e) || (class_eqb (exn_cls e) PermissionError || false)
  = is_os_error (exn_cls e).
Proof. destruct e as [c t]; destruct c; reflexivity. Qed.

Lemma entry_size_run (entry : Path) (s : App FS) :
  exists evs, Forall read_only evs /\
    entry_size entry s =
    (match size_of (fs s) entry with inr text => Val text | inl e => Exc e end,
     with_log (log s ++ evs) s).
Proof.
  unfold entry_size, size_of, unknown_size, try_except, bind, Path_is_dir, Path_exists,
    Path_stat, query, ret; simpl.
  destruct (fs_is_dir (fs s) entry) as [e | [|]]; simpl.
  - exists [Failed (Call_is_dir entry) e]. split; [repeat constructor |].
    rewrite caught_by_size_clause. destruct (is_os_error (exn_cls e)); same_state s.
  - exists [Returned (Call_is_dir entry)]. split; [repeat constructor | reflexivity].
  - destruct (fs_exists (fs s) entry) as [e | [|]]; simpl.
    + exists [Returned (Call_is_dir entry); Failed (Call_exists entry) e].
      split; [repeat constructor |].
      rewrite caught_by_size_clause. destruct (is_os_error (exn_cls e)); same_state s.
    + destruct (fs_stat (fs s) entry) as [e | st]; simpl.
      * exists [Returned (Call_is_dir entry); Returned (Call_exists entry);
                Failed (Call_stat entry) e].
        split; [repeat constructor |].
        rewrite caught_by_size_clause. destruct (is_os_error (exn_cls e)); same_state s.
      * exists [Returned (Call_is_dir entry); Returned (Call_exists entry);
                Returned (Call_stat entry)].
        split; [repeat constructor | same_state s].
    + exists [Returned (Call_is_dir entry); Returned (Call_exists entry)].
      split; [repeat constructor | same_state s].
Qed.

Lemma add_entry_row_run (entry : Path) (s : App FS) (es : list Path) :
  _row_entries s = Some es ->
  exists evs, Forall read_only evs /\
    add_entry_row entry s =
    match row_of (fs s) entry with
    | inr row =>
        (Val tt,
         mkApp (fs s) (log s ++ evs) (current_dir s) (show_hidden s) (clipboard s)
               (clipboard_op s) (path_bar s) (tree_path s) (table s ++ [row])
               (cursor_row s) (Some (es ++ [entry])) (status s))
    | inl e => (Exc e, with_log (log s ++ evs) s)
    end.
Proof.
  intros Hes. unfold add_entry_row, row_of, icon_of.
  unfold bind at 1. unfold Path_is_dir at 1, query.
  destruct (fs_is_dir (fs s) entry) as [e | d].
  { exists [Failed (Call_is_dir entry) e]. split; [repeat constructor | reflexivity]. }
  set (s1 := record (Returned (Call_is_dir entry)) s).
  unfold bind at 1.
  destruct (entry_size_run entry s1) as (evs1 & R1 & E1). rewrite E1.
  replace (fs s1) with (fs s) by reflexivity.
  destruct (size_of (fs s) entry) as [e | size].
  - exists (Returned (Call_is_dir entry) :: evs1).
    split; [constructor; [reflexivity | assumption] |].
    destruct s; unfold s1, record, with_log; simpl. rewrite <- app_assoc. reflexivity.
  - set (s2 := with_log (log s1 ++ evs1) s1).
    unfold bind at 1.
    destruct (file_modified_run entry s2) as (ev2 & R2 & E2). rewrite E2.
    unfold bind at 1.
    destruct (file_permissions_run entry (record ev2 s2)) as (ev3 & R3 & E3).
    rewrite E3.
    exists (Returned (Call_is_dir entry) :: evs1 ++ [ev2; ev3]).
    split.
    + constructor; [reflexivity |]. apply Forall_app. split; [assumption |].
      repeat constructor; assumption.
    + unfold bind, table_add_row, row_entries_append, bind, gets, modify.
      destruct s; simpl in *. subst. unfold with_row_entries, with_table; simpl.
      repeat rewrite <- app_assoc. reflexivity.
Qed.

Lemma refresh_rows_run (entries : list Path) :
  forall (count : nat) (s : App FS) (es : list Path),
  _row_entries s = Some es ->
  exists evs, Forall read_only evs /\
    refresh_rows entries count s =
    (match snd (rows_of (fs s) (filter (visible (show_hidden s)) entries)) with
     | None => Val (count + List.length (fst (rows_of (fs s)
                          (filter (visible (show_hidden s)) entries))))
     | Some e => Exc e
     end,
     mkApp (fs s) (log s ++ evs) (current_dir s) (show_hidden s) (clipboard s)
           (clipboard_op s) (path_bar s) (tree_path s)
           (table s ++ map snd (fst (rows_of (fs s)
                                  (filter (visible (show_hidden s)) entries))))
           (cursor_row s)
           (Some (es ++ map fst (fst (rows_of (fs s)
                                  (filter (visible (show_hidden s)) entries)))))
           (status s)).
Proof.
  induction entries as [| entry rest IH]; intros count s es Hes.
  - exists []. split; [constructor |]. simpl. unfold ret.
    rewrite Nat.add_0_r, !app_nil_r. destruct s; simpl in *; subst; reflexivity.
  - simpl refresh_rows. unfold bind at 1. unfold gets at 1.
    assert (Hv : visible (show_hidden s) entry
                 = negb (negb (show_hidden s) && Str.startswith (PathOps.name entry) "."))
      by reflexivity.
    simpl filter. rewrite Hv.
    destruct (negb (show_hidden s) && Str.startswith (PathOps.name entry) ".") eqn:Hh;
      simpl negb; cbv iota.
    + apply IH. assumption.
    + unfold bind at 1.
      destruct (add_entry_row_run entry s Hes) as (evs1 & R1 & E1). rewrite E1.
      simpl rows_of.
      destruct (row_of (fs s) entry) as [e | row].
      * exists evs1. split; [assumption |]. simpl.
        rewrite !app_nil_r. destruct s; simpl in *; subst; reflexivity.
      * match goal with |- context [refresh_rows rest (S count) ?s2] =>
          destruct (IH (S count) s2 (es ++ [entry]) eq_refl) as (evs2 & R2 & E2);
          rewrite E2
        end.
        exists (evs1 ++ evs2). split; [apply Forall_app; split; assumption |].
        simpl.
        destruct (rows_of (fs s) (filter (visible (show_hidden s)) rest)) as [l o].
        simpl. repeat rewrite <- app_assoc. simpl.
        destruct o; [reflexivity |].
        rewrite Nat.add_succ_r. reflexivity.
Qed.

(** What [refresh_table] does, in every case: the listing refused (by
    [iterdir] or by the [is_dir] of a key), the listing failing
    otherwise, rows built, a row raising. *)
Lemma refresh_table_run (s : App FS) :
  exists evs, Forall read_only evs /\
    refresh_table s =
    match listed (fs s) (current_dir s) with
    | inl e =>
        if class_eqb (exn_cls e) PermissionError
        then (Val tt, refreshed s [] (_row_entries s) "⚠  Permission denied" (log s ++ evs))
        else (Exc e, refreshed s [] (_row_entries s) (status s) (log s ++ evs))
    | inr entries =>
        let built := rows_of (fs s) (filter (visible (show_hidden s)) entries) in
        match snd built with
        | None =>
            (Val tt, refreshed s (map snd (fst built)) (Some (map fst (fst built)))
                               (items_status s (List.length (fst built))) (log s ++ evs))
        | Some e =>
            (Exc e, refreshed s (map snd (fst built)) (Some (map fst (fst built)))
                              (status s) (log s ++ evs))
        end
    end.
Proof.
  unfold refresh_table, listed. unfold bind at 1. unfold table_clear, modify.
  unfold bind at 1. unfold try_except. unfold bind at 1. unfold gets at 1.
  unfold bind at 1. unfold Path_iterdir, query.
  replace (fs (with_table [] 0%Z s)) with (fs s) by reflexivity.
  replace (current_dir (with_table [] 0%Z s)) with (current_dir s) by reflexivity.
  destruct (fs_iterdir (fs s) (current_dir s)) as [e | it].
  - exists [Failed (Call_iterdir (current_dir s)) e]. split; [repeat constructor |].
    simpl find_clause. rewrite orb_false_r.
    destruct (class_eqb (exn_cls e) PermissionError); same_state s.
  - unfold bind at 1. unfold sorted. unfold bind at 1.
    match goal with |- context [mapM entry_key it ?s1] =>
      destruct (mapM_entry_key_run it s1) as (evs1 & R1 & E1); rewrite E1; clear E1
    end.
    replace (fs (record (Returned (Call_iterdir (current_dir s))) (with_table [] 0%Z s)))
      with (fs s) by reflexivity.
    unfold sorted_entries.
    destruct (keys_of (fs s) it) as [e | keys].
    + exists (Returned (Call_iterdir (current_dir s)) :: evs1).
      split; [constructor; [reflexivity | exact R1] |].
      simpl find_clause. rewrite orb_false_r.
      destruct (class_eqb (exn_cls e) PermissionError); same_state s.
    + unfold ret at 1 2. unfold bind at 1. unfold bind at 1.
      match goal with |- context [refresh_rows ?l 0 ?s2] =>
        destruct (@refresh_rows_run l 0 s2 [] eq_refl) as (evs2 & R2 & E2);
        rewrite E2; clear E2
      end.
      exists (Returned (Call_iterdir (current_dir s)) :: evs1 ++ evs2).
      split.
      * constructor; [reflexivity |]. apply Forall_app. split; assumption.
      * destruct s; simpl.
        match goal with |- context [rows_of ?f ?l] => destruct (rows_of f l) as [built o] end.
        simpl. destruct o; unfold refreshed, items_status, bind, gets, set_status, modify;
          simpl; repeat rewrite <- app_assoc; reflexivity.
Qed.

Lemma listed_refused (f : FS) (dir : Path) (e : exn) :
  fs_iterdir f dir = inl e -> listed f dir = inl e.
Proof. unfold listed. intros ->. reflexivity. Qed.

Lemma keys_of_answered (f : FS) (it : list Path) :
  forallb (is_dir_answers f) it = true -> exists keys, keys_of f it = inr keys.
Proof.
  induction it as [| p it IH]; simpl; [eexists; reflexivity |].
  unfold is_dir_answers at 1, key_of. destruct (fs_is_dir f p) as [e | d]; [discriminate |].
  simpl. intros Hall. destruct (IH Hall) as (keys & ->). eexists; reflexivity.
Qed.

Lemma listed_answered (f : FS) (dir : Path) (it : list Path) :
  fs_iterdir f dir = inr it -> forallb (is_dir_answers f) it = true ->
  exists entries, listed f dir = inr entries /\ sorted_entries f it = inr entries.
Proof.
  intros Hit Hall. unfold listed, sorted_entries. rewrite Hit.
  destruct (keys_of_answered f it Hall) as (keys & ->). eexists; split; reflexivity.
Qed.

(* ----------------------------------------------------------------- *)
(** *** The listing: order and rows *)

Lemma keys_of_spec (f : FS) (it : list Path) :
  forall keys, keys_of f it = inr keys ->
               Forall2 (fun k p => key_of f p = inr k) keys it.
Proof.
  induction it as [| p it IH]; simpl; intros keys.
  - intros [= <-]. constructor.
  - destruct (key_of f p) as [e | k] eqn:Hk; [discriminate |].
    destruct (keys_of f it) as [e | ks]; [discriminate |].
    intros [= <-]. constructor; [exact Hk | apply IH; reflexivity].
Qed.

Lemma sorted_entries_perm (f : FS) (it entries : list Path) :
  sorted_entries f it = inr entries -> Permutation entries it.
Proof.
  unfold sorted_entries. destruct (keys_of f it) as [e | keys] eqn:Hkeys; [discriminate |].
  intros [= <-].
  rewrite (Permutation_map snd (sort_keyed_perm key_lt _)).
  rewrite (map_snd_combine (keys_of_spec _ _ Hkeys)). reflexivity.
Qed.

Lemma sorted_entries_sorted (f : FS) (it entries : list Path) :
  sorted_entries f it = inr entries -> StronglySorted (in_order f) entries.
Proof.
  unfold sorted_entries. destruct (keys_of f it) as [e | keys] eqn:Hkeys; [discriminate |].
  intros [= <-].
  apply StronglySorted_map_tagged
    with (R := may_precede (A := Path) key_lt)
         (P := fun kp => key_of f (snd kp) = inr (fst kp)).
  - intros x y Hx Hy Hxy. exists (fst x), (fst y).
    split; [exact Hx |]. split; [exact Hy |]. unfold key_le. rewrite Hxy. reflexivity.
  - apply Forall_forall. intros kp Hin.
    apply (Permutation_in _ (sort_keyed_perm key_lt _)) in Hin.
    pose proof (combine_tagged (keys_of_spec _ _ Hkeys)) as Htag.
    rewrite Forall_forall in Htag. apply Htag. assumption.
  - apply sort_keyed_sorted.
    + intros a b Hab. apply key_lt_le in Hab. unfold key_le in Hab.
      destruct (key_lt b a); [discriminate | reflexivity].
    + intros a b c Hab Hbc.
      assert (Hac : key_le a c = true).
      { apply key_le_trans with b; unfold key_le; [rewrite Hab | rewrite Hbc]; reflexivity. }
      unfold key_le in Hac. destruct (key_lt c a); [discriminate | reflexivity].
Qed.

Lemma rows_of_prefix (f : FS) (l : list Path) :
  exists rest, l = map fst (fst (rows_of f l)) ++ rest
               /\ (snd (rows_of f l) = None -> rest = []).
Proof.
  induction l as [| p l (rest & E & Hnone)]; simpl.
  - exists []. auto.
  - destruct (row_of f p) as [e | row]; simpl.
    + exists (p :: l). split; [reflexivity | discriminate].
    + destruct (rows_of f l) as [built o]; simpl in *.
      exists rest. split; [congruence | assumption].
Qed.

Lemma row_of_name (f : FS) (p : Path) (row : Row) :
  row_of f p = inr row -> row_name row = PathOps.name p.
Proof.
  unfold row_of. destruct (icon_of f p); [discriminate |].
  destruct (size_of f p); [discriminate |]. intros [= <-]. reflexivity.
Qed.

Lemma rows_of_names (f : FS) (l : list Path) :
  map row_name (map snd (fst (rows_of f l)))
  = map PathOps.name (map fst (fst (rows_of f l))).
Proof.
  induction l as [| p l IH]; simpl; [reflexivity |].
  destruct (row_of f p) as [e | row] eqn:Hrow; simpl; [reflexivity |].
  destruct (rows_of f l) as [built o]; simpl in *.
  rewrite (row_of_name _ _ Hrow). congruence.
Qed.

Lemma rows_of_complete (f : FS) (l : list Path) :
  snd (rows_of f l) = None ->
  fst (rows_of f l) = map (fun p => (p, row_or_blank f p)) l
  /\ Forall (fun p => exists row, row_of f p = inr row) l.
Proof.
  induction l as [| p l IH]; simpl; [auto |].
  unfold row_or_blank. destruct (row_of f p) as [e | row] eqn:Hrow; simpl; [discriminate |].
  destruct (rows_of f l) as [built o]; simpl in *. intros ->.
  destruct (IH eq_refl) as [-> Hall]. split; [reflexivity |].
  constructor; [eexists; exact Hrow | assumption].
Qed.

Lemma rows_of_all (f : FS) (l : list Path) :
  Forall (fun p => exists row, row_of f p = inr row) l ->
  rows_of f l = (map (fun p => (p, row_or_blank f p)) l, None).
Proof.
  induction 1 as [| p l [row Hrow] Hall IH]; simpl; [reflexivity |].
  unfold row_or_blank at 1. rewrite Hrow, IH. reflexivity.
Qed.

Lemma filter_visible_shown (l : list Path) : filter (visible true) l = l.
Proof. induction l as [| p l IH]; simpl; congruence. Qed.

(** C6. Whenever the directory is enumerated and [is_dir] answers for
    every enumerated path (so that the sort of line 479 gets through),
    the entries [refresh_table] leaves in [_row_entries] (row for row
    those of the table) are ordered: no file stands before a directory,
    and two entries of the same kind stand in ascending order of their
    lower-cased names, which for ASCII names is the order of the names
    with the letters A-Z lowered. *)
Theorem listing_directories_first_then_names (s : App FS) (it : list Path) :
  fs_iterdir (fs s) (current_dir s) = inr it ->
  forallb (is_dir_answers (fs s)) it = true ->
  exists entries,
    _row_entries (final refresh_table s) = Some entries
    /\ map row_name (table (final refresh_table s)) = map PathOps.name entries
    /\ forall i j a b,
         i < j -> nth_error entries i = Some a -> nth_error entries j = Some b ->
         exists da db,
           fs_is_dir (fs s) a = inr da /\ fs_is_dir (fs s) b = inr db
           /\ (db = true -> da = true)
           /\ (da = db ->
               String.leb (str_lower (PathOps.name a)) (str_lower (PathOps.name b)) = true
               /\ (Str.is_ascii (PathOps.name a) = true ->
                   Str.is_ascii (PathOps.name b) = true ->
                   String.leb (Str.ascii_lower (PathOps.name a))
                              (Str.ascii_lower (PathOps.name b)) = true)).
Proof.
  intros Hit Hall. unfold final.
  destruct (listed_answered _ _ Hit Hall) as (sorted & Hlisted & Hsort).
  destruct (refresh_table_run s) as (evs & _ & E). rewrite E, Hlisted. clear E.
  set (vis := filter (visible (show_hidden s)) sorted).
  exists (map fst (fst (rows_of (fs s) vis))).
  assert (Hsorted : StronglySorted (in_order (fs s)) (map fst (fst (rows_of (fs s) vis)))).
  { destruct (rows_of_prefix (fs s) vis) as (rest & Hvis & _).
    apply StronglySorted_prefix with rest. rewrite <- Hvis.
    apply StronglySorted_filter_keep. apply (sorted_entries_sorted _ _ Hsort). }
  assert (Horder : forall i j a b,
            i < j -> nth_error (map fst (fst (rows_of (fs s) vis))) i = Some a ->
            nth_error (map fst (fst (rows_of (fs s) vis))) j = Some b ->
            exists da db,
              fs_is_dir (fs s) a = inr da /\ fs_is_dir (fs s) b = inr db
              /\ (db = true -> da = true)
              /\ (da = db ->
                  String.leb (str_lower (PathOps.name a)) (str_lower (PathOps.name b)) = true
                  /\ (Str.is_ascii (PathOps.name a) = true ->
                      Str.is_ascii (PathOps.name b) = true ->
                      String.leb (Str.ascii_lower (PathOps.name a))
                                 (Str.ascii_lower (PathOps.name b)) = true))).
  { intros i j a b Hij Ha Hb.
    destruct (StronglySorted_nth Hsorted Hij Ha Hb) as (ka & kb & Hka & Hkb & Hle).
    unfold key_of in Hka, Hkb.
    destruct (fs_is_dir (fs s) a) as [e | da]; [discriminate |].
    destruct (fs_is_dir (fs s) b) as [e | db]; [discriminate |].
    inversion Hka; inversion Hkb; subst ka kb. clear Hka Hkb.
    exists da, db. split; [reflexivity |]. split; [reflexivity |].
    apply key_le_spec in Hle. destruct Hle as [[Hda Hdb] | [Hd Hn]].
    - destruct da, db; simpl in *; try discriminate.
      split; [reflexivity | intros; discriminate].
    - split; [destruct da, db; simpl in *; congruence |].
      intros _. split; [exact Hn |]. intros Haa Hab.
      rewrite <- (str_lower_ascii _ Haa), <- (str_lower_ascii _ Hab). exact Hn. }
  cbv zeta. destruct (snd (rows_of (fs s) vis)); simpl;
    (split; [reflexivity |]); (split; [apply rows_of_names | exact Horder]).
Qed.

(** C7. Whenever the directory is enumerated, [is_dir] answers for every
    enumerated path and the listing with hidden entries shown is built,
    the listing with hidden entries excluded is built as well; the
    former holds every enumerated entry, the latter exactly those whose
    name does not start with a dot, in the same order and with the same
    row for each. *)
Theorem hidden_entries_filtered (s : App FS) (it : list Path) :
  fs_iterdir (fs s) (current_dir s) = inr it ->
  forallb (is_dir_answers (fs s)) it = true ->
  raised refresh_table (with_show_hidden true s) = None ->
  raised refresh_table (with_show_hidden false s) = None
  /\ exists (entries : list Path) (row : Path -> Row),
       Permutation entries it
       /\ _row_entries (final refresh_table (with_show_hidden true s)) = Some entries
       /\ table (final refresh_table (with_show_hidden true s)) = map row entries
       /\ _row_entries (final refresh_table (with_show_hidden false s))
          = Some (filter (fun p => negb (is_hidden p)) entries)
       /\ table (final refresh_table (with_show_hidden false s))
          = map row (filter (fun p => negb (is_hidden p)) entries).
Proof.
  intros Hit Hall. unfold raised, final.
  destruct (listed_answered _ _ Hit Hall) as (sorted & Hlisted & Hsort).
  destruct (refresh_table_run (with_show_hidden true s)) as (evs1 & _ & E1).
  destruct (refresh_table_run (with_show_hidden false s)) as (evs2 & _ & E2).
  rewrite E1, E2. clear E1 E2. simpl fs. simpl current_dir. simpl show_hidden.
  rewrite Hlisted. cbv zeta. rewrite filter_visible_shown.
  destruct (snd (rows_of (fs s) sorted)) eqn:Hshown; [simpl; discriminate |].
  intros _. destruct (rows_of_complete _ _ Hshown) as [Hrows Hbuilt].
  assert (Hplain : rows_of (fs s) (filter (visible false) sorted)
                   = (map (fun p => (p, row_or_blank (fs s) p))
                          (filter (visible false) sorted), None)).
  { apply rows_of_all. rewrite Forall_forall in *. intros p Hp.
    apply filter_In in Hp. apply Hbuilt, Hp. }
  rewrite Hplain, Hrows. simpl. split; [reflexivity |].
  exists sorted, (row_or_blank (fs s)).
  rewrite !map_map. simpl. rewrite !map_id.
  repeat split; try reflexivity. apply (sorted_entries_perm _ _ Hsort).
Qed.

(* ----------------------------------------------------------------- *)
(** *** What a refresh leaves alone *)

Lemma new_events_app (s s' : App FS) (evs : list FsEvent) :
  log s' = log s ++ evs -> new_events s s' = evs.
Proof.
  intros E. unfold new_events. rewrite E, skipn_app, skipn_all, Nat.sub_diag.
  reflexivity.
Qed.

Lemma new_events_none (s s' : App FS) : log s' = log s -> new_events s s' = [].
Proof. intros E. apply new_events_app. rewrite app_nil_r. exact E. Qed.

Lemma refresh_table_cases (s : App FS) :
  exists r s' evs,
    refresh_table s = (r, s') /\ Forall read_only evs
    /\ log s' = log s ++ evs /\ kept s s'.
Proof.
  destruct (refresh_table_run s) as (evs & Hro & E).
  destruct (listed (fs s) (current_dir s)) as [e | entries].
  - destruct (class_eqb (exn_cls e) PermissionError);
      eexists _, _, evs; (split; [exact E |]); unfold kept; simpl; auto 10.
  - cbv zeta in E.
    destruct (snd (rows_of (fs s) (filter (visible (show_hidden s)) entries)));
      eexists _, _, evs; (split; [exact E |]); unfold kept; simpl; auto 10.
Qed.

Lemma read_only_not_mutation (evs : list FsEvent) (ev : FsEvent) :
  Forall read_only evs -> In ev evs -> is_mutation (event_call ev) = true -> False.
Proof.
  intros Hro Hin Hm. rewrite Forall_forall in Hro. apply Hro in Hin.
  unfold read_only in Hin. congruence.
Qed.

(* ----------------------------------------------------------------- *)
(** *** Joining a name to a directory *)

Lemma split_on_absent (sep : ascii) (c : string) :
  Str.rfind sep c = None -> Str.split_on sep c = [c].
Proof.
  induction c as [| a c IH]; simpl; [reflexivity |].
  destruct (Str.rfind sep c); [discriminate |].
  destruct (Ascii.eqb a sep); [discriminate |].
  intros _. rewrite IH; reflexivity.
Qed.

Lemma of_str_plain (c : string) :
  PathOps.plain_name c -> PathOps.of_str c = mkPath false [c].
Proof.
  intros (Hne & Hdot & Hsep). unfold PathOps.of_str.
  rewrite (split_on_absent _ _ Hsep). simpl. unfold PathOps.keep_part.
  apply String.eqb_neq in Hne, Hdot. rewrite Hne, Hdot. simpl.
  f_equal. unfold Str.startswith.
  destruct c as [| a c]; [reflexivity |]. simpl in Hsep.
  destruct (Str.rfind "/" c); [discriminate |].
  destruct (Ascii.eqb_spec a "/"%char) as [-> | Hn]; [discriminate |].
  change (String.prefix "/" (String a c))
    with (if ascii_dec "/"%char a then String.prefix "" c else false).
  destruct (ascii_dec "/"%char a) as [E | _]; [congruence | reflexivity].
Qed.

Lemma joinpath_plain (dir : Path) (c : string) :
  PathOps.plain_name c ->
  PathOps.joinpath dir c = mkPath (anchored dir) (parts dir ++ [c]).
Proof. intros Hc. unfold PathOps.joinpath. rewrite (of_str_plain Hc). reflexivity. Qed.

Lemma joinpath_plain_name_parent (dir : Path) (c : string) :
  PathOps.plain_name c ->
  PathOps.name (PathOps.joinpath dir c) = c
  /\ PathOps.parent (PathOps.joinpath dir c) = dir.
Proof.
  intros Hc. rewrite (joinpath_plain dir Hc).
  unfold PathOps.name, PathOps.parent; simpl.
  rewrite last_last, removelast_last. destruct dir; auto.
Qed.

(** Pasting an entry into the directory it was listed in computes the
    entry's own path as destination. *)
Lemma joinpath_own_parent (src : Path) :
  parts src <> [] -> PathOps.plain_name (PathOps.name src) ->
  PathOps.joinpath (PathOps.parent src) (PathOps.name src) = src.
Proof.
  intros Hne Hc. rewrite (joinpath_plain _ Hc).
  unfold PathOps.parent, PathOps.name; simpl.
  rewrite <- (app_removelast_last "" Hne). destruct src; reflexivity.
Qed.

(* ----------------------------------------------------------------- *)
(** *** Paste *)

(** After the mutating call returned: split on the outcome of the
    refresh that follows and read the frame off [refresh_table_cases]. *)
Ltac after_refresh :=
  match goal with |- context [refresh_table ?x] =>
    let r := fresh "r" in let s2 := fresh "s2" in let evs := fresh "evs" in
    let E := fresh "E" in let Hro := fresh "Hro" in let Hlog := fresh "Hlog" in
    let Hk := fresh "Hk" in
    destruct (refresh_table_cases x) as (r & s2 & evs & E & Hro & Hlog & Hk);
    rewrite E;
    destruct Hk as (Hfs & Hcur & Hhid & Hcl & Hop' & Hbar & Htree);
    simpl in Hlog, Hfs, Hcur, Hhid, Hcl, Hop', Hbar, Htree;
    repeat rewrite <- app_assoc in Hlog; simpl in Hlog;
    destruct r as [[] | ?]; run;
    eexists _, evs; (split; [reflexivity |]); simpl;
    repeat split; (assumption || congruence)
  end.

(** Every way a paste can go. *)
Lemma paste_cases (s : App FS) :
  match clipboard s with
  | None =>
      action_paste_item s =
      (Val NoScreen, with_status "⚠  Clipboard is empty. Use [C] to copy first." s)
  | Some src =>
      let dst := PathOps.joinpath (current_dir s) (PathOps.name src) in
      if PathOps.eqb dst src then
        action_paste_item s =
        (Val NoScreen, with_status "⚠  Source and destination are the same." s)
      else
        exists s' evs,
          action_paste_item s = (Val NoScreen, s') /\
          if String.eqb (clipboard_op s) "cut" then
            match fs_move (fs s) (PathOps.str src) (PathOps.str dst) with
            | inl (e, rest) =>
                s' = with_status ("⚠  Error: " ++ exn_text e)
                       (with_fs rest
                          (record (Failed (Call_move (PathOps.str src) (PathOps.str dst)) e) s))
            | inr f' =>
                Forall read_only evs
                /\ log s' = log s ++ Returned (Call_move (PathOps.str src) (PathOps.str dst)) :: evs
                /\ fs s' = f' /\ clipboard s' = None /\ clipboard_op s' = clipboard_op s
                /\ current_dir s' = current_dir s /\ show_hidden s' = show_hidden s
            end
          else
            match fs_is_dir (fs s) src with
            | inl e =>
                s' = with_status ("⚠  Error: " ++ exn_text e)
                       (record (Failed (Call_is_dir src) e) s)
            | inr d =>
                let c := if d then Call_copytree (PathOps.str src) (PathOps.str dst)
                         else Call_copy2 (PathOps.str src) (PathOps.str dst) in
                match (if d then fs_copytree (fs s) (PathOps.str src) (PathOps.str dst)
                       else fs_copy2 (fs s) (PathOps.str src) (PathOps.str dst)) with
                | inl (e, rest) =>
                    s' = with_status ("⚠  Error: " ++ exn_text e)
                           (with_fs rest
                              (with_log (log s ++ [Returned (Call_is_dir src); Failed c e]) s))
                | inr f' =>
                    Forall read_only evs
                    /\ log s' = log s ++ Returned (Call_is_dir src) :: Returned c :: evs
                    /\ fs s' = f' /\ clipboard s' = clipboard s
                    /\ clipboard_op s' = clipboard_op s
                    /\ current_dir s' = current_dir s /\ show_hidden s' = show_hidden s
                end
            end
  end.
Proof.
  destruct (clipboard s) as [src |] eqn:Hclip.
  2: { unfold action_paste_item. run. rewrite Hclip. reflexivity. }
  cbv zeta.
  destruct (PathOps.eqb (PathOps.joinpath (current_dir s) (PathOps.name src)) src)
    eqn:Hsame.
  { unfold action_paste_item. run. rewrite Hclip, Hsame. reflexivity. }
  unfold action_paste_item. run. rewrite Hclip, Hsame.
  set (dst := PathOps.joinpath (current_dir s) (PathOps.name src)).
  destruct (String.eqb (clipboard_op s) "cut") eqn:Hop.
  - destruct (fs_move (fs s) (PathOps.str src) (PathOps.str dst)) as [[e rest] | f'].
    + eexists _, []. split; reflexivity.
    + rewrite clipboard_with_fs, Hclip. run. after_refresh.
  - destruct (fs_is_dir (fs s) src) as [e | [|]]; run; rewrite ?fs_record.
    + eexists _, []. split; reflexivity.
    + destruct (fs_copytree (fs s) (PathOps.str src) (PathOps.str dst)) as [[e rest] | f'].
      * eexists _, []. split; [reflexivity |]. same_state s.
      * after_refresh.
    + destruct (fs_copy2 (fs s) (PathOps.str src) (PathOps.str dst)) as [[e rest] | f'].
      * eexists _, []. split; [reflexivity |]. same_state s.
      * after_refresh.
Qed.

Lemma same_view_with_status (msg : string) (s : App FS) :
  same_view s (with_status msg s).
Proof. unfold same_view; simpl; auto 12. Qed.

(** C5. A paste with an empty clipboard, or whose computed destination
    is the clipboard source itself (as it is for an entry pasted into the
    directory it lies in), returns without any call to the host: the log
    gains no event, the host and everything on screen stay as they were,
    and the status line names the reason. *)
Theorem paste_empty_or_same_place_is_rejected (s : App FS) :
  (clipboard s = None
   \/ (exists src, clipboard s = Some src
                   /\ PathOps.joinpath (current_dir s) (PathOps.name src) = src)
   \/ (exists src, clipboard s = Some src /\ parts src <> []
                   /\ PathOps.plain_name (PathOps.name src)
                   /\ current_dir s = PathOps.parent src)) ->
  raised action_paste_item s = None
  /\ new_events s (final action_paste_item s) = []
  /\ fs (final action_paste_item s) = fs s
  /\ same_view s (final action_paste_item s)
  /\ status (final action_paste_item s)
     = match clipboard s with
       | None => "⚠  Clipboard is empty. Use [C] to copy first."
       | Some _ => "⚠  Source and destination are the same."
       end.
Proof.
  intros Hcase. pose proof (paste_cases s) as Hp. unfold raised, final.
  assert (Hcase' : clipboard s = None
                   \/ exists src, clipboard s = Some src
                        /\ PathOps.joinpath (current_dir s) (PathOps.name src) = src).
  { destruct Hcase as [Hn | [Hs | (src & Hsrc & Hne & Hplain & Hcur)]]; auto.
    right. exists src. split; [exact Hsrc |].
    rewrite Hcur. apply joinpath_own_parent; assumption. }
  clear Hcase. destruct Hcase' as [Hnone | (src & Hsrc & Hsame)].
  - rewrite Hnone in *. rewrite Hp. simpl.
    repeat split; auto using same_view_with_status.
    apply new_events_none. reflexivity.
  - rewrite Hsrc in *. cbv zeta in Hp. rewrite Hsame, path_eqb_refl in Hp.
    rewrite Hp. simpl.
    repeat split; auto using same_view_with_status.
    apply new_events_none. reflexivity.
Qed.

(** C10 (amended). With a path on the clipboard, the only mutating calls
    a paste makes are [move], [copytree] or [copy2] from the clipboard
    source to [current_dir / src.name]; and when the source's name is a
    plain component, that destination path has the source's name and the
    current directory as parent.  (Where the entry ends up is then
    [shutil]'s doing.) *)
Theorem paste_destination_is_current_dir_with_source_name (s : App FS) (src : Path) :
  clipboard s = Some src ->
  let dst := PathOps.joinpath (current_dir s) (PathOps.name src) in
  (forall ev, In ev (new_events s (final action_paste_item s)) ->
              is_mutation (event_call ev) = true ->
              event_call ev = Call_move (PathOps.str src) (PathOps.str dst)
              \/ event_call ev = Call_copytree (PathOps.str src) (PathOps.str dst)
              \/ event_call ev = Call_copy2 (PathOps.str src) (PathOps.str dst))
  /\ (PathOps.plain_name (PathOps.name src) ->
      PathOps.name dst = PathOps.name src /\ PathOps.parent dst = current_dir s).
Proof.
  intros Hclip dst. split; [| apply joinpath_plain_name_parent].
  pose proof (paste_cases s) as Hp. rewrite Hclip in Hp. cbv zeta in Hp.
  fold dst in Hp. unfold final. intros ev Hin Hmut.
  destruct (PathOps.eqb dst src).
  { rewrite Hp in Hin. rewrite new_events_none in Hin by reflexivity. contradiction. }
  destruct Hp as (s' & evs & E & Hp). rewrite E in Hin. simpl in Hin.
  destruct (String.eqb (clipboard_op s) "cut").
  - destruct (fs_move (fs s) (PathOps.str src) (PathOps.str dst)) as [[e rest] | f'].
    + subst s'. rewrite (@new_events_app s _ [Failed (Call_move (PathOps.str src)
                                                 (PathOps.str dst)) e]) in Hin
        by reflexivity.
      destruct Hin as [<- | []]. auto.
    + destruct Hp as (Hro & Hlog & _). rewrite (@new_events_app _ _ _ Hlog) in Hin.
      destruct Hin as [<- | Hin]; [auto |].
      exfalso. eapply read_only_not_mutation; eassumption.
  - destruct (fs_is_dir (fs s) src) as [e0 | [|]].
    + subst s'. rewrite (@new_events_app s _ [Failed (Call_is_dir src) e0]) in Hin
        by reflexivity.
      destruct Hin as [<- | []]. discriminate.
    + destruct (fs_copytree (fs s) (PathOps.str src) (PathOps.str dst)) as [[e rest] | f'].
      * subst s'. rewrite (@new_events_app s _ [Returned (Call_is_dir src);
            Failed (Call_copytree (PathOps.str src) (PathOps.str dst)) e]) in Hin
          by reflexivity.
        destruct Hin as [<- | [<- | []]]; [discriminate | auto].
      * destruct Hp as (Hro & Hlog & _). rewrite (@new_events_app _ _ _ Hlog) in Hin.
        destruct Hin as [<- | [<- | Hin]]; [discriminate | auto |].
        exfalso. eapply read_only_not_mutation; eassumption.
    + destruct (fs_copy2 (fs s) (PathOps.str src) (PathOps.str dst)) as [[e rest] | f'].
      * subst s'. rewrite (@new_events_app s _ [Returned (Call_is_dir src);
            Failed (Call_copy2 (PathOps.str src) (PathOps.str dst)) e]) in Hin
          by reflexivity.
        destruct Hin as [<- | [<- | []]]; [discriminate | auto].
      * destruct Hp as (Hro & Hlog & _). rewrite (@new_events_app _ _ _ Hlog) in Hin.
        destruct Hin as [<- | [<- | Hin]]; [discriminate | auto |].
        exfalso. eapply read_only_not_mutation; eassumption.
Qed.

Lemma paste_copy_keeps_clipboard (s : App FS) (X : Path) :
  clipboard s = Some X -> clipboard_op s = "copy" ->
  exists s', action_paste_item s = (Val NoScreen, s')
             /\ clipboard s' = Some X /\ clipboard_op s' = "copy".
Proof.
  intros Hclip Hop. pose proof (paste_cases s) as Hp.
  rewrite Hclip, Hop in Hp. cbv zeta in Hp. simpl String.eqb in Hp.
  destruct (PathOps.eqb _ X).
  { eexists. split; [exact Hp |]. simpl. auto. }
  destruct Hp as (s' & evs & E & Hp). exists s'. split; [exact E |].
  destruct (fs_is_dir (fs s) X) as [e | d]; [subst s'; simpl; auto |].
  cbv zeta in Hp. destruct (if d then _ else _) as [[e rest] | f'].
  - subst s'. simpl. auto.
  - destruct Hp as (_ & _ & _ & Hc & Ho & _). split; congruence.
Qed.

Lemma pastes_copy_keep_clipboard (n : nat) :
  forall (s : App FS) (X : Path),
  clipboard s = Some X -> clipboard_op s = "copy" ->
  raised (pastes n) s = None
  /\ clipboard (final (pastes n) s) = Some X
  /\ clipboard_op (final (pastes n) s) = "copy".
Proof.
  induction n as [| n IH]; intros s X Hclip Hop.
  - unfold raised, final; simpl. auto.
  - destruct (paste_copy_keeps_clipboard s Hclip Hop) as (s' & E & Hc & Ho).
    destruct (IH s' X Hc Ho) as (Hr & Hc' & Ho').
    unfold raised, final in *. simpl pastes. unfold bind. rewrite E. auto.
Qed.

(** C4. With [(X, "cut")] on the clipboard, a paste whose move returned
    leaves the clipboard empty; with [(X, "copy")] on it, any number of
    pastes, successful or not, return and leave [X] with ["copy"] on the
    clipboard. *)
Theorem cut_paste_clears_copy_paste_keeps (s : App FS) (X : Path) :
  let cut := with_clipboard_op "cut" (with_clipboard (Some X) s) in
  let copy := with_clipboard_op "copy" (with_clipboard (Some X) s) in
  (mutation_returned cut (final action_paste_item cut) ->
   clipboard (final action_paste_item cut) = None)
  /\ (forall n, raised (pastes n) copy = None
                /\ clipboard (final (pastes n) copy) = Some X
                /\ clipboard_op (final (pastes n) copy) = "copy").
Proof.
  intros cut copy. split; [| intros n; apply pastes_copy_keep_clipboard; reflexivity].
  pose proof (paste_cases cut) as Hp. simpl clipboard in Hp.
  simpl clipboard_op in Hp. simpl String.eqb in Hp. cbv beta iota zeta in Hp.
  unfold mutation_returned, final. intros (c & Hin & Hmut).
  destruct (PathOps.eqb (PathOps.joinpath (current_dir cut) (PathOps.name X)) X).
  { rewrite Hp in Hin. rewrite new_events_none in Hin by reflexivity. contradiction. }
  destruct Hp as (s' & evs & E & Hp). rewrite E in *. simpl in Hin |- *.
  destruct (fs_move (fs cut) (PathOps.str X)
              (PathOps.str (PathOps.joinpath (current_dir cut) (PathOps.name X))))
    as [[e rest] | f'].
  - subst s'.
    rewrite (@new_events_app cut _
               [Failed (Call_move (PathOps.str X)
                          (PathOps.str (PathOps.joinpath (current_dir cut)
                                                         (PathOps.name X)))) e])
      in Hin by reflexivity.
    destruct Hin as [Hev | []]. discriminate.
  - apply Hp.
Qed.

(* ----------------------------------------------------------------- *)
(** *** Text dialogs *)

(** C8. With an entry selected, submitting its own name or nothing to
    the rename dialog changes nothing at all: the command returns the
    state it started from, log and table included. *)
Theorem rename_to_same_or_empty_name_is_noop
    (s : App FS) (entry : Path) (g : InputGesture) (submitted : string) :
  selected_entry s = Some entry ->
  InputModal_dismiss g = Some submitted ->
  submitted = PathOps.name entry \/ submitted = "" ->
  command action_rename (ReplyInput g) s = (Val tt, s).
Proof.
  intros Hsel Hg Hname. unfold command, action_rename. run. rewrite Hsel.
  simpl respond. rewrite Hg. unfold rename_handle.
  destruct Hname as [-> | ->]; simpl.
  - rewrite String.eqb_refl, andb_false_r. reflexivity.
  - reflexivity.
Qed.

Lemma blank_handles (s : App FS) (entry : Path) (result : option string) :
  truthy result = false ->
  goto_handle result s = (Val tt, s) /\ new_file_handle result s = (Val tt, s)
  /\ new_dir_handle result s = (Val tt, s) /\ rename_handle entry result s = (Val tt, s).
Proof.
  intros Hr. unfold goto_handle, new_file_handle, new_dir_handle, rename_handle.
  rewrite Hr. auto.
Qed.

(** C9. The value an input dialog is confirmed with is the text without
    its leading and trailing white space: the text is that value between
    two runs of white-space characters (Unicode ones included), and the
    value neither starts nor ends with a white-space character.  When
    the text is white space only the value is the empty string, and each
    of the four text commands then does exactly what it does on
    cancellation: its callback returns the state unchanged, without any
    call to the host. *)
Theorem blank_input_is_stripped_to_cancel :
  (forall raw,
     InputModal_dismiss (PressOk raw) = Some (Str.strip raw)
     /\ InputModal_dismiss (PressEnter raw) = Some (Str.strip raw)
     /\ exists pre post,
          raw = (pre ++ Str.strip raw ++ post)%string
          /\ Str.all_space pre = true /\ Str.all_space post = true
          /\ Str.starts_clean (Str.strip raw) /\ Str.ends_clean (Str.strip raw))
  /\ (forall raw, Str.all_space raw = true ->
        InputModal_dismiss (PressOk raw) = Some ""
        /\ forall (s : App FS) (entry : Path),
             (goto_handle (InputModal_dismiss (PressOk raw)) s = (Val tt, s)
              /\ new_file_handle (InputModal_dismiss (PressOk raw)) s = (Val tt, s)
              /\ new_dir_handle (InputModal_dismiss (PressOk raw)) s = (Val tt, s)
              /\ rename_handle entry (InputModal_dismiss (PressOk raw)) s = (Val tt, s))
             /\ forall b, In b [new_file; new_dir; rename; goto] ->
                  command (action_of b) (ReplyInput (PressOk raw)) s
                  = command (action_of b) (ReplyInput PressCancel) s).
Proof.
  split.
  - intros raw. split; [reflexivity |]. split; [reflexivity |]. apply strip_spec.
  - intros raw Hblank. simpl InputModal_dismiss. unfold InputModal_confirm.
    rewrite (strip_all_space raw Hblank). split; [reflexivity |].
    intros s entry. split; [apply blank_handles; reflexivity |].
    intros b Hb. unfold command.
    destruct Hb as [<- | [<- | [<- | [<- | []]]]]; simpl action_of.
    + unfold action_new_file. run. simpl respond. unfold InputModal_confirm.
      rewrite (strip_all_space raw Hblank). reflexivity.
    + unfold action_new_dir. run. simpl respond. unfold InputModal_confirm.
      rewrite (strip_all_space raw Hblank). reflexivity.
    + unfold action_rename. run. destruct (selected_entry s); run; [| reflexivity].
      simpl respond. unfold InputModal_confirm.
      rewrite (strip_all_space raw Hblank). reflexivity.
    + unfold action_goto. run. simpl respond. unfold InputModal_confirm.
      rewrite (strip_all_space raw Hblank). reflexivity.
Qed.

(* ----------------------------------------------------------------- *)
(** *** Enumeration failures *)


(** C1 (the defect). When enumerating the current directory fails with
    anything but [PermissionError], [refresh_table] clears the table and
    lets the exception out, without a warning on the status line; the
    refresh command lets it out as well. *)
Theorem enumeration_failure_other_than_permission_escapes (s : App FS) (e : exn) :
  fs_iterdir (fs s) (current_dir s) = inl e ->
  class_eqb (exn_cls e) PermissionError = false ->
  raised refresh_table s = Some e
  /\ table (final refresh_table s) = []
  /\ status (final refresh_table s) = status s
  /\ raised (command action_refresh ReplyClose) s = Some e.
Proof.
  intros Hit Hcls. unfold command, action_refresh, raised, final, bind.
  destruct (refresh_table_run s) as (evs & _ & E). rewrite E, (listed_refused _ _ Hit), Hcls. simpl. auto.
Qed.

(* ----------------------------------------------------------------- *)
(** *** Go-to-path *)

Lemma truthy_nonempty (text : string) : text <> "" -> truthy (Some text) = true.
Proof. destruct text; [congruence | reflexivity]. Qed.

Lemma watch_current_dir_dir (p : Path) (s : App FS) :
  current_dir (final (watch_current_dir p) s) = current_dir s
  /\ fs (final (watch_current_dir p) s) = fs s.
Proof.
  unfold final, watch_current_dir. run.
  match goal with |- context [refresh_table ?x] =>
    destruct (refresh_table_cases x) as (r & s2 & evs & E & _ & _ & Hk); rewrite E
  end.
  destruct Hk as (Hfs & Hcur & _). destruct r as [[] | e]; simpl; auto.
Qed.

Lemma set_current_dir_run (p : Path) (s : App FS) :
  set_current_dir p s
  = if PathOps.eqb (current_dir s) p then (Val tt, s)
    else watch_current_dir p (with_current_dir p s).
Proof. unfold set_current_dir. run. destruct (PathOps.eqb (current_dir s) p); reflexivity. Qed.


(* ----------------------------------------------------------------- *)
(** *** Commands that change the host *)

Lemma no_events_no_failure (s s' : App FS) :
  log s' = log s -> ~ mutation_failed s s'.
Proof.
  intros Hlog (c & e & Hin & _). rewrite (@new_events_none _ _ Hlog) in Hin. contradiction.
Qed.

Lemma no_failed_mutation (s s' : App FS) (evs : list FsEvent) :
  log s' = log s ++ evs ->
  Forall (fun ev => event_failed ev = false \/ read_only ev) evs ->
  ~ mutation_failed s s'.
Proof.
  intros Hlog Hall (c & e & Hin & Hmut).
  rewrite (@new_events_app _ _ _ Hlog) in Hin.
  rewrite Forall_forall in Hall. destruct (Hall _ Hin) as [Hf | Hr].
  - discriminate.
  - unfold read_only in Hr. simpl in Hr. congruence.
Qed.

Lemma read_only_harmless (evs : list FsEvent) :
  Forall read_only evs ->
  Forall (fun ev => event_failed ev = false \/ read_only ev) evs.
Proof. apply Forall_impl. auto. Qed.

(** After a mutating call that returned, whatever the refresh does next,
    no mutating call of the command has failed. *)
Ltac mutation_returned_case :=
  match goal with |- context [refresh_table ?x] =>
    let r := fresh "r" in let s2 := fresh "s2" in let evs := fresh "evs" in
    let E := fresh "E" in let Hro := fresh "Hro" in let Hlog := fresh "Hlog" in
    destruct (refresh_table_cases x) as (r & s2 & evs & E & Hro & Hlog & _);
    rewrite E; simpl in Hlog; rewrite <- ?app_assoc in Hlog; simpl in Hlog;
    intros Hfail; exfalso; revert Hfail;
    destruct r as [[] | ?]; run; try (destruct (class_eqb _ _));
    (eapply no_failed_mutation;
     [ cbn [snd log with_status]; exact Hlog
     | repeat (apply Forall_cons; [left; reflexivity |]);
       apply read_only_harmless; exact Hro ])
  end.

(** The command returned and changed the status line only, to a warning. *)
Ltac only_status :=
  split; [reflexivity |];
  split; [unfold same_view; cbn [fs current_dir show_hidden clipboard clipboard_op
                                  path_bar tree_path table cursor_row _row_entries
                                  snd with_status with_log record];
          auto 12
         | vm_compute; reflexivity ].

(** C2 (amended). For new file, new directory, rename, delete and paste:
    when the mutating call of the command fails, the command returns,
    the current directory, the hidden flag, the clipboard and the table
    with its cursor and entries are what they were, and the status line
    carries a warning. *)
Theorem failed_mutation_changes_only_the_status (c : MutatingCommand) (s : App FS) :
  mutation_failed s (final (mutating c) s) ->
  raised (mutating c) s = None
  /\ same_view s (final (mutating c) s)
  /\ Str.startswith (status (final (mutating c) s)) "⚠" = true.
Proof.
  unfold raised, final.
  destruct c as [result | result | entry result | entry confirmed |]; simpl mutating.
  - unfold new_file_handle. destruct (truthy result).
    2: { intros Hf. exfalso. revert Hf. apply no_events_no_failure. reflexivity. }
    run. destruct (fs_touch (fs s) _) as [[e rest] | f'].
    + intros _. run. destruct (class_eqb (exn_cls e) FileExistsError); only_status.
    + mutation_returned_case.
  - unfold new_dir_handle. destruct (truthy result).
    2: { intros Hf. exfalso. revert Hf. apply no_events_no_failure. reflexivity. }
    run. destruct (fs_mkdir (fs s) _) as [[e rest] | f'].
    + intros _. run. destruct (class_eqb (exn_cls e) FileExistsError); only_status.
    + mutation_returned_case.
  - unfold rename_handle. destruct (truthy result && _).
    2: { intros Hf. exfalso. revert Hf. apply no_events_no_failure. reflexivity. }
    run. destruct (fs_rename (fs s) entry _) as [[e rest] | f'].
    + intros _. run. only_status.
    + mutation_returned_case.
  - unfold delete_handle. destruct confirmed.
    2: { intros Hf. exfalso. revert Hf. apply no_events_no_failure. reflexivity. }
    run. destruct (fs_is_dir (fs s) entry) as [e0 | [|]]; run; rewrite ?fs_record.
    + intros _. only_status.
    + destruct (fs_rmtree (fs s) entry) as [[e rest] | f'].
      * intros _. run. only_status.
      * mutation_returned_case.
    + destruct (fs_unlink (fs s) entry) as [[e rest] | f'].
      * intros _. run. only_status.
      * mutation_returned_case.
  - pose proof (paste_cases s) as Hp. unfold bind.
    destruct (clipboard s) as [src |].
    2: { rewrite Hp. intros Hf. exfalso. revert Hf.
         apply no_events_no_failure. reflexivity. }
    cbv zeta in Hp.
    destruct (PathOps.eqb (PathOps.joinpath (current_dir s) (PathOps.name src)) src).
    { rewrite Hp. intros Hf. exfalso. revert Hf.
      apply no_events_no_failure. reflexivity. }
    destruct Hp as (s' & evs & E & Hp). rewrite E. cbv beta iota.
    destruct (String.eqb (clipboard_op s) "cut").
    + destruct (fs_move (fs s) _ _) as [[e rest] | f'].
      * subst s'. intros _. only_status.
      * destruct Hp as (Hro & Hlog & _). intros Hf. exfalso. revert Hf.
        eapply no_failed_mutation; [exact Hlog |].
        repeat (apply Forall_cons; [left; reflexivity |]).
        apply read_only_harmless; exact Hro.
    + destruct (fs_is_dir (fs s) src) as [e0 | d]; [subst s'; intros _; only_status |].
      cbv zeta in Hp. destruct (if d then _ else _) as [[e rest] | f'].
      * subst s'. intros _. only_status.
      * destruct Hp as (Hro & Hlog & _). intros Hf. exfalso. revert Hf.
        eapply no_failed_mutation; [exact Hlog |].
        repeat (apply Forall_cons; [left; reflexivity |]).
        apply read_only_harmless; exact Hro.
Qed.

End Properties.


(* ================================================================= *)
(** * The properties on the sample host *)

Section Sample.

Import Disk.

Ltac in_list := repeat first [left; reflexivity | right].

(** The click on the stale tree node ends the run with the exception. *)
Example stale_tree_click_raises : raised (run stale_tree_click) in_home = Some not_found.
Proof. vm_compute. reflexivity. Qed.

(** C1: the property fails in [docs_gone]. *)
Example enumeration_failure_not_contained : ~ enumeration_failure_contained docs_gone.
Proof.
  intros Hc. destruct (Hc not_found) as (Hr & _); [vm_compute; reflexivity |].
  vm_compute in Hr. discriminate.
Qed.

Lemma enumeration_failure_escapes_witness :
  fs_iterdir (fs docs_gone) (current_dir docs_gone) = inl not_found
  /\ raised refresh_table docs_gone = Some not_found
  /\ table (final refresh_table docs_gone) = []
  /\ status (final refresh_table docs_gone) = status docs_gone
  /\ raised (command action_refresh ReplyClose) docs_gone = Some not_found.
Proof.
  split; [vm_compute; reflexivity |].
  apply (@enumeration_failure_other_than_permission_escapes _ _ docs_gone not_found);
    vm_compute; reflexivity.
Defined.

(** C2: toggling the hidden flag where listing is refused flips the flag
    although the enumeration call of the command failed. *)
Lemma toggle_hidden_is_not_rolled_back :
  ~ all_or_nothing (command action_toggle_hidden ReplyClose) in_locked.
Proof.
  intros Hc. destruct Hc as (_ & Hhidden & _).
  - exists (Call_iterdir (abs ["locked"])),
           (Exn PermissionError "[Errno 13] Permission denied").
    split; [vm_compute; in_list | reflexivity].
  - vm_compute in Hhidden. discriminate.
Qed.

Lemma failed_mutation_witness :
  mutation_failed in_home (final (mutating (NewFile (Some "a.txt"))) in_home)
  /\ raised (mutating (NewFile (Some "a.txt"))) in_home = None
  /\ same_view in_home (final (mutating (NewFile (Some "a.txt"))) in_home)
  /\ Str.startswith (status (final (mutating (NewFile (Some "a.txt"))) in_home)) "⚠" = true.
Proof.
  assert (Hf : mutation_failed in_home (final (mutating (NewFile (Some "a.txt"))) in_home)).
  { exists (Call_touch a_txt), (Exn FileExistsError "[Errno 17] File exists").
    split; [vm_compute; in_list | reflexivity]. }
  split; [exact Hf |].
  exact (@failed_mutation_changes_only_the_status _ _ (NewFile (Some "a.txt")) in_home Hf).
Defined.



Lemma cut_paste_witness :
  let cut := with_clipboard_op "cut" (with_clipboard (Some a_txt) in_docs) in
  let copy := with_clipboard_op "copy" (with_clipboard (Some a_txt) in_docs) in
  mutation_returned cut (final action_paste_item cut)
  /\ clipboard (final action_paste_item cut) = None
  /\ clipboard (final (pastes 2) copy) = Some a_txt
  /\ clipboard_op (final (pastes 2) copy) = "copy".
Proof.
  intros cut copy.
  assert (Hm : mutation_returned cut (final action_paste_item cut)).
  { exists (Call_move "/home/u/a.txt" "/home/u/Docs/a.txt").
    split; [vm_compute; in_list | reflexivity]. }
  destruct (@cut_paste_clears_copy_paste_keeps _ _ in_docs a_txt) as [Hcut Hcopy].
  split; [exact Hm |]. split; [exact (Hcut Hm) |]. exact (proj2 (Hcopy 2)).
Defined.

Lemma paste_same_place_witness :
  clipboard copied_here = Some a_txt
  /\ raised action_paste_item copied_here = None
  /\ new_events copied_here (final action_paste_item copied_here) = []
  /\ fs (final action_paste_item copied_here) = fs copied_here
  /\ same_view copied_here (final action_paste_item copied_here)
  /\ status (final action_paste_item copied_here)
     = "⚠  Source and destination are the same.".
Proof.
  split; [vm_compute; reflexivity |].
  apply (@paste_empty_or_same_place_is_rejected _ _ copied_here).
  right. right. exists a_txt.
  split; [vm_compute; reflexivity |]. split; [discriminate |].
  split; [repeat split; discriminate || reflexivity | vm_compute; reflexivity].
Defined.

Lemma listing_order_witness :
  exists entries,
    _row_entries (final refresh_table in_home) = Some entries
    /\ map row_name (table (final refresh_table in_home)) = map PathOps.name entries
    /\ forall i j a b,
         i < j -> nth_error entries i = Some a -> nth_error entries j = Some b ->
         exists da db,
           fs_is_dir (fs in_home) a = inr da /\ fs_is_dir (fs in_home) b = inr db
           /\ (db = true -> da = true)
           /\ (da = db ->
               String.leb (str_lower (PathOps.name a)) (str_lower (PathOps.name b)) = true
               /\ (Str.is_ascii (PathOps.name a) = true ->
                   Str.is_ascii (PathOps.name b) = true ->
                   String.leb (Str.ascii_lower (PathOps.name a))
                              (Str.ascii_lower (PathOps.name b)) = true)).
Proof.
  eapply (@listing_directories_first_then_names _ _ in_home); vm_compute; reflexivity.
Defined.

Lemma hidden_entries_witness :
  raised refresh_table (with_show_hidden false in_home) = None
  /\ exists (entries : list Path) (row : Path -> Row),
       Permutation entries
         [abs ["home"; "u"; "b.md"]; abs ["home"; "u"; ".hidden"]; a_txt;
          abs ["home"; "u"; "Docs"]]
       /\ _row_entries (final refresh_table (with_show_hidden true in_home)) = Some entries
       /\ table (final refresh_table (with_show_hidden true in_home)) = map row entries
       /\ _row_entries (final refresh_table (with_show_hidden false in_home))
          = Some (filter (fun p => negb (is_hidden p)) entries)
       /\ table (final refresh_table (with_show_hidden false in_home))
          = map row (filter (fun p => negb (is_hidden p)) entries).
Proof.
  apply (@hidden_entries_filtered _ _ in_home); vm_compute; reflexivity.
Defined.

Lemma rename_noop_witness :
  selected_entry on_a_txt = Some a_txt
  /\ command action_rename (ReplyInput (PressOk "  a.txt ")) on_a_txt = (Val tt, on_a_txt).
Proof.
  split; [vm_compute; reflexivity |].
  apply (@rename_to_same_or_empty_name_is_noop _ _ on_a_txt a_txt (PressOk "  a.txt ") "a.txt").
  - vm_compute. reflexivity.
  - vm_compute. reflexivity.
  - left. reflexivity.
Defined.

(** A blank, U+00A0 and U+3000 around [x y], and U+2003 with a tab. *)
Lemma blank_input_witness :
  let nbsp := String (ascii_of_nat 194) (String (ascii_of_nat 160) "") in
  let wide := String (ascii_of_nat 227) (String (ascii_of_nat 128)
                (String (ascii_of_nat 128) "")) in
  let em := String (ascii_of_nat 226) (String (ascii_of_nat 128)
              (String (ascii_of_nat 131) "")) in
  let tab := String (ascii_of_nat 9) "" in
  InputModal_dismiss (PressOk (" " ++ nbsp ++ "x y" ++ wide ++ " ")) = Some "x y"
  /\ InputModal_dismiss (PressOk (em ++ tab)) = Some ""
  /\ new_file_handle (InputModal_dismiss (PressOk (em ++ tab))) in_home = (Val tt, in_home)
  /\ command (action_of goto) (ReplyInput (PressOk (em ++ tab))) in_home
     = command (action_of goto) (ReplyInput PressCancel) in_home.
Proof.
  intros nbsp wide em tab.
  split; [vm_compute; reflexivity |].
  destruct (proj2 (@blank_input_is_stripped_to_cancel Disk.t _) (em ++ tab)%string eq_refl)
    as (Hempty & Hblank).
  destruct (Hblank in_home a_txt) as ((_ & Hnew & _) & Hcmd).
  split; [exact Hempty |]. split; [exact Hnew |].
  apply Hcmd. simpl. auto.
Defined.

(** C10: with a directory named [a.txt] already in [Docs], pasting the
    file [/home/u/a.txt] there creates [/home/u/Docs/a.txt/a.txt] and
    nothing else: the copy is not an entry of the current directory. *)
Lemma paste_nests_in_an_existing_directory : ~ paste_stays_in_current_dir name_taken.
Proof.
  intros Hc.
  destruct (Hc a_txt (abs ["home"; "u"; "Docs"; "a.txt"; "a.txt"]))
    as [[Hparent _] | (q & [Hin Hnew] & Hne & _)].
  - vm_compute. reflexivity.
  - split; [vm_compute; in_list |].
    vm_compute. intros Hin. repeat (destruct Hin as [Hin | Hin]; [discriminate |]).
    exact Hin.
  - vm_compute in Hparent. discriminate.
  - vm_compute in Hin.
    repeat (destruct Hin as [<- | Hin];
            [first [ apply Hne; reflexivity | apply Hnew; vm_compute; in_list ] |]).
    exact Hin.
Qed.

Lemma paste_destination_witness :
  clipboard in_docs = Some a_txt
  /\ PathOps.name (PathOps.joinpath (current_dir in_docs) (PathOps.name a_txt)) = "a.txt"
  /\ PathOps.parent (PathOps.joinpath (current_dir in_docs) (PathOps.name a_txt))
     = current_dir in_docs.
Proof.
  split; [vm_compute; reflexivity |].
  apply (proj2 (@paste_destination_is_current_dir_with_source_name _ _ in_docs a_txt
                  ltac:(vm_compute; reflexivity))).
  repeat split; discriminate || reflexivity.
Defined.

End Sample.

(* ================================================================= *)
(** * Further properties of the code *)

Section Further.

Context {FS : Type} `{FileSystem FS}.

Ltac unfold_monad :=
  cbv beta iota zeta delta
    [bind ret raise gets modify try_except find_clause existsb isinstance
     set_status set_clipboard set_clipboard_op set_show_hidden watch_clipboard
     option_path_eqb query mutate Path_is_dir Path_exists Path_stat
     Path_touch Path_mkdir Path_rename Path_unlink shutil_rmtree shutil_move
     shutil_copytree shutil_copy2 Path_write_text Path_expanduser orb].

(* ----------------------------------------------------------------- *)
(** *** Composing quiet computations *)

Lemma quiet_ret {A} (a : A) : quiet (ret (FS := FS) a).
Proof. intros s. split; [reflexivity |]. exists []. simpl. rewrite app_nil_r. auto. Qed.

Lemma quiet_gets {A} (f : App FS -> A) : quiet (gets f).
Proof. intros s. split; [reflexivity |]. exists []. simpl. rewrite app_nil_r. auto. Qed.

Lemma quiet_modify (f : App FS -> App FS) :
  (forall s, fs (f s) = fs s /\ log (f s) = log s) -> quiet (modify f).
Proof.
  intros Hf s. destruct (Hf s) as [Hfs Hlog]. split; [exact Hfs |].
  exists []. simpl. rewrite app_nil_r. auto.
Qed.

Lemma quiet_set_status (msg : string) : quiet (set_status (FS := FS) msg).
Proof. apply quiet_modify. intros s. split; reflexivity. Qed.

Lemma quiet_bind {A B} (m : M FS A) (k : A -> M FS B) :
  quiet m -> (forall a, quiet (k a)) -> quiet (bind m k).
Proof.
  intros Hm Hk s. unfold bind. destruct (Hm s) as (F1 & evs1 & E1 & P1).
  destruct (m s) as [[a | e] s1]; simpl in *.
  - destruct (Hk a s1) as (F2 & evs2 & E2 & P2). split; [congruence |].
    exists (evs1 ++ evs2). rewrite E2, E1, app_assoc.
    split; [reflexivity | apply Forall_app; auto].
  - split; [exact F1 |]. exists evs1. auto.
Qed.

Lemma quiet_try_except {A} (body : M FS A)
    (clauses : list (list exn_class * (exn -> M FS A))) :
  quiet body ->
  Forall (fun clause => forall e, quiet (snd clause e)) clauses ->
  quiet (try_except body clauses).
Proof.
  intros Hb Hc s. unfold try_except. destruct (Hb s) as (F1 & evs1 & E1 & P1).
  destruct (body s) as [[a | e] s1]; simpl in *; [split; [exact F1 | exists evs1; auto] |].
  assert (Hfind : forall h, find_clause e clauses = Some h -> quiet (h e)).
  { clear - Hc. induction Hc as [| [classes handler] rest Hh _ IH]; simpl; [discriminate |].
    intros h. destruct (existsb (isinstance e) classes); [| apply IH].
    intros Eh; inversion Eh; subst. apply Hh. }
  destruct (find_clause e clauses) as [h |]; [| split; [exact F1 | exists evs1; auto]].
  destruct (Hfind h eq_refl s1) as (F2 & evs2 & E2 & P2). split; [congruence |].
  exists (evs1 ++ evs2). rewrite E2, E1, app_assoc.
  split; [reflexivity | apply Forall_app; auto].
Qed.

Lemma quiet_query {A} (c : FsCall) (f : FS -> exn + A) :
  is_mutation c = false -> quiet (query c f).
Proof.
  intros Hc s. unfold query. destruct (f (fs s)) as [e | a]; simpl.
  - split; [reflexivity |]. exists [Failed c e].
    split; [reflexivity | repeat constructor; exact Hc].
  - split; [reflexivity |]. exists [Returned c].
    split; [reflexivity | repeat constructor; exact Hc].
Qed.

Lemma quiet_refresh_table : quiet (refresh_table (FS := FS)).
Proof.
  intros s. destruct (refresh_table_cases s) as (r & s' & evs & E & Hro & Hlog & Hk).
  rewrite E. simpl. split; [apply Hk | exists evs; auto].
Qed.

(** Split a goal [quiet m] along the structure of [m]. *)
Ltac quiet :=
  repeat first
    [ apply quiet_ret | apply quiet_gets | apply quiet_set_status
    | apply quiet_refresh_table
    | apply quiet_query; reflexivity
    | apply quiet_modify; intros ?; split; reflexivity
    | apply quiet_bind; [| intros ?]
    | apply quiet_try_except; [| repeat constructor; intros ?]
    | match goal with
      | |- quiet (if ?b then _ else _) => destruct b
      | |- quiet (match ?x with Some _ => _ | None => _ end) => destruct x
      | |- quiet (match ?x with inl _ => _ | inr _ => _ end) => destruct x
      end ].

Lemma quiet_watch_current_dir (p : Path) : quiet (watch_current_dir (FS := FS) p).
Proof. unfold watch_current_dir. quiet. Qed.

Lemma quiet_set_current_dir (p : Path) : quiet (set_current_dir (FS := FS) p).
Proof. unfold set_current_dir. quiet. Qed.

Lemma quiet_set_clipboard (c : option Path) : quiet (set_clipboard (FS := FS) c).
Proof. unfold set_clipboard, watch_clipboard. quiet. Qed.

Lemma quiet_goto_handle (result : option string) : quiet (goto_handle (FS := FS) result).
Proof.
  unfold goto_handle, Path_expanduser, Path_is_dir. quiet.
Qed.

Lemma quiet_declined (s : App FS) (entry : Path) (result : option string) :
  truthy result = false ->
  new_file_handle result s = (Val tt, s) /\ new_dir_handle result s = (Val tt, s)
  /\ rename_handle entry result s = (Val tt, s).
Proof.
  intros Hr. unfold new_file_handle, new_dir_handle, rename_handle. rewrite Hr. auto.
Qed.

Lemma quiet_same (s : App FS) :
  fs s = fs s /\ exists evs, log s = log s ++ evs /\ Forall read_only evs.
Proof. split; [reflexivity |]. exists []. rewrite app_nil_r. auto. Qed.

(** A command whose action pushes no modal with a callback is as quiet
    as the action. *)
Lemma quiet_command (action : M FS (Pending (FS := FS))) (r : Reply) :
  quiet action ->
  (forall s, match fst (action s) with
             | Val (PushInput _ _ _ _) | Val (PushConfirm _ _) | Val (PushEdit _ _) => False
             | _ => True
             end) ->
  quiet (command action r).
Proof.
  intros Hq Hno s. unfold command, bind. specialize (Hno s).
  destruct (Hq s) as (F1 & evs & E & P). destruct (action s) as [[pending | e] s1];
    simpl in *; [| split; [exact F1 | exists evs; auto]].
  destruct pending; try contradiction; destruct r; simpl;
    (split; [exact F1 | exists evs; auto]).
Qed.

(** X1. Navigation, listing, copying, the information screen and every
    dialog that is cancelled or left empty never write: the host is what
    it was and every call made is a read. *)
Theorem only_confirmed_commands_write (ev : Event) :
  may_write ev = false -> quiet (dispatch (FS := FS) ev).
Proof.
  intros Hw. destruct ev as [b r | p | | i]; unfold dispatch.
  - unfold command. destruct b; simpl action_of; simpl in Hw; try discriminate.
    + (* new_file *)
      intros s. unfold action_new_file. unfold_monad. simpl respond.
      destruct r as [g | | |]; simpl; try apply quiet_same.
      destruct (@quiet_declined s (mkPath false []) _ Hw) as (E & _). rewrite E. apply quiet_same.
    + intros s. unfold action_new_dir. unfold_monad. simpl respond.
      destruct r as [g | | |]; simpl; try apply quiet_same.
      destruct (@quiet_declined s (mkPath false []) _ Hw) as (_ & E & _). rewrite E. apply quiet_same.
    + intros s. unfold action_rename. unfold_monad.
      destruct (selected_entry s) as [entry |]; unfold_monad;
        [| split; [reflexivity | exists []; simpl; rewrite app_nil_r; auto]].
      simpl respond. destruct r as [g | | |]; simpl; try apply quiet_same.
      destruct (@quiet_declined s entry _ Hw) as (_ & _ & E). rewrite E. apply quiet_same.
    + intros s. unfold action_delete. unfold_monad.
      destruct (selected_entry s) as [entry |]; unfold_monad;
        [| split; [reflexivity | exists []; simpl; rewrite app_nil_r; auto]].
      simpl respond. destruct r as [| yes | |]; simpl; try apply quiet_same.
      subst yes. apply quiet_same.
    + apply quiet_command.
      * unfold action_copy_item. quiet.
      * intros s. unfold action_copy_item, set_clipboard. unfold_monad.
        destruct (selected_entry s); unfold_monad; simpl; [| exact I].
        destruct (match clipboard s with Some _ => _ | None => _ end); exact I.
    + intros s. unfold action_edit_file. unfold_monad.
      destruct (selected_entry s) as [entry |]; unfold_monad.
      2: { destruct r; simpl; (split; [reflexivity |]);
           exists []; simpl; rewrite app_nil_r; auto. }
      destruct (fs_is_dir (fs s) entry) as [e | [|]]; unfold_monad.
      * destruct r; simpl; (split; [reflexivity |]);
          exists [Failed (Call_is_dir entry) e]; (split; [reflexivity | repeat constructor]).
      * destruct r; simpl; (split; [reflexivity |]);
          exists [Returned (Call_is_dir entry)]; (split; [reflexivity | repeat constructor]).
      * destruct r as [| | [content |] |]; try discriminate; simpl;
          (split; [reflexivity |]);
          exists [Returned (Call_is_dir entry)]; (split; [reflexivity | repeat constructor]).
    + apply quiet_command.
      * unfold action_file_info. quiet.
      * intros s. unfold action_file_info. unfold_monad.
        destruct (selected_entry s); exact I.
    + apply quiet_command.
      * unfold action_toggle_hidden, set_show_hidden. quiet.
      * intros s. unfold action_toggle_hidden. unfold_monad.
        destruct (refresh_table _) as [[[] | ?] ?]; exact I.
    + apply quiet_command.
      * unfold action_refresh. quiet.
      * intros s. unfold action_refresh. unfold_monad.
        destruct (refresh_table _) as [[[] | ?] ?]; exact I.
    + intros s. unfold action_goto. unfold_monad. simpl respond.
      destruct r as [g | | |]; simpl; try apply quiet_same.
      apply quiet_goto_handle.
    + apply quiet_command.
      * unfold action_go_up. quiet.
      * intros s. unfold action_go_up. unfold_monad.
        destruct (negb _); unfold_monad; [| exact I].
        destruct (set_current_dir _ _) as [[[] | ?] ?]; exact I.
  - unfold on_dir_selected. apply quiet_set_current_dir.
  - unfold on_row_selected, Path_is_dir. quiet.
  - unfold move_cursor. quiet.
Qed.

(* ----------------------------------------------------------------- *)
(** *** Refreshing *)

(** X2. Refreshing twice is refreshing once: the second refresh ends the
    way the first did and leaves the same rows, cursor, row entries and
    status. *)
Theorem refresh_twice_is_refresh_once (s : App FS) :
  let s1 := final refresh_table s in
  let s2 := final refresh_table s1 in
  raised refresh_table s1 = raised refresh_table s
  /\ table s2 = table s1 /\ cursor_row s2 = cursor_row s1
  /\ _row_entries s2 = _row_entries s1 /\ status s2 = status s1.
Proof.
  unfold final, raised.
  destruct (refresh_table_run s) as (evs & _ & E). rewrite E. clear E.
  destruct (listed (fs s) (current_dir s)) as [e | entries] eqn:Hit.
  - destruct (class_eqb (exn_cls e) PermissionError) eqn:Hcls; simpl snd; simpl fst;
      match goal with |- context [refresh_table ?x] =>
        destruct (refresh_table_run x) as (evs' & _ & E'); rewrite E'; clear E'
      end; simpl fs; simpl current_dir; rewrite Hit, Hcls; simpl; auto.
  - cbv zeta.
    destruct (snd (rows_of (fs s) (filter (visible (show_hidden s)) entries))) eqn:Hrows;
      simpl snd; simpl fst;
      match goal with |- context [refresh_table ?x] =>
        destruct (refresh_table_run x) as (evs' & _ & E'); rewrite E'; clear E'
      end; simpl fs; simpl current_dir; simpl show_hidden; rewrite Hit; cbv zeta;
      rewrite Hrows; simpl; auto.
Qed.

Lemma rows_of_pairs (f : FS) (l : list Path) :
  Forall (fun pr => row_of f (fst pr) = inr (snd pr)) (fst (rows_of f l)).
Proof.
  induction l as [| p l IH]; simpl; [constructor |].
  destruct (row_of f p) as [e | row] eqn:Hrow; simpl; [constructor |].
  destruct (rows_of f l) as [built o]; simpl in *. constructor; auto.
Qed.

(** X3. When the directory is enumerated, [is_dir] answers for every
    enumerated path and [refresh_table] returns, there is one row per
    listed entry, each listed entry was enumerated, the status line
    counts the rows of the table, the cursor is on the first row and the
    selected entry is the first listed entry (none when the listing is
    empty). *)
Theorem built_listing_is_counted_and_selected (s : App FS) (it : list Path) :
  fs_iterdir (fs s) (current_dir s) = inr it ->
  forallb (is_dir_answers (fs s)) it = true ->
  raised refresh_table s = None ->
  let s' := final refresh_table s in
  exists entries,
    _row_entries s' = Some entries
    /\ List.length (table s') = List.length entries
    /\ (forall e, In e entries -> In e it)
    /\ status s' = items_status s (List.length (table s'))
    /\ cursor_row s' = 0%Z
    /\ selected_entry s' = hd_error entries.
Proof.
  intros Hit Hall. unfold raised, final.
  destruct (listed_answered _ _ Hit Hall) as (sorted & Hlisted & Hsort).
  destruct (refresh_table_run s) as (evs & _ & E). rewrite E, Hlisted. clear E. cbv zeta.
  set (vis := filter (visible (show_hidden s)) sorted).
  destruct (rows_of_prefix (fs s) vis) as (rest & Hvis & _).
  destruct (snd (rows_of (fs s) vis)); simpl; [discriminate |]. intros _.
  exists (map fst (fst (rows_of (fs s) vis))).
  split; [reflexivity |]. split; [rewrite !length_map; reflexivity |].
  split.
  { intros e He.
    apply (Permutation_in _ (sorted_entries_perm _ _ Hsort)).
    assert (Hin : In e vis) by (rewrite Hvis; apply in_or_app; auto).
    unfold vis in Hin. apply filter_In in Hin. apply Hin. }
  split; [rewrite length_map; reflexivity |]. split; [reflexivity |].
  unfold selected_entry; simpl. rewrite length_map.
  destruct (fst (rows_of (fs s) vis)); reflexivity.
Qed.

Lemma no_selection_no_action (s : App FS) :
  selected_entry s = None ->
  action_rename s = (Val NoScreen, with_status "⚠  No item selected." s)
  /\ action_delete s = (Val NoScreen, with_status "⚠  No item selected." s)
  /\ action_copy_item s = (Val NoScreen, with_status "⚠  No item selected." s)
  /\ action_file_info s = (Val NoScreen, with_status "⚠  No item selected." s)
  /\ action_edit_file s = (Val NoScreen, with_status "⚠  No item selected." s).
Proof.
  intros Hsel.
  unfold action_rename, action_delete, action_copy_item, action_file_info,
    action_edit_file. unfold_monad. rewrite Hsel. auto 6.
Qed.

(** X4. After a listing that was refused the row entries of the previous
    directory are still stored, but nothing is selected: rename, delete,
    copy, info and edit only answer "No item selected". *)
Theorem refused_listing_selects_nothing (s : App FS) (e : exn) :
  fs_iterdir (fs s) (current_dir s) = inl e ->
  exn_cls e = PermissionError ->
  let s' := final refresh_table s in
  _row_entries s' = _row_entries s
  /\ selected_entry s' = None
  /\ action_rename s' = (Val NoScreen, with_status "⚠  No item selected." s')
  /\ action_delete s' = (Val NoScreen, with_status "⚠  No item selected." s')
  /\ action_copy_item s' = (Val NoScreen, with_status "⚠  No item selected." s')
  /\ action_file_info s' = (Val NoScreen, with_status "⚠  No item selected." s')
  /\ action_edit_file s' = (Val NoScreen, with_status "⚠  No item selected." s').
Proof.
  intros Hit Hcls s'.
  assert (Hs' : _row_entries s' = _row_entries s /\ selected_entry s' = None).
  { unfold s', final. destruct (refresh_table_run s) as (evs & _ & E).
    rewrite E, (listed_refused _ _ Hit), Hcls. simpl. auto. }
  destruct Hs' as [Hrows Hsel]. split; [exact Hrows |]. split; [exact Hsel |].
  apply no_selection_no_action. exact Hsel.
Qed.

Lemma file_icon_is_not_the_folder (p : Path) : _file_icon p <> "📁".
Proof.
  unfold _file_icon. generalize (str_lower (PathOps.suffix p)). intros k.
  unfold icons. cbn [dict_get].
  repeat match goal with
         | |- (if String.eqb k ?x then _ else _) <> _ =>
             destruct (String.eqb k x); [discriminate |]
         end.
  discriminate.
Qed.

(** X5. In a listing that was enumerated, a row carries the folder icon
    exactly when its entry is a directory. *)
Theorem folder_icon_marks_directories (s : App FS) (it : list Path) :
  fs_iterdir (fs s) (current_dir s) = inr it ->
  forall entries i e row,
    _row_entries (final refresh_table s) = Some entries ->
    nth_error entries i = Some e ->
    nth_error (table (final refresh_table s)) i = Some row ->
    (row_icon row = "📁" <-> fs_is_dir (fs s) e = inr true).
Proof.
  intros Hit entries i e row. unfold final.
  destruct (refresh_table_run s) as (evs & _ & E). rewrite E. clear E.
  destruct (listed (fs s) (current_dir s)) as [err | sorted].
  { destruct (class_eqb (exn_cls err) PermissionError); simpl;
      intros _ _ Hrow; destruct i; discriminate. }
  cbv zeta.
  set (built := fst (rows_of (fs s) (filter (visible (show_hidden s)) sorted))).
  assert (Hpairs : Forall (fun pr => row_of (fs s) (fst pr) = inr (snd pr)) built)
    by apply rows_of_pairs.
  assert (Hgoal : Some (map fst built) = Some entries ->
                  nth_error entries i = Some e ->
                  nth_error (map snd built) i = Some row ->
                  (row_icon row = "📁" <-> fs_is_dir (fs s) e = inr true)).
  { intros Hen He Hrow. inversion Hen; subst entries. clear Hen.
    rewrite nth_error_map in He, Hrow.
    destruct (nth_error built i) as [[e' row'] |] eqn:Hi; [| discriminate].
    simpl in He, Hrow. inversion He; inversion Hrow; subst.
    rewrite Forall_forall in Hpairs. apply nth_error_In in Hi.
    specialize (Hpairs _ Hi). simpl in Hpairs. unfold row_of, icon_of in Hpairs.
    destruct (fs_is_dir (fs s) e) as [err | d]; [discriminate |].
    destruct (size_of (fs s) e); [discriminate |]. inversion Hpairs; subst. simpl.
    destruct d.
    - split; reflexivity.
    - split; [intros Hi'; exfalso; exact (file_icon_is_not_the_folder e Hi') | discriminate]. }
  destruct (snd (rows_of _ _)); simpl; exact Hgoal.
Qed.

(* ----------------------------------------------------------------- *)
(** *** Navigation *)

Lemma set_current_dir_sets (p : Path) (s : App FS) :
  current_dir (snd (set_current_dir p s)) = p.
Proof.
  rewrite set_current_dir_run.
  destruct (PathOps.eqb (current_dir s) p) eqn:Heq.
  - apply path_eqb_eq in Heq. exact Heq.
  - destruct (watch_current_dir_dir p (with_current_dir p s)) as [Hc _]. exact Hc.
Qed.

Lemma removelast_shorter (X : Type) (l : list X) :
  l <> [] -> List.length (removelast l) + 1 = List.length l.
Proof.
  intros Hl. destruct (exists_last Hl) as (l' & a & ->).
  rewrite removelast_last, length_app. reflexivity.
Qed.

(** X6. Go-up at a root (or at the relative path without components)
    changes nothing at all; anywhere else the current directory becomes
    its parent, one component shorter, whether or not the parent can then
    be listed. *)
Theorem go_up_stops_at_the_root (s : App FS) :
  (parts (current_dir s) = [] -> action_go_up s = (Val NoScreen, s))
  /\ (parts (current_dir s) <> [] ->
      current_dir (final action_go_up s) = PathOps.parent (current_dir s)
      /\ List.length (parts (current_dir (final action_go_up s))) + 1
         = List.length (parts (current_dir s))).
Proof.
  split.
  - intros Hroot. unfold action_go_up. unfold_monad.
    assert (Hp : PathOps.parent (current_dir s) = current_dir s).
    { unfold PathOps.parent. rewrite Hroot. destruct (current_dir s); simpl in *; subst; reflexivity. }
    rewrite Hp, path_eqb_refl. reflexivity.
  - intros Hn.
    assert (Hne : PathOps.eqb (PathOps.parent (current_dir s)) (current_dir s) = false).
    { destruct (PathOps.eqb _ _) eqn:Heq; [| reflexivity].
      apply path_eqb_eq in Heq. pose proof (removelast_shorter Hn) as Hlen.
      apply (f_equal parts) in Heq. simpl in Heq. rewrite Heq in Hlen. lia. }
    assert (Hcur : current_dir (final action_go_up s) = PathOps.parent (current_dir s)).
    { unfold final, action_go_up. unfold_monad. rewrite Hne.
      change (negb false) with true. cbv beta iota.
      pose proof (set_current_dir_sets (PathOps.parent (current_dir s)) s) as Hset.
      destruct (set_current_dir _ s) as [[[] | e] s1]; simpl in *; exact Hset. }
    split; [exact Hcur |]. rewrite Hcur. simpl. apply removelast_shorter. exact Hn.
Qed.

(** X7. Enter on a table row: with nothing selected nothing happens;
    on a file only the probe is logged; on a directory that entry
    becomes the current directory; and when [is_dir] raises, the
    exception leaves the handler with nothing changed. *)
Theorem enter_opens_directories_only (s : App FS) :
  (selected_entry s = None -> on_row_selected s = (Val tt, s))
  /\ (forall e, selected_entry s = Some e -> fs_is_dir (fs s) e = inr false ->
        on_row_selected s = (Val tt, record (Returned (Call_is_dir e)) s))
  /\ (forall e, selected_entry s = Some e -> fs_is_dir (fs s) e = inr true ->
        current_dir (final on_row_selected s) = e
        /\ fs (final on_row_selected s) = fs s)
  /\ (forall e err, selected_entry s = Some e -> fs_is_dir (fs s) e = inl err ->
        on_row_selected s = (Exc err, record (Failed (Call_is_dir e) err) s)).
Proof.
  unfold final, on_row_selected. unfold_monad.
  split; [intros ->; reflexivity |].
  split; [intros e -> Hd; rewrite Hd; reflexivity |].
  split; [| intros e err -> Hd; rewrite Hd; reflexivity].
  intros e -> Hd; rewrite Hd.
  split; [apply set_current_dir_sets |].
  destruct (quiet_set_current_dir e (record (Returned (Call_is_dir e)) s)) as [Hfs _].
  exact Hfs.
Qed.

(* ----------------------------------------------------------------- *)
(** *** [Path(str(p))] *)

Lemma split_on_segment (sep : ascii) (c rest : string) :
  Str.rfind sep c = None ->
  Str.split_on sep (c ++ String sep rest) = c :: Str.split_on sep rest.
Proof.
  induction c as [| a c IH]; simpl.
  - intros _. rewrite Ascii.eqb_refl. reflexivity.
  - destruct (Str.rfind sep c); [discriminate |].
    destruct (Ascii.eqb a sep); [discriminate |].
    intros _. rewrite IH; reflexivity.
Qed.

Lemma split_on_concat (ps : list string) :
  ps <> [] -> Forall PathOps.plain_name ps ->
  Str.split_on "/"%char (String.concat "/" ps) = ps.
Proof.
  induction ps as [| c ps IH]; [congruence |]. intros _ Hall.
  inversion Hall as [| ? ? (Hne & Hdot & Hsep) Hrest]; subst.
  destruct ps as [| d ps]; simpl.
  - apply split_on_absent. exact Hsep.
  - change (c ++ String "/" (String.concat "/" (d :: ps)))%string
      with (c ++ String "/"%char (String.concat "/" (d :: ps)))%string.
    rewrite split_on_segment by exact Hsep. f_equal. apply IH; [discriminate | exact Hrest].
Qed.

Lemma keep_plain_parts (ps : list string) :
  Forall PathOps.plain_name ps -> filter PathOps.keep_part ps = ps.
Proof.
  induction 1 as [| c ps (Hne & Hdot & _) _ IH]; simpl; [reflexivity |].
  unfold PathOps.keep_part at 1. apply String.eqb_neq in Hne, Hdot.
  rewrite Hne, Hdot. simpl. congruence.
Qed.

Lemma plain_not_slash_first (c rest : string) :
  PathOps.plain_name c -> String.prefix "/" (c ++ rest) = false.
Proof.
  intros (Hne & _ & Hsep). destruct c as [| a c]; [congruence |].
  simpl in Hsep. destruct (Str.rfind "/" c); [discriminate |].
  destruct (Ascii.eqb_spec a "/"%char) as [-> | Hn]; [discriminate |].
  change (String.prefix "/" (String a c ++ rest))
    with (if ascii_dec "/"%char a then String.prefix "" (c ++ rest) else false).
  destruct (ascii_dec "/"%char a); [congruence | reflexivity].
Qed.

Lemma plain_not_slash (c : string) :
  PathOps.plain_name c -> String.prefix "/" c = false.
Proof.
  intros (Hne & _ & Hsep). destruct c as [| a c]; [congruence |].
  simpl in Hsep. destruct (Str.rfind "/" c); [discriminate |].
  destruct (Ascii.eqb_spec a "/"%char) as [-> | Hn]; [discriminate |].
  change (String.prefix "/" (String a c))
    with (if ascii_dec "/"%char a then String.prefix "" c else false).
  destruct (ascii_dec "/"%char a); [congruence | reflexivity].
Qed.

Lemma slash_first (rest : string) : String.prefix "/" (String "/"%char rest) = true.
Proof.
  change (String.prefix "/" (String "/"%char rest))
    with (if ascii_dec "/"%char "/"%char then String.prefix "" rest else false).
  destruct (ascii_dec "/"%char "/"%char); [destruct rest; reflexivity | congruence].
Qed.

Lemma path_of_its_str (p : Path) : well_formed p -> PathOps.of_str (PathOps.str p) = p.
Proof.
  destruct p as [anch ps]. unfold well_formed, PathOps.str, PathOps.of_str; simpl.
  intros Hall. destruct anch.
  - unfold Str.startswith.
    change ("/" ++ String.concat "/" ps)%string with (String "/"%char (String.concat "/" ps)).
    rewrite slash_first. f_equal.
    change (Str.split_on "/" (String "/" (String.concat "/" ps)))
      with (EmptyString :: Str.split_on "/" (String.concat "/" ps)).
    destruct ps as [| c ps]; [reflexivity |].
    rewrite split_on_concat by (discriminate || assumption).
    change (filter PathOps.keep_part (EmptyString :: c :: ps))
      with (filter PathOps.keep_part (c :: ps)).
    apply keep_plain_parts. exact Hall.
  - destruct ps as [| c ps]; [reflexivity |].
    change (match ps with
            | [] => c
            | _ :: _ => (c ++ String "/"%char (String.concat "/" ps))%string
            end) with (String.concat "/" (c :: ps)).
    rewrite split_on_concat by (discriminate || assumption).
    rewrite (keep_plain_parts Hall). f_equal. unfold Str.startswith.
    inversion Hall as [| ? ? Hc Hrest]; subst. destruct ps as [| d ps]; simpl.
    + apply plain_not_slash. exact Hc.
    + apply plain_not_slash_first. exact Hc.
Qed.

(** X8. A click in the directory tree on a path of plain components
    makes exactly that path the current directory ([Path(str(p))] is [p]
    again), without any check that it exists and however the listing
    ends. *)
Theorem tree_click_sets_the_clicked_path (s : App FS) (p : Path) :
  well_formed p ->
  PathOps.of_str (PathOps.str p) = p
  /\ current_dir (final (on_dir_selected p) s) = p
  /\ fs (final (on_dir_selected p) s) = fs s.
Proof.
  intros Hp. split; [apply path_of_its_str; exact Hp |].
  unfold final, on_dir_selected. rewrite (path_of_its_str Hp).
  split; [apply set_current_dir_sets |].
  destruct (quiet_set_current_dir p s) as [Hfs _]. exact Hfs.
Qed.

(* ----------------------------------------------------------------- *)
(** *** Toggling and refreshing by key *)

(** X9. Toggling the hidden flag twice, when the first toggle returns,
    brings back the flag and leaves the rows, the cursor and the row
    entries that a plain refresh of the starting state leaves. *)
Theorem toggle_hidden_twice_restores (s : App FS) :
  raised action_toggle_hidden s = None ->
  let s2 := final (bind action_toggle_hidden (fun _ => action_toggle_hidden)) s in
  show_hidden s2 = show_hidden s
  /\ table s2 = table (final refresh_table s)
  /\ cursor_row s2 = cursor_row (final refresh_table s)
  /\ _row_entries s2 = _row_entries (final refresh_table s).
Proof.
  unfold raised, final, action_toggle_hidden. unfold_monad.
  destruct (refresh_table_run (with_show_hidden (negb (show_hidden s)) s))
    as (evs1 & _ & E1).
  destruct (refresh_table_run s) as (evs0 & _ & E0). rewrite E0. clear E0.
  rewrite E1. clear E1. simpl fs. simpl current_dir. simpl show_hidden.
  destruct (listed (fs s) (current_dir s)) as [e | entries] eqn:Hit.
  - destruct (class_eqb (exn_cls e) PermissionError) eqn:Hcls; simpl;
      [| discriminate]. intros _.
    match goal with |- context [refresh_table ?x] =>
      destruct (refresh_table_run x) as (evs2 & _ & E2); rewrite E2; clear E2
    end. simpl fs. simpl current_dir. rewrite Hit, Hcls. simpl.
    rewrite negb_involutive. auto.
  - cbv zeta.
    destruct (snd (rows_of (fs s) (filter (visible (negb (show_hidden s))) entries)));
      simpl; [discriminate |]. intros _.
    match goal with |- context [refresh_table ?x] =>
      destruct (refresh_table_run x) as (evs2 & _ & E2); rewrite E2; clear E2
    end. simpl fs. simpl current_dir. simpl show_hidden. rewrite Hit. cbv zeta.
    rewrite negb_involutive.
    destruct (snd (rows_of (fs s) (filter (visible (show_hidden s)) entries)));
      simpl; auto.
Qed.

(** X10. The refresh key over a directory whose listing is refused: the
    command returns with an empty table and the status "Refreshed.", the
    "Permission denied" warning of the listing being overwritten. *)
Theorem refresh_key_overwrites_the_warning (s : App FS) (e : exn) :
  fs_iterdir (fs s) (current_dir s) = inl e ->
  exn_cls e = PermissionError ->
  status (final refresh_table s) = "⚠  Permission denied"
  /\ raised action_refresh s = None
  /\ table (final action_refresh s) = []
  /\ status (final action_refresh s) = "Refreshed.".
Proof.
  intros Hit Hcls. unfold raised, final, action_refresh. unfold_monad.
  destruct (refresh_table_run s) as (evs & _ & E). rewrite E, (listed_refused _ _ Hit), Hcls. simpl. auto.
Qed.

(* ----------------------------------------------------------------- *)
(** *** Copy and paste *)

Lemma count_is_no_check_mark (n : nat) (rest : string) :
  Str.startswith rest "✔" = false ->
  Str.startswith (Str.of_nat n ++ rest) "✔" = false.
Proof.
  intros Hrest. unfold Str.of_nat. destruct (Nat.to_uint n); simpl NilEmpty.string_of_uint;
    try exact Hrest; vm_compute; reflexivity.
Qed.

Lemma items_status_is_no_success (s : App FS) (n : nat) :
  is_success_status (items_status s n) = false.
Proof.
  unfold is_success_status, items_status. apply count_is_no_check_mark.
  vm_compute. reflexivity.
Qed.

Lemma after_refresh_no_success (x : App FS) :
  match refresh_table x with
  | (Val _, s') => is_success_status (status s') = false
  | (Exc _, s') => True
  end.
Proof.
  destruct (refresh_table_run x) as (evs & _ & E). rewrite E.
  destruct (listed (fs x) (current_dir x)) as [e | entries].
  - destruct (class_eqb (exn_cls e) PermissionError); [vm_compute; reflexivity | exact I].
  - cbv zeta. destruct (snd (rows_of _ _)); [exact I |].
    apply items_status_is_no_success.
Qed.

(** X11. However a paste ends, the status line never shows a success
    message: "Moved" and "Copied" are set before the refresh, which
    replaces them by the item count or a warning. *)
Theorem paste_never_ends_on_its_success_message (s : App FS) :
  is_success_status (status (final action_paste_item s)) = false.
Proof.
  unfold final, action_paste_item. unfold_monad.
  destruct (clipboard s) as [src |] eqn:Hclip; [| vm_compute; reflexivity].
  destruct (PathOps.eqb _ src); [vm_compute; reflexivity |].
  destruct (String.eqb (clipboard_op s) "cut").
  - destruct (fs_move (fs s) _ _) as [[e rest] | f']; [vm_compute; reflexivity |].
    rewrite clipboard_with_fs, Hclip. unfold_monad.
    match goal with |- context [refresh_table ?x] =>
      pose proof (@after_refresh_no_success x) as Hx;
      destruct (refresh_table x) as [[[] | e] s2]
    end; unfold_monad; simpl; [apply Hx | vm_compute; reflexivity].
  - destruct (fs_is_dir (fs s) src) as [e0 | [|]]; unfold_monad;
      [vm_compute; reflexivity | |].
    + destruct (fs_copytree _ _ _) as [[e rest] | f']; [vm_compute; reflexivity |].
      match goal with |- context [refresh_table ?x] =>
        pose proof (@after_refresh_no_success x) as Hx;
        destruct (refresh_table x) as [[[] | e] s2]
      end; unfold_monad; simpl; [apply Hx | vm_compute; reflexivity].
    + destruct (fs_copy2 _ _ _) as [[e rest] | f']; [vm_compute; reflexivity |].
      match goal with |- context [refresh_table ?x] =>
        pose proof (@after_refresh_no_success x) as Hx;
        destruct (refresh_table x) as [[[] | e] s2]
      end; unfold_monad; simpl; [apply Hx | vm_compute; reflexivity].
Qed.

Lemma copy_item_run (s : App FS) (e : Path) :
  selected_entry s = Some e ->
  exists s', action_copy_item s = (Val NoScreen, s')
    /\ clipboard s' = Some e /\ clipboard_op s' = "copy"
    /\ fs s' = fs s /\ log s' = log s
    /\ current_dir s' = current_dir s /\ table s' = table s
    /\ _row_entries s' = _row_entries s
    /\ (clipboard s <> Some e -> clipboard_op s = "copy" ->
        status s' = ("📋 Copied: " ++ PathOps.name e ++ "  — press [V] to paste")%string).
Proof.
  intros Hsel. unfold action_copy_item. unfold_monad. rewrite Hsel.
  destruct (clipboard s) as [old |] eqn:Hclip.
  - destruct (PathOps.eqb old e) eqn:Heq; unfold_monad; eexists; (split; [reflexivity |]);
      simpl.
    + apply path_eqb_eq in Heq. subst old. repeat split; auto. congruence.
    + repeat split; auto. intros _ ->. reflexivity.
  - unfold_monad; eexists; (split; [reflexivity |]); simpl.
    repeat split; auto. intros _ ->. reflexivity.
Qed.

(** X12. Copy with an entry selected puts that entry on the clipboard
    with the operation "copy", whatever was there before, without a call
    to the host and without touching the listing; when the clipboard
    changes, the status line announces the copied name. *)
Theorem copy_replaces_the_clipboard (s : App FS) (e : Path) :
  selected_entry s = Some e ->
  let s' := final action_copy_item s in
  raised action_copy_item s = None
  /\ clipboard s' = Some e /\ clipboard_op s' = "copy"
  /\ fs s' = fs s /\ log s' = log s
  /\ current_dir s' = current_dir s /\ table s' = table s
  /\ _row_entries s' = _row_entries s
  /\ (clipboard s <> Some e -> clipboard_op s = "copy" ->
      status s' = ("📋 Copied: " ++ PathOps.name e ++ "  — press [V] to paste")%string).
Proof.
  intros Hsel. destruct (copy_item_run s Hsel) as (s1 & E & Hall).
  unfold raised, final. rewrite E. simpl. split; [reflexivity | exact Hall].
Qed.

(** X13. Copying an entry listed in the current directory and pasting at
    once is refused: "Source and destination are the same", no call to
    the host, and the entry stays on the clipboard. *)
Theorem copy_then_paste_in_place_is_refused (s : App FS) (e : Path) :
  selected_entry s = Some e ->
  parts e <> [] -> PathOps.plain_name (PathOps.name e) ->
  PathOps.parent e = current_dir s ->
  let s' := final (bind action_copy_item (fun _ => action_paste_item)) s in
  raised (bind action_copy_item (fun _ => action_paste_item)) s = None
  /\ status s' = "⚠  Source and destination are the same."
  /\ clipboard s' = Some e /\ fs s' = fs s /\ log s' = log s /\ table s' = table s.
Proof.
  intros Hsel Hne Hplain Hparent.
  destruct (copy_item_run s Hsel)
    as (s1 & E & Hc & _ & Hfs & Hlog & Hcur & Htab & _).
  unfold raised, final. unfold bind. rewrite E.
  pose proof (paste_cases s1) as Hp. rewrite Hc in Hp. cbv zeta in Hp.
  rewrite Hcur, <- Hparent, (joinpath_own_parent _ Hne Hplain), path_eqb_refl in Hp.
  rewrite Hp. simpl. auto 6.
Qed.

(* ----------------------------------------------------------------- *)
(** *** The one writing call of a command *)

Lemma writes_once_mutate_bind {A} (c : FsCall) (op : FS -> exn * FS + FS)
    (k : unit -> M FS A) (s : App FS) :
  quiet (k tt) -> writes_once c (bind (mutate c op) k) s.
Proof.
  intros Hk. unfold writes_once, bind, mutate.
  destruct (op (fs s)) as [[e rest] | f']; simpl.
  - exists [], (Failed c e), []. simpl. auto.
  - destruct (Hk (with_fs f' (record (Returned c) s))) as (_ & evs & E & P).
    destruct (k tt _) as [r s1]; simpl in *.
    exists [], (Returned c), evs. rewrite E. simpl. rewrite <- app_assoc. auto.
Qed.

Lemma writes_once_query_bind {A B} (c0 c : FsCall) (f : FS -> exn + B) (b : B)
    (k : B -> M FS A) (s : App FS) :
  is_mutation c0 = false ->
  f (fs s) = inr b ->
  (forall s1, writes_once c (k b) s1) ->
  writes_once c (bind (query c0 f) k) s.
Proof.
  intros Hc0 Hf Hk. unfold writes_once, bind, query. rewrite Hf.
  destruct (Hk (record (Returned c0) s)) as (before & ev & after & E & Pb & Hc & Pa).
  exists (Returned c0 :: before), ev, after. rewrite E. simpl.
  rewrite <- app_assoc. split; [reflexivity |].
  split; [constructor; [exact Hc0 | exact Pb] | auto].
Qed.

Lemma writes_once_try_except {A} (c : FsCall) (body : M FS A)
    (clauses : list (list exn_class * (exn -> M FS A))) (s : App FS) :
  writes_once c body s ->
  Forall (fun clause => forall e, quiet (snd clause e)) clauses ->
  writes_once c (try_except body clauses) s.
Proof.
  intros (before & ev & after & E & Pb & Hc & Pa) Hq. unfold writes_once, try_except.
  destruct (body s) as [[a | e] s1]; simpl in *; [exists before, ev, after; auto |].
  assert (Hfind : forall h, find_clause e clauses = Some h -> quiet (h e)).
  { clear - Hq. induction Hq as [| [classes handler] rest Hh _ IH]; simpl; [discriminate |].
    intros h. destruct (existsb (isinstance e) classes); [| apply IH].
    intros Eh; inversion Eh; subst. apply Hh. }
  destruct (find_clause e clauses) as [h |]; [| exists before, ev, after; auto].
  destruct (Hfind h eq_refl s1) as (_ & evs & E2 & P2).
  exists before, ev, (after ++ evs). rewrite E2, E.
  rewrite <- !app_assoc. simpl.
  split; [reflexivity |]. split; [exact Pb |]. split; [exact Hc |].
  apply Forall_app; auto.
Qed.

Lemma writes_once_bind_quiet {A B} (c : FsCall) (m : M FS A) (k : A -> M FS B)
    (s : App FS) :
  writes_once c m s -> (forall a, quiet (k a)) -> writes_once c (bind m k) s.
Proof.
  intros (before & ev & after & E & Pb & Hc & Pa) Hk. unfold writes_once, bind.
  destruct (m s) as [[a | e] s1]; simpl in *; [| exists before, ev, after; auto].
  destruct (Hk a s1) as (_ & evs & E2 & P2).
  exists before, ev, (after ++ evs). rewrite E2, E. rewrite <- !app_assoc. simpl.
  split; [reflexivity |]. split; [exact Pb |]. split; [exact Hc |].
  apply Forall_app; auto.
Qed.

Ltac quiet_handlers :=
  repeat (apply Forall_cons; [intros ?; simpl; apply quiet_set_status |]);
  apply Forall_nil.

Ltac quiet_rest := intros; apply quiet_bind; [apply quiet_refresh_table | intros ?; apply quiet_set_status].

(** X14. Delete with an entry selected: declining the confirmation
    returns the state it started from; confirming, when [is_dir] answers
    for the entry, makes exactly one writing call, on the selected
    entry, [rmtree] when it is a directory and [unlink] when it is not;
    and when [is_dir] raises, no writing call is made: the command
    returns with the error on the status line. *)
Theorem delete_removes_the_selected_entry_only (s : App FS) (entry : Path) :
  selected_entry s = Some entry ->
  command action_delete (ReplyConfirm false) s = (Val tt, s)
  /\ (forall d, fs_is_dir (fs s) entry = inr d ->
      writes_once (if d then Call_rmtree entry else Call_unlink entry)
                  (command action_delete (ReplyConfirm true)) s)
  /\ (forall e, fs_is_dir (fs s) entry = inl e ->
      command action_delete (ReplyConfirm true) s
      = (Val tt, with_status ("⚠  Error: " ++ exn_text e)
                   (record (Failed (Call_is_dir entry) e) s))).
Proof.
  intros Hsel.
  assert (E : command action_delete (ReplyConfirm true) s = delete_handle entry true s).
  { unfold command, action_delete. unfold_monad. rewrite Hsel. reflexivity. }
  split; [| split].
  - unfold command, action_delete. unfold_monad. rewrite Hsel. reflexivity.
  - intros d Hd. unfold writes_once. rewrite E. unfold delete_handle.
    apply writes_once_try_except; [| quiet_handlers].
    apply (@writes_once_query_bind _ _ _ _ _ d); [reflexivity | exact Hd |]. intros s1.
    destruct d; apply writes_once_mutate_bind; quiet_rest.
  - intros e Hd. rewrite E. unfold delete_handle. unfold_monad. rewrite Hd. reflexivity.
Qed.

(** X15. New file, new directory and rename, answered with a non-empty
    text: each makes exactly one writing call, [touch], [mkdir] or
    [rename] of the selected entry, on the path [current_dir / text].
    That path is the text itself when the text starts with a slash, and
    lies directly in the current directory under that name when the text
    is a plain name. *)
Theorem text_commands_write_to_current_dir_joined_with_text
    (s : App FS) (entry : Path) (text : string) :
  text <> "" ->
  let target := PathOps.joinpath (current_dir s) text in
  writes_once (Call_touch target) (new_file_handle (Some text)) s
  /\ writes_once (Call_mkdir target) (new_dir_handle (Some text)) s
  /\ (text <> PathOps.name entry ->
      writes_once (Call_rename entry target) (rename_handle entry (Some text)) s)
  /\ (Str.startswith text "/" = true -> target = PathOps.of_str text)
  /\ (PathOps.plain_name text ->
      PathOps.name target = text /\ PathOps.parent target = current_dir s).
Proof.
  intros Htext target. pose proof (truthy_nonempty Htext) as Ht.
  split; [| split; [| split; [| split]]].
  - unfold writes_once, new_file_handle. rewrite Ht. unfold bind at 1. unfold gets at 1.
    cbv beta iota zeta. simpl text_of.
    apply writes_once_try_except; [| quiet_handlers].
    apply writes_once_mutate_bind. quiet_rest.
  - unfold writes_once, new_dir_handle. rewrite Ht. unfold bind at 1. unfold gets at 1.
    cbv beta iota zeta. simpl text_of.
    apply writes_once_try_except; [| quiet_handlers].
    apply writes_once_mutate_bind. quiet_rest.
  - intros Hname. unfold writes_once, rename_handle. rewrite Ht.
    change (text_of (Some text)) with text.
    apply String.eqb_neq in Hname. rewrite Hname.
    change (true && negb false) with true. cbv iota.
    unfold bind at 1. unfold gets at 1. cbv beta iota zeta.
    apply writes_once_try_except; [| quiet_handlers].
    apply writes_once_mutate_bind. quiet_rest.
  - intros Habs. unfold target, PathOps.joinpath.
    change (anchored (PathOps.of_str text)) with (Str.startswith text "/").
    rewrite Habs. reflexivity.
  - apply joinpath_plain_name_parent.
Qed.

(** X16. Edit: a selected directory is refused with a status message and
    no modal, whatever the reply; on a file, closing the editor makes no
    writing call and saving makes exactly one, [write_text] of the
    editor's content to the selected entry; and when [is_dir] raises,
    the exception leaves the action with nothing changed. *)
Theorem edit_writes_the_selected_file_only (s : App FS) (entry : Path) :
  selected_entry s = Some entry ->
  (fs_is_dir (fs s) entry = inr true ->
   forall r, command action_edit_file r s
             = (Val tt, with_status "⚠  Cannot edit a directory."
                          (record (Returned (Call_is_dir entry)) s)))
  /\ (fs_is_dir (fs s) entry = inr false ->
      command action_edit_file (ReplyEdit EditClose) s
      = (Val tt, record (Returned (Call_is_dir entry)) s)
      /\ forall content,
           writes_once (Call_write_text entry content)
                       (command action_edit_file (ReplyEdit (EditSave content))) s)
  /\ (forall e r, fs_is_dir (fs s) entry = inl e ->
      command action_edit_file r s = (Exc e, record (Failed (Call_is_dir entry) e) s)).
Proof.
  intros Hsel. split; [| split].
  - intros Hd r. unfold command, action_edit_file. unfold_monad. rewrite Hsel.
    unfold_monad. rewrite Hd. unfold_monad. destruct r; reflexivity.
  - intros Hd. split.
    + unfold command, action_edit_file. unfold_monad. rewrite Hsel.
      unfold_monad. rewrite Hd. reflexivity.
    + intros content.
      assert (E : command action_edit_file (ReplyEdit (EditSave content)) s
                  = bind (EditModal_dismiss entry (EditSave content)) edit_handle
                         (record (Returned (Call_is_dir entry)) s)).
      { unfold command, action_edit_file. unfold_monad. rewrite Hsel.
        unfold_monad. rewrite Hd. reflexivity. }
      unfold writes_once. rewrite E. clear E.
      set (s1 := record (Returned (Call_is_dir entry)) s).
      assert (Hw : writes_once (Call_write_text entry content)
                     (bind (EditModal_dismiss entry (EditSave content)) edit_handle) s1).
      { apply writes_once_bind_quiet.
        - unfold EditModal_dismiss. apply writes_once_try_except.
          + apply writes_once_mutate_bind. apply quiet_ret.
          + apply Forall_cons; [intros ?; simpl; apply quiet_ret | apply Forall_nil].
        - intros result. unfold edit_handle. quiet. }
      destruct Hw as (before & ev & after & El & Pb & Hc & Pa).
      exists (Returned (Call_is_dir entry) :: before), ev, after. rewrite El.
      unfold s1. simpl. rewrite <- app_assoc. split; [reflexivity |].
      split; [constructor; [reflexivity | exact Pb] | auto].
  - intros e r Hd. unfold command, action_edit_file. unfold_monad. rewrite Hsel.
    unfold_monad. rewrite Hd. reflexivity.
Qed.

(* ----------------------------------------------------------------- *)
(** *** The watcher of the current directory *)

(** X17. Assigning the directory that is already current runs no watcher
    and changes nothing; assigning another one, when the refresh it
    triggers returns, leaves the path bar and the directory tree on the
    new directory. *)
Theorem current_dir_watcher_runs_on_change_only (s : App FS) (p : Path) :
  (p = current_dir s -> set_current_dir p s = (Val tt, s))
  /\ (p <> current_dir s -> raised (set_current_dir p) s = None ->
      let s' := final (set_current_dir p) s in
      current_dir s' = p
      /\ path_bar s' = (" 📂  " ++ PathOps.str p)%string
      /\ tree_path s' = PathOps.str p).
Proof.
  split.
  - intros ->. rewrite set_current_dir_run, path_eqb_refl. reflexivity.
  - intros Hne. unfold raised, final. rewrite set_current_dir_run.
    destruct (PathOps.eqb (current_dir s) p) eqn:Heq.
    { apply path_eqb_eq in Heq. congruence. }
    unfold watch_current_dir. unfold_monad.
    match goal with |- context [refresh_table ?x] =>
      destruct (refresh_table_cases x) as (r & s2 & evs & E & _ & _ & Hk); rewrite E
    end.
    destruct Hk as (_ & Hcur & _ & _ & _ & Hbar & Htree).
    destruct r as [[] | e]; simpl; [| discriminate]. intros _. auto.
Qed.

(* ----------------------------------------------------------------- *)
(** *** A key that raises *)

Lemma keys_of_first_failure (f : FS) (before after : list Path) (p : Path) (e : exn) :
  forallb (is_dir_answers f) before = true ->
  fs_is_dir f p = inl e ->
  keys_of f (before ++ p :: after) = inl e.
Proof.
  intros Hbefore Hp. induction before as [| q before IH]; simpl in *.
  - unfold key_of. rewrite Hp. reflexivity.
  - apply andb_prop in Hbefore. destruct Hbefore as [Hq Hrest].
    unfold is_dir_answers in Hq. unfold key_of at 1.
    destruct (fs_is_dir f q) as [e' | d]; [discriminate |].
    rewrite (IH Hrest). reflexivity.
Qed.

(** X22. When the directory is enumerated but [is_dir] raises for one of
    the enumerated paths (the first for which it does) while the keys of
    the sort are computed, no listing is built: the table is empty and
    the row entries are left as they were.  A [PermissionError] is taken
    for a refused listing, with the "Permission denied" warning;
    anything else leaves [refresh_table], the status line untouched. *)
Theorem key_failure_refuses_the_listing
    (s : App FS) (before after : list Path) (p : Path) (e : exn) :
  fs_iterdir (fs s) (current_dir s) = inr (before ++ p :: after) ->
  forallb (is_dir_answers (fs s)) before = true ->
  fs_is_dir (fs s) p = inl e ->
  let s' := final refresh_table s in
  table s' = []
  /\ _row_entries s' = _row_entries s
  /\ (exn_cls e = PermissionError ->
      raised refresh_table s = None /\ status s' = "⚠  Permission denied")
  /\ (class_eqb (exn_cls e) PermissionError = false ->
      raised refresh_table s = Some e /\ status s' = status s).
Proof.
  intros Hit Hbefore Hp.
  assert (Hlisted : listed (fs s) (current_dir s) = inl e).
  { unfold listed, sorted_entries. rewrite Hit.
    rewrite (keys_of_first_failure _ _ after _ Hbefore Hp). reflexivity. }
  unfold raised, final.
  destruct (refresh_table_run s) as (evs & _ & E). rewrite E, Hlisted. clear E.
  destruct (class_eqb (exn_cls e) PermissionError) eqn:Hcls; simpl;
    (split; [reflexivity |]); (split; [reflexivity |]); split.
  - auto.
  - discriminate.
  - intros Hperm. rewrite Hperm in Hcls. discriminate.
  - auto.
Qed.

(* ----------------------------------------------------------------- *)
(** *** Properties kept along every run *)

Lemma copy_item_pushes_no_callback : pushes_no_callback (action_copy_item (FS := FS)).
Proof.
  intros s. unfold action_copy_item, set_clipboard. unfold_monad.
  destruct (selected_entry s); unfold_monad; simpl; [| exact I].
  destruct (match clipboard s with Some _ => _ | None => _ end); exact I.
Qed.

Lemma file_info_pushes_no_callback : pushes_no_callback (action_file_info (FS := FS)).
Proof.
  intros s. unfold action_file_info. unfold_monad. destruct (selected_entry s); exact I.
Qed.

Lemma toggle_hidden_pushes_no_callback :
  pushes_no_callback (action_toggle_hidden (FS := FS)).
Proof.
  intros s. unfold action_toggle_hidden. unfold_monad.
  destruct (refresh_table _) as [[[] | ?] ?]; exact I.
Qed.

Lemma refresh_pushes_no_callback : pushes_no_callback (action_refresh (FS := FS)).
Proof.
  intros s. unfold action_refresh. unfold_monad.
  destruct (refresh_table _) as [[[] | ?] ?]; exact I.
Qed.

Lemma go_up_pushes_no_callback : pushes_no_callback (action_go_up (FS := FS)).
Proof.
  intros s. unfold action_go_up. unfold_monad.
  destruct (negb _); unfold_monad; [| exact I].
  destruct (set_current_dir _ _) as [[[] | ?] ?]; exact I.
Qed.

Lemma paste_pushes_no_callback : pushes_no_callback (action_paste_item (FS := FS)).
Proof.
  intros s. pose proof (paste_cases s) as Hp. destruct (clipboard s) as [src |].
  - cbv zeta in Hp. destruct (PathOps.eqb _ src).
    + rewrite Hp. exact I.
    + destruct Hp as (s' & evs & E & _). rewrite E. exact I.
  - rewrite Hp. exact I.
Qed.

Lemma with_fs_same (ev : FsEvent) (s : App FS) :
  with_fs (fs s) (record ev s) = record ev s.
Proof. destruct s; reflexivity. Qed.

Section Invariant.

Variable Inv : App FS -> Prop.

Hypothesis Inv_status : forall s m, Inv s -> Inv (with_status m s).
Hypothesis Inv_cursor :
  forall s i, Inv s ->
    Inv (with_table (table s) (Z.of_nat (Nat.min i (List.length (table s) - 1))) s).
Hypothesis Inv_clipboard : forall s c, Inv s -> Inv (with_clipboard c s).
Hypothesis Inv_copy : forall s, Inv s -> Inv (with_clipboard_op "copy" s).
Hypothesis Inv_hidden : forall s b, Inv s -> Inv (with_show_hidden b s).
Hypothesis Inv_dir : forall s p, Inv s -> Inv (with_current_dir p s).
Hypothesis Inv_bar : forall s t, Inv s -> Inv (with_path_bar t s).
Hypothesis Inv_tree : forall s t, Inv s -> Inv (with_tree_path t s).
Hypothesis Inv_call : forall s ev f, no_move ev -> Inv s -> Inv (with_fs f (record ev s)).
Hypothesis Inv_refresh : forall s, Inv s -> Inv (snd (refresh_table s)).
Hypothesis Inv_paste : forall s, Inv s -> Inv (snd (action_paste_item s)).

Lemma preserves_ret {A} (a : A) : preserves Inv (ret (FS := FS) a).
Proof. intros s Hs. exact Hs. Qed.

Lemma preserves_gets {A} (f : App FS -> A) : preserves Inv (gets f).
Proof. intros s Hs. exact Hs. Qed.

Lemma preserves_raise {A} (e : exn) : preserves Inv (raise (FS := FS) (A := A) e).
Proof. intros s Hs. exact Hs. Qed.

Lemma preserves_bind {A B} (m : M FS A) (k : A -> M FS B) :
  preserves Inv m -> (forall a, preserves Inv (k a)) -> preserves Inv (bind m k).
Proof.
  intros Hm Hk s Hs. unfold bind. specialize (Hm s Hs).
  destruct (m s) as [[a | e] s1]; simpl in *; [apply Hk; exact Hm | exact Hm].
Qed.

Lemma preserves_try_except {A} (body : M FS A)
    (clauses : list (list exn_class * (exn -> M FS A))) :
  preserves Inv body ->
  Forall (fun clause => forall e, preserves Inv (snd clause e)) clauses ->
  preserves Inv (try_except body clauses).
Proof.
  intros Hb Hc s Hs. unfold try_except. specialize (Hb s Hs).
  destruct (body s) as [[a | e] s1]; simpl in *; [exact Hb |].
  assert (Hfind : forall h, find_clause e clauses = Some h -> preserves Inv (h e)).
  { clear - Hc. induction Hc as [| [classes handler] rest Hh _ IH]; simpl; [discriminate |].
    intros h. destruct (existsb (isinstance e) classes); [| apply IH].
    intros Eh; inversion Eh; subst. apply Hh. }
  destruct (find_clause e clauses) as [h |]; [| exact Hb].
  apply (Hfind h eq_refl). exact Hb.
Qed.

Lemma preserves_set_status (msg : string) : preserves Inv (set_status msg).
Proof. intros s Hs. apply Inv_status. exact Hs. Qed.

Lemma preserves_query {A} (c : FsCall) (f : FS -> exn + A) :
  no_move (Returned c) -> preserves Inv (query c f).
Proof.
  intros Hc s Hs. unfold query. destruct (f (fs s)); simpl;
    rewrite <- with_fs_same; apply Inv_call; assumption.
Qed.

Lemma preserves_mutate (c : FsCall) (f : FS -> exn * FS + FS) :
  no_move (Returned c) -> preserves Inv (mutate c f).
Proof.
  intros Hc s Hs. unfold mutate. destruct (f (fs s)) as [[e rest] | f']; simpl;
    apply Inv_call; assumption.
Qed.

Lemma preserves_refresh_table : preserves Inv refresh_table.
Proof. exact Inv_refresh. Qed.

Lemma preserves_modify (f : App FS -> App FS) :
  (forall s, Inv s -> Inv (f s)) -> preserves Inv (modify f).
Proof. intros Hf s Hs. apply Hf. exact Hs. Qed.

(** Split a goal [preserves Inv m] along the structure of [m]. *)
Ltac keep :=
  repeat first
    [ apply preserves_ret | apply preserves_gets | apply preserves_raise
    | apply preserves_set_status | apply preserves_refresh_table
    | apply preserves_query; exact I
    | apply preserves_mutate; exact I
    | apply preserves_modify; intros ? ?;
      first [ apply Inv_status | apply Inv_cursor | apply Inv_clipboard | apply Inv_copy
            | apply Inv_hidden | apply Inv_dir | apply Inv_bar | apply Inv_tree ];
      assumption
    | apply preserves_bind; [| intros ?]
    | apply preserves_try_except;
      [| repeat (apply Forall_cons; [intros ?; simpl |]); try apply Forall_nil]
    | match goal with
      | |- preserves _ (if ?b then _ else _) => destruct b
      | |- preserves _ (match ?x with Some _ => _ | None => _ end) => destruct x
      | |- preserves _ (match ?x with inl _ => _ | inr _ => _ end) => destruct x
      | |- preserves _ (let _ := _ in _) => cbv zeta
      end ].

Lemma preserves_set_current_dir (p : Path) : preserves Inv (set_current_dir p).
Proof. unfold set_current_dir, watch_current_dir. keep. Qed.

Lemma preserves_goto_handle (result : option string) : preserves Inv (goto_handle result).
Proof.
  unfold goto_handle, Path_expanduser, Path_is_dir. keep; apply preserves_set_current_dir.
Qed.

Lemma preserves_new_file_handle (result : option string) :
  preserves Inv (new_file_handle result).
Proof. unfold new_file_handle, Path_touch. keep. Qed.

Lemma preserves_new_dir_handle (result : option string) :
  preserves Inv (new_dir_handle result).
Proof. unfold new_dir_handle, Path_mkdir. keep. Qed.

Lemma preserves_rename_handle (entry : Path) (result : option string) :
  preserves Inv (rename_handle entry result).
Proof. unfold rename_handle, Path_rename. keep. Qed.

Lemma preserves_delete_handle (entry : Path) (confirmed : bool) :
  preserves Inv (delete_handle entry confirmed).
Proof. unfold delete_handle, Path_is_dir, shutil_rmtree, Path_unlink. keep. Qed.

Lemma preserves_edit (entry : Path) (g : EditGesture) :
  preserves Inv (bind (EditModal_dismiss entry g) edit_handle).
Proof. destruct g; unfold EditModal_dismiss, edit_handle, Path_write_text; keep. Qed.

Lemma preserves_paste_item :
  (forall s ev f, Inv s -> Inv (with_fs f (record ev s))) ->
  preserves Inv action_paste_item.
Proof.
  intros Hall.
  assert (Hm : forall c f, preserves Inv (mutate c f)).
  { intros c f s Hs. unfold mutate.
    destruct (f (fs s)) as [[e rest] | f']; simpl; apply Hall; exact Hs. }
  unfold action_paste_item, shutil_move, shutil_copytree, shutil_copy2, Path_is_dir,
    set_clipboard, watch_clipboard.
  keep; apply Hm.
Qed.

Lemma preserves_command (action : M FS (Pending (FS := FS))) (r : Reply) :
  preserves Inv action -> pushes_no_callback action -> preserves Inv (command action r).
Proof.
  intros Hp Hno s Hs. unfold command, bind. specialize (Hno s). specialize (Hp s Hs).
  destruct (action s) as [[pending | e] s1]; simpl in *; [| exact Hp].
  destruct pending; try contradiction; destruct r; simpl; exact Hp.
Qed.

Lemma preserves_dispatch (ev : Event) : preserves Inv (dispatch ev).
Proof.
  destruct ev as [b r | p | | i]; unfold dispatch.
  - destruct b; simpl action_of.
    + intros s Hs. unfold command, action_new_file. unfold_monad. simpl respond.
      destruct r; simpl; try exact Hs. apply preserves_new_file_handle. exact Hs.
    + intros s Hs. unfold command, action_new_dir. unfold_monad. simpl respond.
      destruct r; simpl; try exact Hs. apply preserves_new_dir_handle. exact Hs.
    + intros s Hs. unfold command, action_rename. unfold_monad.
      destruct (selected_entry s) as [entry |]; unfold_monad.
      * simpl respond. destruct r; simpl; try exact Hs.
        apply preserves_rename_handle. exact Hs.
      * destruct r; simpl; apply Inv_status; exact Hs.
    + intros s Hs. unfold command, action_delete. unfold_monad.
      destruct (selected_entry s) as [entry |]; unfold_monad.
      * simpl respond. destruct r; simpl; try exact Hs.
        apply preserves_delete_handle. exact Hs.
      * destruct r; simpl; apply Inv_status; exact Hs.
    + apply preserves_command; [| apply copy_item_pushes_no_callback].
      unfold action_copy_item, set_clipboard, watch_clipboard, set_clipboard_op. keep.
    + apply preserves_command; [exact Inv_paste | apply paste_pushes_no_callback].
    + intros s Hs. unfold command, action_edit_file. unfold_monad.
      destruct (selected_entry s) as [entry |]; unfold_monad.
      2: { destruct r; simpl; apply Inv_status; exact Hs. }
      assert (Hprobe : Inv (record (Returned (Call_is_dir entry)) s)).
      { rewrite <- with_fs_same. apply Inv_call; [exact I | exact Hs]. }
      destruct (fs_is_dir (fs s) entry) as [e | [|]]; unfold_monad.
      * simpl. rewrite <- with_fs_same. apply Inv_call; [exact I | exact Hs].
      * destruct r; simpl; apply Inv_status; exact Hprobe.
      * destruct r as [| | g |]; simpl respond; try exact Hprobe.
        apply (preserves_edit entry g). exact Hprobe.
    + apply preserves_command; [| apply file_info_pushes_no_callback].
      unfold action_file_info. keep.
    + apply preserves_command; [| apply toggle_hidden_pushes_no_callback].
      unfold action_toggle_hidden, set_show_hidden. keep.
    + apply preserves_command; [| apply refresh_pushes_no_callback].
      unfold action_refresh. keep.
    + intros s Hs. unfold command, action_goto. unfold_monad. simpl respond.
      destruct r; simpl; try exact Hs. apply preserves_goto_handle. exact Hs.
    + apply preserves_command; [| apply go_up_pushes_no_callback].
      unfold action_go_up. keep; apply preserves_set_current_dir.
  - unfold on_dir_selected. apply preserves_set_current_dir.
  - unfold on_row_selected, Path_is_dir. keep; apply preserves_set_current_dir.
  - unfold move_cursor. keep.
Qed.

Lemma preserves_run (evs : list Event) : preserves Inv (run evs).
Proof.
  induction evs as [| ev evs IH]; simpl; [apply preserves_ret |].
  apply preserves_bind; [apply preserves_dispatch | intros _; exact IH].
Qed.

End Invariant.

Lemma read_only_no_move (ev : FsEvent) : read_only ev -> no_move ev.
Proof.
  unfold read_only, no_move. destruct (event_call ev); simpl; intros; discriminate || exact I.
Qed.

Lemma refresh_table_aligns (s : App FS) :
  aligned (snd (refresh_table s)) /\ cursor_in_table (snd (refresh_table s)).
Proof.
  destruct (refresh_table_run s) as (evs & _ & E). rewrite E. clear E.
  assert (Hc : forall rows entries msg l,
             cursor_in_table (refreshed s rows entries msg l)).
  { intros. unfold cursor_in_table, refreshed. cbn [cursor_row table]. lia. }
  assert (Hempty : forall msg l, aligned (refreshed s [] (_row_entries s) msg l)).
  { intros. unfold aligned. simpl. destruct (_row_entries s); reflexivity. }
  assert (Hbuilt : forall built msg l,
             aligned (refreshed s (map snd (fst (rows_of (fs s) built)))
                        (Some (map fst (fst (rows_of (fs s) built)))) msg l)).
  { intros. unfold aligned. simpl. rewrite firstn_all2.
    - apply rows_of_names.
    - rewrite !length_map. apply Nat.le_refl. }
  destruct (listed (fs s) (current_dir s)) as [e | entries].
  - destruct (class_eqb (exn_cls e) PermissionError); simpl; split; auto.
  - cbv zeta. destruct (snd (rows_of _ _)); simpl; split; auto.
Qed.

(** X18. Along every run of events from a state whose rows show the names
    of its row entries and whose cursor is on a row (the state the
    application starts in is one), this stays so; an entry is selected
    exactly when the table has a row, and the selected entry is then the
    one whose name the row under the cursor shows. *)
Theorem selection_is_the_row_under_the_cursor (evs : list Event) (s : App FS) :
  aligned s -> cursor_in_table s ->
  let s' := final (run evs) s in
  aligned s' /\ cursor_in_table s'
  /\ match selected_entry s' with
     | Some entry =>
         exists row, nth_error (table s') (Z.to_nat (cursor_row s')) = Some row
                     /\ row_name row = PathOps.name entry
     | None => table s' = []
     end.
Proof.
  intros Ha Hc s'.
  assert (Hinv : aligned s' /\ cursor_in_table s').
  { unfold s', final.
    apply (@preserves_run (fun s => aligned s /\ cursor_in_table s));
      try (intros; unfold aligned, cursor_in_table in *; simpl; tauto);
      try (split; assumption).
    - intros s0 i [Ha0 Hc0]. unfold aligned, cursor_in_table, with_table in *.
      cbn [cursor_row table _row_entries]. split; [exact Ha0 | lia].
    - intros s0 _. apply refresh_table_aligns.
    - apply preserves_paste_item;
        try (intros; unfold aligned, cursor_in_table in *; simpl; tauto).
      intros s0 _. apply refresh_table_aligns. }
  destruct Hinv as [Ha' Hc']. split; [exact Ha' |]. split; [exact Hc' |].
  generalize dependent s'. intros s' Ha' Hc'. clear Ha Hc.
  unfold selected_entry, aligned, cursor_in_table in *.
  destruct Hc' as [Hpos Hlt].
  destruct (cursor_row s' <? 0)%Z eqn:Hneg; [apply Z.ltb_lt in Hneg; lia |].
  destruct (table s') as [| r0 rows] eqn:Ht; [reflexivity |].
  simpl orb. cbv iota.
  destruct (_row_entries s') as [entries |]; [| discriminate].
  assert (Hlen : List.length (r0 :: rows) <= List.length entries).
  { apply (f_equal (@List.length _)) in Ha'.
    rewrite !length_map, length_firstn in Ha'. lia. }
  assert (Hidx : Z.to_nat (cursor_row s') < List.length (r0 :: rows)).
  { simpl in *. lia. }
  apply (f_equal (fun l => nth_error l (Z.to_nat (cursor_row s')))) in Ha'.
  rewrite !nth_error_map, nth_error_firstn in Ha'.
  destruct (Nat.ltb_spec (Z.to_nat (cursor_row s')) (List.length (r0 :: rows))) as [_ | Hge];
    [| lia].
  destruct (nth_error entries (Z.to_nat (cursor_row s'))) as [entry |] eqn:He.
  - destruct (nth_error (r0 :: rows) (Z.to_nat (cursor_row s'))) as [row |] eqn:Hr;
      [| discriminate].
    exists row. split; [reflexivity |]. simpl in Ha'. congruence.
  - apply nth_error_None in He. lia.
Qed.

(** X19. The clipboard operation starts as "copy" and no handler assigns
    another value: along every run of events from such a state it stays
    "copy", and no call of [shutil.move] is made. *)
Theorem nothing_is_ever_moved (evs : list Event) (s : App FS) :
  clipboard_op s = "copy" ->
  let s' := final (run evs) s in
  clipboard_op s' = "copy" /\ Forall no_move (new_events s s').
Proof.
  intros Hop s'.
  assert (Hinv : clipboard_op s' = "copy"
                 /\ exists new, log s' = log s ++ new /\ Forall no_move new).
  { unfold s', final.
    apply (@preserves_run
             (fun s1 => clipboard_op s1 = "copy"
                        /\ exists new, log s1 = log s ++ new /\ Forall no_move new));
      try (intros; simpl; tauto).
    - intros s0 ev f Hev (Hop0 & new & El & Hnew). simpl. split; [exact Hop0 |].
      exists (new ++ [ev]). rewrite El, app_assoc. split; [reflexivity |].
      apply Forall_app. split; [exact Hnew | repeat constructor; exact Hev].
    - intros s0 (Hop0 & new & El & Hnew).
      destruct (refresh_table_cases s0) as (r & s1 & evs1 & E & Hro & El1 & Hk).
      rewrite E. simpl. destruct Hk as (_ & _ & _ & _ & Hop1 & _).
      split; [congruence |]. exists (new ++ evs1).
      rewrite El1, El, app_assoc. split; [reflexivity |].
      apply Forall_app. split; [exact Hnew |].
      eapply Forall_impl; [| exact Hro]. apply read_only_no_move.
    - intros s0 (Hop0 & new & El & Hnew).
      pose proof (paste_cases s0) as Hp.
      destruct (clipboard s0) as [src |];
        [| rewrite Hp; simpl; split; [exact Hop0 | exists new; auto]].
      cbv zeta in Hp. destruct (PathOps.eqb _ src);
        [rewrite Hp; simpl; split; [exact Hop0 | exists new; auto] |].
      destruct Hp as (s1 & evs1 & E & Hcase). rewrite E. simpl.
      rewrite Hop0 in Hcase. change (String.eqb "copy" "cut") with false in Hcase.
      cbv iota zeta in Hcase.
      destruct (fs_is_dir (fs s0) src) as [e0 | [|]].
      + subst s1. simpl. split; [exact Hop0 |].
        exists (new ++ [Failed (Call_is_dir src) e0]).
        rewrite El, app_assoc. split; [reflexivity |].
        apply Forall_app. split; [exact Hnew | repeat constructor].
      + destruct (fs_copytree _ _ _) as [[e rest] | f'].
        * subst s1. simpl. split; [exact Hop0 |].
          exists (new ++ [Returned (Call_is_dir src);
                          Failed (Call_copytree (PathOps.str src)
                                    (PathOps.str (PathOps.joinpath (current_dir s0)
                                                    (PathOps.name src)))) e]).
          rewrite El, app_assoc. split; [reflexivity |].
          apply Forall_app. split; [exact Hnew | repeat constructor].
        * destruct Hcase as (Hro & El1 & _ & _ & Hop1 & _).
          split; [congruence |]. eexists. rewrite El1, El, <- app_assoc.
          split; [reflexivity |]. apply Forall_app. split; [exact Hnew |].
          constructor; [exact I |]. constructor; [exact I |].
          eapply Forall_impl; [| exact Hro]. apply read_only_no_move.
      + destruct (fs_copy2 _ _ _) as [[e rest] | f'].
        * subst s1. simpl. split; [exact Hop0 |].
          exists (new ++ [Returned (Call_is_dir src);
                          Failed (Call_copy2 (PathOps.str src)
                                    (PathOps.str (PathOps.joinpath (current_dir s0)
                                                    (PathOps.name src)))) e]).
          rewrite El, app_assoc. split; [reflexivity |].
          apply Forall_app. split; [exact Hnew | repeat constructor].
        * destruct Hcase as (Hro & El1 & _ & _ & Hop1 & _).
          split; [congruence |]. eexists. rewrite El1, El, <- app_assoc.
          split; [reflexivity |]. apply Forall_app. split; [exact Hnew |].
          constructor; [exact I |]. constructor; [exact I |].
          eapply Forall_impl; [| exact Hro]. apply read_only_no_move.
    - split; [exact Hop |]. exists []. rewrite app_nil_r. split; [reflexivity | constructor]. }
  destruct Hinv as (Hop' & new & El & Hnew). split; [exact Hop' |].
  erewrite new_events_app by exact El. exact Hnew.
Qed.

(* ----------------------------------------------------------------- *)
(** *** Commands that contain every failure *)

Lemma returns_ret {A} (a : A) : returns (ret (FS := FS) a).
Proof. intros s. exists a. reflexivity. Qed.

Lemma returns_set_status (msg : string) : returns (set_status (FS := FS) msg).
Proof. intros s. exists tt. reflexivity. Qed.

Lemma returns_bind {A B} (m : M FS A) (k : A -> M FS B) :
  returns m -> (forall a, returns (k a)) -> returns (bind m k).
Proof.
  intros Hm Hk s. unfold bind. destruct (Hm s) as [a E].
  destruct (m s) as [[a' | e] s1]; simpl in E; [| discriminate]. apply Hk.
Qed.

Lemma returns_try_except {A} (body : M FS A)
    (clauses : list (list exn_class * (exn -> M FS A))) :
  (forall e, existsb (fun clause => existsb (isinstance e) (fst clause)) clauses = true) ->
  Forall (fun clause => forall e, returns (snd clause e)) clauses ->
  returns (try_except body clauses).
Proof.
  intros Hall Hh s. unfold try_except.
  destruct (body s) as [[a | e] s1]; [exists a; reflexivity |].
  specialize (Hall e).
  induction Hh as [| [classes handler] rest Hhandler _ IH]; simpl in *; [discriminate |].
  destruct (existsb (isinstance e) classes); [apply Hhandler | apply IH; exact Hall].
Qed.

Lemma returns_raised {A} (m : M FS A) (s : App FS) : returns m -> raised m s = None.
Proof. intros Hm. unfold raised. destruct (Hm s) as [a E]. rewrite E. reflexivity. Qed.

(** The [try] of a handler whose last clause is [except Exception] and
    whose clauses only set the status. *)
Ltac contained :=
  apply returns_try_except;
  [ intros e; simpl; rewrite ?orb_true_r; reflexivity
  | repeat (apply Forall_cons; [intros ?; simpl; apply returns_set_status |]);
    apply Forall_nil ].

Lemma returns_new_file_handle (result : option string) : returns (new_file_handle result).
Proof.
  unfold new_file_handle. destruct (truthy result); [| apply returns_ret].
  intros s. unfold bind at 1. unfold gets at 1. cbv zeta. revert s. contained.
Qed.

Lemma returns_new_dir_handle (result : option string) : returns (new_dir_handle result).
Proof.
  unfold new_dir_handle. destruct (truthy result); [| apply returns_ret].
  intros s. unfold bind at 1. unfold gets at 1. cbv zeta. revert s. contained.
Qed.

Lemma returns_rename_handle (entry : Path) (result : option string) :
  returns (rename_handle entry result).
Proof.
  unfold rename_handle. destruct (_ && _); [| apply returns_ret].
  intros s. unfold bind at 1. unfold gets at 1. cbv zeta. revert s. contained.
Qed.

Lemma returns_delete_handle (entry : Path) (confirmed : bool) :
  returns (delete_handle entry confirmed).
Proof. unfold delete_handle. destruct confirmed; [contained | apply returns_ret]. Qed.

(** X20. New file, new directory, rename, delete, copy and paste never
    let an exception out, whatever the host does and however their modal
    is answered: a failure of the mutating call, and a failure of the
    listing that follows a successful one, both end in the handler's
    [except Exception] clause. *)
Theorem file_commands_never_raise (b : Binding) (r : Reply) (s : App FS) :
  In b [new_file; new_dir; rename; delete; copy_item; paste_item] ->
  raised (dispatch (Key b r)) s = None.
Proof.
  intros Hin. unfold dispatch.
  destruct b; simpl in Hin;
    try (exfalso; intuition discriminate); clear Hin; simpl action_of.
  - unfold raised, command, action_new_file. unfold_monad. simpl respond.
    destruct r; try reflexivity.
    apply (returns_raised s (returns_new_file_handle (InputModal_dismiss g))).
  - unfold raised, command, action_new_dir. unfold_monad. simpl respond.
    destruct r; try reflexivity.
    apply (returns_raised s (returns_new_dir_handle (InputModal_dismiss g))).
  - unfold raised, command, action_rename. unfold_monad.
    destruct (selected_entry s) as [entry |]; unfold_monad.
    + simpl respond. destruct r; try reflexivity.
      apply (returns_raised s (returns_rename_handle entry (InputModal_dismiss g))).
    + destruct r; reflexivity.
  - unfold raised, command, action_delete. unfold_monad.
    destruct (selected_entry s) as [entry |]; unfold_monad.
    + simpl respond. destruct r; try reflexivity.
      apply (returns_raised s (returns_delete_handle entry yes)).
    + destruct r; reflexivity.
  - unfold raised, command, bind.
    destruct (selected_entry s) as [entry |] eqn:Hsel.
    + destruct (copy_item_run s Hsel) as (s1 & E & _). rewrite E. destruct r; reflexivity.
    + unfold action_copy_item. unfold_monad. rewrite Hsel. destruct r; reflexivity.
  - unfold raised, command, bind. pose proof (paste_cases s) as Hp.
    destruct (clipboard s) as [src |].
    + cbv zeta in Hp. destruct (PathOps.eqb _ src).
      * rewrite Hp. destruct r; reflexivity.
      * destruct Hp as (s1 & evs & E & _). rewrite E. destruct r; reflexivity.
    + rewrite Hp. destruct r; reflexivity.
Qed.

End Further.

(* ================================================================= *)
(** * Sizes *)

Lemma format_1f_whole (n : Z) : format_1f n 1 = (Str.of_Z n ++ ".0")%string.
Proof.
  unfold format_1f. rewrite Z.div_1_r, Z.mod_1_r. simpl orb. cbv iota.
  rewrite (Z.mul_comm 10 n), Z.div_mul, Z.mod_mul by lia. reflexivity.
Qed.

Ltac size_case :=
  repeat match goal with
         | |- context [(?a <? ?b)%Z] => destruct (Z.ltb_spec a b); try lia
         end.

(** X21. [human_size] picks its unit by powers of 1024, for the sizes a
    float holds exactly (from 0 up to [2^53]): a size below 1024 is
    printed in bytes as the number itself with ".0", a size from [1024^k]
    up to [1024^(k+1)] (k at most 4) as its quotient by [1024^k] with the
    k-th unit, and anything from [1024^5] on in PB. *)
Theorem human_size_unit_by_powers_of_1024 (size : Z) :
  (0 <= size < 2 ^ 53)%Z ->
  ((size < 1024)%Z -> human_size size = (Str.of_Z size ++ ".0 B")%string)
  /\ (forall k unit,
        nth_error size_units k = Some unit ->
        (1024 ^ Z.of_nat k <= size < 1024 ^ Z.of_nat (S k))%Z ->
        human_size size = (format_1f size (1024 ^ Z.of_nat k) ++ " " ++ unit)%string)
  /\ ((1024 ^ 5 <= size)%Z ->
      human_size size = (format_1f size (1024 ^ 5) ++ " PB")%string).
Proof.
  intros _. split; [| split].
  - intros Hsmall. unfold human_size. cbn [human_size_loop]. size_case.
    rewrite format_1f_whole, string_append_assoc. reflexivity.
  - intros k unit Hk Hrange.
    do 5 (destruct k as [| k];
          [ inversion Hk; subst unit;
            match type of Hrange with
            | (1024 ^ ?a <= _ < 1024 ^ ?b)%Z =>
                let lo := eval vm_compute in (1024 ^ a)%Z in
                let hi := eval vm_compute in (1024 ^ b)%Z in
                change (1024 ^ a)%Z with lo in *; change (1024 ^ b)%Z with hi in *
            end;
            unfold human_size; cbn [human_size_loop]; size_case; reflexivity |]).
    destruct k; discriminate.
  - intros Hbig. change (1024 ^ 5)%Z with 1125899906842624%Z in *.
    unfold human_size. cbn [human_size_loop]. size_case. reflexivity.
Qed.

(* ================================================================= *)
(** * The further properties on the sample host *)

Section FurtherSample.

Import Disk.

Lemma only_confirmed_commands_write_witness :
  fs (final (dispatch (Key goto (ReplyInput (PressOk "/locked")))) in_home) = fs in_home
  /\ exists evs,
       log (final (dispatch (Key goto (ReplyInput (PressOk "/locked")))) in_home)
       = log in_home ++ evs /\ Forall read_only evs.
Proof.
  apply (@only_confirmed_commands_write Disk.t Disk.host (Key goto (ReplyInput (PressOk "/locked")))
           eq_refl in_home).
Defined.

Lemma built_listing_witness :
  exists entries,
    _row_entries (final refresh_table in_home) = Some entries
    /\ List.length (table (final refresh_table in_home)) = List.length entries
    /\ (forall e, In e entries ->
                  In e [abs ["home"; "u"; "b.md"]; abs ["home"; "u"; ".hidden"]; a_txt;
                        abs ["home"; "u"; "Docs"]])
    /\ status (final refresh_table in_home)
       = items_status in_home (List.length (table (final refresh_table in_home)))
    /\ cursor_row (final refresh_table in_home) = 0%Z
    /\ selected_entry (final refresh_table in_home) = hd_error entries.
Proof.
  apply (@built_listing_is_counted_and_selected Disk.t Disk.host in_home); vm_compute; reflexivity.
Defined.

Lemma refused_listing_witness :
  _row_entries (final refresh_table in_locked) = _row_entries in_locked
  /\ selected_entry (final refresh_table in_locked) = None
  /\ action_delete (final refresh_table in_locked)
     = (Val NoScreen, with_status "⚠  No item selected." (final refresh_table in_locked)).
Proof.
  destruct (@refused_listing_selects_nothing Disk.t Disk.host in_locked
              (Exn PermissionError "[Errno 13] Permission denied")
              ltac:(vm_compute; reflexivity) eq_refl)
    as (Hrows & Hsel & _ & Hdel & _).
  auto.
Defined.

Lemma folder_icon_witness :
  exists row,
    nth_error (table (final refresh_table in_home)) 0 = Some row
    /\ (row_icon row = "📁"
        <-> fs_is_dir (fs in_home) (abs ["home"; "u"; "Docs"]) = inr true).
Proof.
  assert (Hit : fs_iterdir (fs in_home) (current_dir in_home)
                = inr [abs ["home"; "u"; "b.md"]; abs ["home"; "u"; ".hidden"]; a_txt;
                       abs ["home"; "u"; "Docs"]]) by (vm_compute; reflexivity).
  assert (He : _row_entries (final refresh_table in_home)
               = Some [abs ["home"; "u"; "Docs"]; a_txt; abs ["home"; "u"; "b.md"]])
    by (vm_compute; reflexivity).
  assert (Hrow : exists row, nth_error (table (final refresh_table in_home)) 0 = Some row)
    by (vm_compute; eexists; reflexivity).
  destruct Hrow as [row Hrow]. exists row. split; [exact Hrow |].
  exact (@folder_icon_marks_directories Disk.t Disk.host in_home _ Hit _ 0 _ row
           He eq_refl Hrow).
Defined.

Lemma go_up_witness :
  current_dir (final action_go_up in_docs) = home
  /\ action_go_up (start sample (abs [])) = (Val NoScreen, start sample (abs [])).
Proof.
  split.
  - apply (proj2 (@go_up_stops_at_the_root Disk.t Disk.host in_docs)). vm_compute. discriminate.
  - apply (proj1 (@go_up_stops_at_the_root Disk.t Disk.host (start sample (abs [])))). reflexivity.
Defined.

Lemma enter_witness :
  on_row_selected on_a_txt = (Val tt, record (Returned (Call_is_dir a_txt)) on_a_txt).
Proof.
  apply (proj1 (proj2 (@enter_opens_directories_only Disk.t Disk.host on_a_txt)) a_txt);
    vm_compute; reflexivity.
Defined.

Lemma tree_click_witness :
  PathOps.of_str (PathOps.str (abs ["home"; "u"; "Docs"])) = abs ["home"; "u"; "Docs"]
  /\ current_dir (final (on_dir_selected (abs ["home"; "u"; "Docs"])) in_home)
     = abs ["home"; "u"; "Docs"]
  /\ fs (final (on_dir_selected (abs ["home"; "u"; "Docs"])) in_home) = fs in_home.
Proof.
  apply (@tree_click_sets_the_clicked_path Disk.t Disk.host in_home (abs ["home"; "u"; "Docs"])).
  repeat constructor; discriminate.
Defined.

Lemma toggle_twice_witness :
  show_hidden (final (bind action_toggle_hidden (fun _ => action_toggle_hidden)) in_home)
  = show_hidden in_home
  /\ table (final (bind action_toggle_hidden (fun _ => action_toggle_hidden)) in_home)
     = table (final refresh_table in_home).
Proof.
  destruct (@toggle_hidden_twice_restores Disk.t Disk.host in_home ltac:(vm_compute; reflexivity))
    as (Hh & Ht & _).
  auto.
Defined.

Lemma refresh_key_witness :
  status (final refresh_table in_locked) = "⚠  Permission denied"
  /\ raised action_refresh in_locked = None
  /\ table (final action_refresh in_locked) = []
  /\ status (final action_refresh in_locked) = "Refreshed.".
Proof.
  apply (@refresh_key_overwrites_the_warning Disk.t Disk.host in_locked
           (Exn PermissionError "[Errno 13] Permission denied"));
    vm_compute; reflexivity.
Defined.

Lemma copy_witness :
  clipboard (final action_copy_item on_a_txt) = Some a_txt
  /\ clipboard_op (final action_copy_item on_a_txt) = "copy"
  /\ log (final action_copy_item on_a_txt) = log on_a_txt.
Proof.
  destruct (@copy_replaces_the_clipboard Disk.t on_a_txt a_txt ltac:(vm_compute; reflexivity))
    as (_ & Hc & Ho & _ & Hl & _).
  auto.
Defined.

Lemma copy_then_paste_witness :
  status (final (bind action_copy_item (fun _ => action_paste_item)) on_a_txt)
  = "⚠  Source and destination are the same."
  /\ clipboard (final (bind action_copy_item (fun _ => action_paste_item)) on_a_txt)
     = Some a_txt.
Proof.
  destruct (@copy_then_paste_in_place_is_refused Disk.t Disk.host on_a_txt a_txt)
    as (_ & Hs & Hc & _).
  - vm_compute. reflexivity.
  - discriminate.
  - repeat split; discriminate || reflexivity.
  - vm_compute. reflexivity.
  - auto.
Defined.

Lemma delete_witness :
  command action_delete (ReplyConfirm false) on_a_txt = (Val tt, on_a_txt)
  /\ writes_once (Call_unlink a_txt) (command action_delete (ReplyConfirm true)) on_a_txt.
Proof.
  destruct (@delete_removes_the_selected_entry_only Disk.t Disk.host on_a_txt a_txt)
    as (Hno & Hyes & _).
  - vm_compute. reflexivity.
  - split; [exact Hno |]. apply (Hyes false). vm_compute. reflexivity.
Defined.

Lemma text_commands_witness :
  writes_once (Call_touch (abs ["home"; "u"; "new.txt"]))
              (new_file_handle (Some "new.txt")) in_home
  /\ writes_once (Call_rename a_txt (abs ["tmp"; "x"]))
                 (rename_handle a_txt (Some "/tmp/x")) in_home.
Proof.
  split.
  - apply (@text_commands_write_to_current_dir_joined_with_text Disk.t Disk.host in_home a_txt "new.txt").
    discriminate.
  - apply (@text_commands_write_to_current_dir_joined_with_text Disk.t Disk.host in_home a_txt "/tmp/x");
      discriminate.
Defined.

Lemma edit_witness :
  writes_once (Call_write_text a_txt "hello")
              (command action_edit_file (ReplyEdit (EditSave "hello"))) on_a_txt.
Proof.
  apply (@edit_writes_the_selected_file_only Disk.t Disk.host on_a_txt a_txt);
    vm_compute; reflexivity.
Defined.

Lemma watcher_witness :
  set_current_dir home in_home = (Val tt, in_home)
  /\ tree_path (final (set_current_dir (abs ["home"; "u"; "Docs"])) in_home)
     = "/home/u/Docs".
Proof.
  split.
  - apply (proj1 (@current_dir_watcher_runs_on_change_only Disk.t Disk.host in_home home)).
    vm_compute. reflexivity.
  - apply (proj2 (@current_dir_watcher_runs_on_change_only Disk.t Disk.host in_home
                    (abs ["home"; "u"; "Docs"])));
      [vm_compute; discriminate | vm_compute; reflexivity].
Defined.

Lemma human_size_witness :
  human_size 1536 = (format_1f 1536 1024 ++ " KB")%string
  /\ human_size 12 = "12.0 B".
Proof.
  assert (H1536 : (0 <= 1536 < 2 ^ 53)%Z) by (vm_compute; split; discriminate || reflexivity).
  assert (H12 : (0 <= 12 < 2 ^ 53)%Z) by (vm_compute; split; discriminate || reflexivity).
  split.
  - apply (proj1 (proj2 (human_size_unit_by_powers_of_1024 H1536)) 1 "KB" eq_refl).
    vm_compute. split; discriminate || reflexivity.
  - apply (proj1 (human_size_unit_by_powers_of_1024 H12)). reflexivity.
Defined.

Lemma selection_witness :
  match selected_entry on_a_txt with
  | Some entry =>
      exists row, nth_error (table on_a_txt) (Z.to_nat (cursor_row on_a_txt)) = Some row
                  /\ row_name row = PathOps.name entry
  | None => table on_a_txt = []
  end.
Proof.
  destruct (@selection_is_the_row_under_the_cursor Disk.t Disk.host [CursorTo 1] in_home)
    as (_ & _ & Hsel).
  - vm_compute. reflexivity.
  - split; [vm_compute; discriminate | vm_compute; lia].
  - exact Hsel.
Defined.

Lemma nothing_moved_witness :
  let evs := [Key copy_item ReplyClose; CursorTo 0; RowSelect; Key paste_item ReplyClose] in
  clipboard_op (final (run evs) on_a_txt) = "copy"
  /\ Forall no_move (new_events on_a_txt (final (run evs) on_a_txt)).
Proof.
  apply (@nothing_is_ever_moved Disk.t Disk.host
           [Key copy_item ReplyClose; CursorTo 0; RowSelect; Key paste_item ReplyClose]
           on_a_txt).
  vm_compute. reflexivity.
Defined.

Lemma key_failure_witness :
  table (final refresh_table in_veiled) = []
  /\ _row_entries (final refresh_table in_veiled) = None
  /\ raised refresh_table in_veiled = None
  /\ status (final refresh_table in_veiled) = "⚠  Permission denied".
Proof.
  destruct (@key_failure_refuses_the_listing Disk.t Disk.host in_veiled
              [] [] (abs ["veiled"; "inner"]) permission_denied)
    as (Ht & He & Hdenied & _).
  - vm_compute. reflexivity.
  - reflexivity.
  - vm_compute. reflexivity.
  - destruct (Hdenied eq_refl) as [Hr Hs]. auto.
Defined.

Lemma never_raise_witness :
  raised (dispatch (Key new_file (ReplyInput (PressOk "a.txt")))) in_home = None.
Proof.
  apply (@file_commands_never_raise Disk.t Disk.host new_file
           (ReplyInput (PressOk "a.txt")) in_home).
  simpl. auto.
Defined.

End FurtherSample.
